(** * Simulated conjoint data: pathology transform, design generator and
      response simulator of [PYTHON/utils.py]

    The development embeds the three generating functions of the module,
    [pathology], [generate_simulated_design] and [compute_beta_response],
    and states the properties of the written specification over them.

    Modelling decisions, all local to this file:

    - a [float64] scalar is a rational number or one of the three special
      values (the two infinities and NaN); arithmetic on finite values is
      exact, the special values follow IEEE 754 (for instance
      [inf * 0 = NaN]); rounding is not modelled;
    - a numpy array is its shape together with its row-major buffer of
      scalars; a one-axis array is a plain list;
    - the process-wide random source of [np.random] is not threaded through
      the code; a function that draws is a tree of draws ([prog]), each
      node carrying the arguments of the numpy call, and the tree is given
      two readings: [run] replays it against a tape of sampled values, and
      [pr] computes the exact probability of an event for trees that only
      draw from finite distributions;
    - the dataset bundle is a Python dict that lives in a heap and is passed
      by reference. *)

From stdpp Require Import gmap strings list fin_maps.
From Stdlib Require Import QArith Qround Lqa.

Local Open Scope string_scope.
Local Open Scope list_scope.
Local Open Scope nat_scope.

(** ** Scalars *)

Inductive num : Type :=
| Fin (q : Q)
| PInf
| NInf
| NaN.

Definition of_int (z : Z) : num := Fin (inject_Z z).

Definition nneg (x : num) : num :=
  match x with
  | Fin q => Fin (- q)%Q
  | PInf => NInf
  | NInf => PInf
  | NaN => NaN
  end.

(** An infinity scaled by a finite factor: the sign of the factor decides,
    and a zero factor gives NaN. *)
Definition scale_inf (q : Q) (pos : bool) : num :=
  match (q ?= 0)%Q with
  | Eq => NaN
  | Gt => if pos then PInf else NInf
  | Lt => if pos then NInf else PInf
  end.

Definition nmul (x y : num) : num :=
  match x, y with
  | NaN, _ | _, NaN => NaN
  | Fin a, Fin b => Fin (a * b)%Q
  | Fin a, PInf | PInf, Fin a => scale_inf a true
  | Fin a, NInf | NInf, Fin a => scale_inf a false
  | PInf, PInf | NInf, NInf => PInf
  | PInf, NInf | NInf, PInf => NInf
  end.

Definition nadd (x y : num) : num :=
  match x, y with
  | NaN, _ | _, NaN => NaN
  | Fin a, Fin b => Fin (a + b)%Q
  | PInf, NInf | NInf, PInf => NaN
  | PInf, _ | _, PInf => PInf
  | NInf, _ | _, NInf => NInf
  end.

Definition nsub (x y : num) : num := nadd x (nneg y).

(** [x > y] as numpy compares scalars: false as soon as one side is NaN. *)
Definition ngt (x y : num) : bool :=
  match x, y with
  | NaN, _ | _, NaN => false
  | Fin a, Fin b => negb (Qle_bool a b)
  | PInf, PInf => false
  | PInf, _ => true
  | _, PInf => false
  | NInf, _ => false
  | Fin _, NInf => true
  end.

Definition is_nan (x : num) : bool :=
  match x with NaN => true | _ => false end.

Definition finite (x : num) : Prop :=
  match x with Fin _ => True | _ => False end.

(** The value is a (numeric) zero. *)
Definition is_zero (x : num) : Prop :=
  match x with Fin q => (q == 0)%Q | _ => False end.

(** Same value, with NaN the same as NaN (as [np.array_equal] with
    [equal_nan=True]); used to describe events. *)
Definition num_same (x y : num) : bool :=
  match x, y with
  | Fin a, Fin b => Qeq_bool a b
  | PInf, PInf | NInf, NInf | NaN, NaN => true
  | _, _ => false
  end.

Fixpoint vec_same (u v : list num) : bool :=
  match u, v with
  | [], [] => true
  | x :: u', y :: v' => num_same x y && vec_same u' v'
  | _, _ => false
  end.

(** ** Arrays *)

Record ndarray (A : Type) : Type := mk_ndarray {
  shape : list nat;
  data : list A
}.
Arguments mk_ndarray {A} _ _.
Arguments shape {A} _.
Arguments data {A} _.

Definition size_of (sh : list nat) : nat := foldr Nat.mul 1 sh.

(** [np.zeros(shape)] *)
Definition np_zeros (sh : list nat) : ndarray num :=
  mk_ndarray sh (replicate (size_of sh) (Fin 0)).

(** ** Exceptions and results *)

Inductive exn : Type :=
| IndexError
| ValueError
| KeyError
| TypeError
| NotImplementedError.

Inductive result (A : Type) : Type :=
| Ok (a : A)
| Raised (e : exn).
Arguments Ok {A} _.
Arguments Raised {A} _.

(** ** Programs that draw from [np.random]

    One constructor per numpy call that the module uses; the continuation
    receives the value drawn. *)

Inductive prog (A : Type) : Type :=
| Ret (a : A)
| Raise (e : exn)
  (* np.random.choice(pop, p=p), a scalar *)
| Choice (pop : list Z) (p : list Q) (k : Z -> prog A)
  (* np.random.choice(pop, size=size, p=p), a one-axis array *)
| ChoiceN (pop : list Z) (size : nat) (p : list Q) (k : list Z -> prog A)
  (* np.random.randint(high), an integer of [0, high) *)
| Randint (high : nat) (k : nat -> prog A)
  (* np.random.uniform(lo, hi, size=size) *)
| Uniform (lo hi : Q) (size : nat) (k : list num -> prog A)
  (* np.random.multivariate_normal(mean, cov) *)
| MvNormal (mean : list num) (cov : ndarray num) (k : list num -> prog A)
  (* np.random.binomial(n, p, size=size) *)
| Binomial (n : nat) (p : Q) (size : nat) (k : list Z -> prog A).
Arguments Ret {A} _.
Arguments Raise {A} _.
Arguments Choice {A} _ _ _.
Arguments ChoiceN {A} _ _ _ _.
Arguments Randint {A} _ _.
Arguments Uniform {A} _ _ _ _.
Arguments MvNormal {A} _ _ _.
Arguments Binomial {A} _ _ _ _.

Fixpoint bind {A B : Type} (m : prog A) (f : A -> prog B) : prog B :=
  match m with
  | Ret a => f a
  | Raise e => Raise e
  | Choice pop p k => Choice pop p (fun x => bind (k x) f)
  | ChoiceN pop n p k => ChoiceN pop n p (fun x => bind (k x) f)
  | Randint h k => Randint h (fun x => bind (k x) f)
  | Uniform lo hi n k => Uniform lo hi n (fun x => bind (k x) f)
  | MvNormal mu cov k => MvNormal mu cov (fun x => bind (k x) f)
  | Binomial n p s k => Binomial n p s (fun x => bind (k x) f)
  end.

#[global] Instance prog_ret : MRet prog := @Ret.
#[global] Instance prog_bind : MBind prog := fun A B f m => bind m f.

(** The numpy calls as programs. *)
Definition np_random_choice (pop : list Z) (p : list Q) : prog Z :=
  Choice pop p Ret.
Definition np_random_choice_n (pop : list Z) (size : nat) (p : list Q)
  : prog (list Z) := ChoiceN pop size p Ret.
Definition np_random_randint (high : nat) : prog nat := Randint high Ret.
Definition np_random_uniform (lo hi : Q) (size : nat) : prog (list num) :=
  Uniform lo hi size Ret.
Definition np_random_multivariate_normal (mean : list num) (cov : ndarray num)
  : prog (list num) := MvNormal mean cov Ret.
Definition np_random_binomial (n : nat) (p : Q) (size : nat) : prog (list Z) :=
  Binomial n p size Ret.

(** *** What numpy checks before it draws *)

Definition Qsum (l : list Q) : Q := foldr Qplus 0%Q l.

(** [choice] rejects a weight vector of the wrong length, with a negative
    entry, or that does not sum to one. *)
Definition valid_p (pop : list Z) (p : list Q) : bool :=
  negb (length pop =? 0) && (length p =? length pop)
  && forallb (Qle_bool 0) p && Qeq_bool (Qsum p) 1.

(** The index [i] can be drawn under the weights [p]. *)
Definition in_support (p : list Q) (i : nat) : bool :=
  match p !! i with
  | Some w => negb (Qle_bool w 0)
  | None => false
  end.

(** [multivariate_normal] wants a square covariance of the size of the mean. *)
Definition valid_mvn (mean : list num) (cov : ndarray num) : bool :=
  match shape cov with
  | [r; c] => (r =? c) && (length mean =? r)
  | _ => false
  end.

Definition in_range (lo hi : Q) (x : num) : bool :=
  match x with
  | Fin q => Qle_bool lo q && negb (Qle_bool hi q)
  | _ => false
  end.

Definition is_finite (x : num) : bool :=
  match x with Fin _ => true | _ => false end.

(** *** Replaying a program against a tape of samples *)

Inductive sample : Type :=
| SIdx (i : list nat)     (* indices into the population, for choice *)
| SNat (n : nat)          (* randint *)
| SNums (xs : list num)   (* uniform, multivariate_normal *)
| SInts (ks : list nat).  (* binomial: numbers of successes *)

Definition tape : Type := list sample.

Definition pick (pop : list Z) (p : list Q) (i : nat) : option Z :=
  if in_support p i then pop !! i else None.

(** [None] means that the tape is not a sequence of values that the calls of
    the program can draw. *)
Fixpoint run {A : Type} (m : prog A) (t : tape) : option (result A * tape) :=
  match m with
  | Ret a => Some (Ok a, t)
  | Raise e => Some (Raised e, t)
  | Choice pop p k =>
      if valid_p pop p then
        match t with
        | SIdx [i] :: t' =>
            match pick pop p i with
            | Some x => run (k x) t'
            | None => None
            end
        | _ => None
        end
      else Some (Raised ValueError, t)
  | ChoiceN pop n p k =>
      if valid_p pop p then
        match t with
        | SIdx idx :: t' =>
            match mapM (pick pop p) idx with
            | Some xs => if length xs =? n then run (k xs) t' else None
            | None => None
            end
        | _ => None
        end
      else Some (Raised ValueError, t)
  | Randint h k =>
      if h =? 0 then Some (Raised ValueError, t)
      else
        match t with
        | SNat i :: t' => if i <? h then run (k i) t' else None
        | _ => None
        end
  | Uniform lo hi n k =>
      match t with
      | SNums xs :: t' =>
          if (length xs =? n) && forallb (in_range lo hi) xs
          then run (k xs) t' else None
      | _ => None
      end
  | MvNormal mu cov k =>
      if valid_mvn mu cov then
        match t with
        | SNums xs :: t' =>
            if (length xs =? length mu) && forallb is_finite xs
            then run (k xs) t' else None
        | _ => None
        end
      else Some (Raised ValueError, t)
  | Binomial n p s k =>
      if Qle_bool 0 p && Qle_bool p 1 then
        match t with
        | SInts ks :: t' =>
            if (length ks =? s) && forallb (fun j => j <=? n) ks
            then run (k (Z.of_nat <$> ks)) t' else None
        | _ => None
        end
      else Some (Raised ValueError, t)
  end.

(** *** Exact probabilities of programs that draw from finite distributions *)

Definition oplus (a b : option Q) : option Q :=
  match a, b with
  | Some x, Some y => Some (x + y)%Q
  | _, _ => None
  end.

Definition oscale (w : Q) (a : option Q) : option Q :=
  match a with
  | Some x => Some (w * x)%Q
  | None => None
  end.

Definition osum (l : list (option Q)) : option Q := foldr oplus (Some 0%Q) l.

(** The expectation of [f] under a finite distribution given as the list of
    its outcomes with their weights. *)
Definition expect {X : Type} (d : list (X * Q)) (f : X -> option Q) : option Q :=
  osum ((fun xw => oscale xw.2 (f xw.1)) <$> d).

Definition indicator (b : bool) : Q := if b then 1%Q else 0%Q.

(** [choice(pop, p=p)] returns [pop[i]] with probability [p[i]]. *)
Definition choice_dist (pop : list Z) (p : list Q) : list (Z * Q) := zip pop p.

(** With [size=n] the [n] entries are drawn independently. *)
Fixpoint choice_n_dist (pop : list Z) (p : list Q) (n : nat) : list (list Z * Q) :=
  match n with
  | O => [([], 1%Q)]
  | S n' =>
      xw ← choice_dist pop p;
      vw ← choice_n_dist pop p n';
      [(xw.1 :: vw.1, (xw.2 * vw.2)%Q)]
  end.

(** [randint(high)] is uniform on [0, high). *)
Definition randint_dist (high : nat) : list (nat * Q) :=
  (fun i => (i, (1 / inject_Z (Z.of_nat high))%Q)) <$> seq 0 high.

(** [pr m ev] is the probability that the result of [m] satisfies [ev];
    it is [None] when [m] draws from a continuous distribution. *)
Fixpoint pr {A : Type} (m : prog A) (ev : result A -> bool) : option Q :=
  match m with
  | Ret a => Some (indicator (ev (Ok a)))
  | Raise e => Some (indicator (ev (Raised e)))
  | Choice pop p k =>
      if valid_p pop p then expect (choice_dist pop p) (fun x => pr (k x) ev)
      else Some (indicator (ev (Raised ValueError)))
  | ChoiceN pop n p k =>
      if valid_p pop p then expect (choice_n_dist pop p n) (fun xs => pr (k xs) ev)
      else Some (indicator (ev (Raised ValueError)))
  | Randint h k =>
      if h =? 0 then Some (indicator (ev (Raised ValueError)))
      else expect (randint_dist h) (fun i => pr (k i) ev)
  | Uniform _ _ _ _ | MvNormal _ _ _ | Binomial _ _ _ _ => None
  end.

(** ** [pathology] *)

(** [beta[-1] = v] *)
Definition set_last (v : num) (beta : list num) : prog (list num) :=
  match beta with
  | [] => Raise IndexError
  | _ => Ret (<[length beta - 1 := v]> beta)
  end.

(** [beta[i] = v] for an index [0 <= i] *)
Definition set_item (i : nat) (v : num) (beta : list num) : prog (list num) :=
  if i <? length beta then Ret (<[i := v]> beta) else Raise IndexError.

(** [np.ones_like(beta)] *)
Definition np_ones_like (beta : list num) : list num :=
  (fun _ => Fin 1) <$> beta.

(** [v[k:] = x] and [v[:k] = x] *)
Definition fill_from (k : nat) (x : num) (v : list num) : list num :=
  take k v ++ ((fun _ => x) <$> drop k v).
Definition fill_to (k : nat) (x : num) (v : list num) : list num :=
  ((fun _ => x) <$> take k v) ++ drop k v.

(** [beta *= v] for two arrays of the same length *)
Definition imul (beta v : list num) : list num := zip_with nmul beta v.

Definition default_prob : list Q := [(1 # 2)%Q; (1 # 2)%Q].

Definition pathology (beta : list num) (kind : string) (prob : list Q)
  : prog (list num) :=
  if String.eqb kind "none" then
    Ret beta
  else if String.eqb kind "ANA" then
    mask ← np_random_choice_n [1%Z; 0%Z] (length beta) prob;
    Ret (imul beta (of_int <$> mask))
  else if String.eqb kind "screening" then
    set_last (of_int (-10000)) beta
  else if String.eqb kind "screening_inf" then
    set_last NInf beta
  else if String.eqb kind "screening_random" then
    c ← np_random_choice [1%Z; 0%Z] prob;
    if negb (c =? 0)%Z then
      i ← np_random_randint (length beta);
      set_item i (of_int (-10000)) beta
    else Ret beta
  else if String.eqb kind "ANA_systematic" then
    let pathology_vector := np_ones_like beta in
    let pathology_vector := fill_from (length beta / 2) (Fin 0) pathology_vector in
    Ret (imul beta pathology_vector)
  else if String.eqb kind "ANA_random" then
    c ← np_random_choice [1%Z; 0%Z] prob;
    if negb (c =? 0)%Z then
      let pathology_vector := np_ones_like beta in
      let pathology_vector := fill_to (length beta / 2) (Fin 0) pathology_vector in
      Ret (imul beta pathology_vector)
    else Ret beta
  else
    Ret beta.

(** ** Array operations used by the generator and the simulator *)

(** [for i in l: s = body(i, s)] *)
Fixpoint for_each {St : Type} (l : list nat) (body : nat -> St -> prog St)
    (s : St) : prog St :=
  match l with
  | [] => Ret s
  | i :: l' => s' ← body i s; for_each l' body s'
  end.

(** [for i in range(n)] *)
Definition for_range {St : Type} (n : nat) (body : nat -> St -> prog St)
    (s : St) : prog St := for_each (seq 0 n) body s.

(** [a[i, j]] on an array of at least two axes: the sub-array of the
    remaining axes. *)
Definition index2 (a : ndarray num) (i j : nat) : prog (ndarray num) :=
  match shape a with
  | r :: t :: rest =>
      if (i <? r) && (j <? t) then
        let n := size_of rest in
        Ret (mk_ndarray rest (take n (drop ((i * t + j) * n) (data a))))
      else Raise IndexError
  | _ => Raise IndexError
  end.

(** [a[i, j] += block], the block having the shape of [a[i, j]]. *)
Definition iadd_index2 (a : ndarray num) (i j : nat) (block : list num)
  : prog (ndarray num) :=
  match shape a with
  | r :: t :: rest =>
      if (i <? r) && (j <? t) then
        let n := size_of rest in
        if length block =? n then
          let off := (i * t + j) * n in
          Ret (mk_ndarray (shape a)
                 (take off (data a)
                    ++ zip_with nadd (take n (drop off (data a))) block
                    ++ drop (off + n) (data a)))
        else Raise ValueError
      else Raise IndexError
  | _ => Raise IndexError
  end.

(** [a[:, j] += v] on a two-axis array, [v] a scalar. *)
Definition iadd_column_scalar (a : ndarray num) (j : nat) (v : num)
  : prog (ndarray num) :=
  match shape a with
  | [r; c] =>
      if j <? c then
        Ret (mk_ndarray (shape a)
               (imap (fun idx x => if idx mod c =? j then nadd x v else x) (data a)))
      else Raise IndexError
  | _ => Raise IndexError
  end.

(** [a[:, j] += v] on a two-axis array, [v] a one-axis array of the length
    of the column, or of length one. *)
Definition iadd_column (a : ndarray num) (j : nat) (v : list num)
  : prog (ndarray num) :=
  match shape a with
  | [r; c] =>
      if j <? c then
        if length v =? r then
          Ret (mk_ndarray (shape a)
                 (imap (fun idx x =>
                          if idx mod c =? j then nadd x (default NaN (v !! (idx / c)))
                          else x) (data a)))
        else if length v =? 1 then
          Ret (mk_ndarray (shape a)
                 (imap (fun idx x =>
                          if idx mod c =? j then nadd x (default NaN (v !! 0))
                          else x) (data a)))
        else Raise ValueError
      else Raise IndexError
  | _ => Raise IndexError
  end.

(** [a.T] of a two-axis array. *)
Definition transpose (a : ndarray num) : ndarray num :=
  match shape a with
  | [r; c] =>
      mk_ndarray [c; r]
        (j ← seq 0 c; i ← seq 0 r; [default NaN (data a !! (i * c + j))])
  | _ => a
  end.

(** The sum of the products of two rows of the same length. *)
Definition inner (u v : list num) : num :=
  foldr nadd (Fin 0) (zip_with nmul u v).

(** [a.dot(v)] for a one-axis [v]: the last axis of [a] is summed against
    [v]; a scalar [a] scales [v]. *)
Definition np_dot (a : ndarray num) (v : list num) : prog (ndarray num) :=
  match reverse (shape a) with
  | [] => Ret (mk_ndarray [length v] (nmul (default NaN (data a !! 0)) <$> v))
  | l :: outer =>
      if l =? length v then
        let sh := reverse outer in
        Ret (mk_ndarray sh
               ((fun i => inner (take l (drop (i * l) (data a))) v)
                  <$> seq 0 (size_of sh)))
      else Raise ValueError
  end.

(** [a - v] for a one-axis [v], with numpy's broadcasting of the last axis. *)
Definition broadcast_sub (a : ndarray num) (v : list num) : prog (ndarray num) :=
  let c := length v in
  match reverse (shape a) with
  | [] =>
      Ret (mk_ndarray [c] ((fun y => nsub (default NaN (data a !! 0)) y) <$> v))
  | l :: outer =>
      if l =? c then
        Ret (mk_ndarray (shape a)
               (imap (fun idx x => nsub x (default NaN (v !! (idx mod c)))) (data a)))
      else if c =? 1 then
        Ret (mk_ndarray (shape a)
               ((fun x => nsub x (default NaN (v !! 0))) <$> data a))
      else if l =? 1 then
        Ret (mk_ndarray (reverse (c :: outer))
               (x ← data a; (fun y => nsub x y) <$> v))
      else Raise ValueError
  end.

(** The scan of [np.argmax]: the first maximum wins, and a NaN counts as
    the maximum. *)
Fixpoint argmax_from (best_i : nat) (best : num) (i : nat) (xs : list num) : nat :=
  match xs with
  | [] => best_i
  | x :: xs' =>
      if negb (is_nan best) && (is_nan x || ngt x best)
      then argmax_from i x (S i) xs'
      else argmax_from best_i best (S i) xs'
  end.

(** [np.argmax(a)], an index into the flattened array. *)
Definition np_argmax (a : ndarray num) : prog nat :=
  match data a with
  | [] => Raise ValueError
  | x :: xs => Ret (argmax_from 0 x 1 xs)
  end.

(** [a[i, j] += v] on a two-axis array. *)
Definition iadd_item2 (a : ndarray num) (i j : nat) (v : num)
  : prog (ndarray num) :=
  match shape a with
  | [r; c] =>
      if (i <? r) && (j <? c) then
        Ret (mk_ndarray (shape a)
               (alter (fun x => nadd x v) (i * c + j) (data a)))
      else Raise IndexError
  | _ => Raise IndexError
  end.

(** The cast of one scalar by [astype(int)]: truncation towards zero; a
    value that is not finite is cast to the least 64-bit integer. *)
Definition to_int (x : num) : Z :=
  match x with
  | Fin q => (Qnum q ÷ Zpos (Qden q))%Z
  | _ => (- 2 ^ 63)%Z
  end.

Definition astype_int (a : ndarray num) : ndarray Z :=
  mk_ndarray (shape a) (to_int <$> data a).

(** [np.diag(np.ones(n)) + .5 * np.ones((n, n))] *)
Definition make_Vbeta (n : nat) : ndarray num :=
  mk_ndarray [n; n]
    (i ← seq 0 n; j ← seq 0 n;
     [nadd (if i =? j then Fin 1 else Fin 0) (nmul (Fin (1 # 2)) (Fin 1))]).

(** ** The dataset bundle *)

Inductive pyval : Type :=
| VInt (n : nat)
| VArr (a : ndarray num)
| VIntArr (a : ndarray Z).

Definition loc : Type := nat.

(** [d[k]] read as an integer, and as an array. *)
Definition get_int (d : gmap string pyval) (k : string) : prog nat :=
  match d !! k with
  | Some (VInt n) => Ret n
  | Some _ => Raise TypeError
  | None => Raise KeyError
  end.

Definition get_arr (d : gmap string pyval) (k : string) : prog (ndarray num) :=
  match d !! k with
  | Some (VArr a) => Ret a
  | Some _ => Raise TypeError
  | None => Raise KeyError
  end.

(** ** [generate_simulated_design] *)

Definition generate_simulated_design (nresp nscns nalts nlvls ncovs : nat)
    (h : gmap loc (gmap string pyval)) : prog (loc * gmap loc (gmap string pyval)) :=
  let X := np_zeros [nresp; nscns; nalts; nlvls] in
  let Z := np_zeros [ncovs; nresp] in
  XZ ← for_range nresp (fun resp XZ =>
    let z_resp := Fin 1 in
    if 1 <? ncovs then Raise NotImplementedError
    else
      X ← for_range nscns (fun scn X =>
        X_scn ← np_random_choice_n [0%Z; 1%Z] (nalts * nlvls)
                  [(1 # 2)%Q; (1 # 2)%Q];
        iadd_index2 X resp scn (of_int <$> X_scn)) XZ.1;
      Z ← iadd_column_scalar XZ.2 resp z_resp;
      Ret (X, Z)) (X, Z);
  let data_dict : gmap string pyval :=
    <["X" := VArr XZ.1]> (<["Z" := VArr (transpose XZ.2)]> (<["A" := VInt nalts]>
    (<["R" := VInt nresp]> (<["C" := VInt ncovs]> (<["T" := VInt nscns]>
    (<["L" := VInt nlvls]> ∅)))))) in
  let l := fresh (dom h) in
  Ret (l, <[l := data_dict]> h).

(** ** [compute_beta_response] *)

(** [if pathology_type:] *)
Definition truthy (pathology_type : option string) : bool :=
  match pathology_type with
  | Some s => negb (String.eqb s "")
  | None => false
  end.

Section Simulator.

(** [np.log] on scalars; its values are not rational, so the function is
    left open. *)
Variable np_log : num -> num.

(** [- np.log(- np.log(u))] is subtracted, so this is the term after the
    minus sign. *)
Definition log_neg_log (u : list num) : list num :=
  (fun x => np_log (nneg (np_log x))) <$> u.

(** One turn of the loop over the scenarios (lines 122 to 125). *)
Definition scenario (d : gmap string pyval) (beta : list num) (resp scn : nat)
    (Y : ndarray num) : prog (ndarray num) :=
  X ← get_arr d "X";
  X_scn ← index2 X resp scn;
  XB ← np_dot X_scn beta;
  C ← get_int d "C";
  u ← np_random_uniform 0 1 C;
  U_scn ← broadcast_sub XB (log_neg_log u);
  choice ← np_argmax U_scn;
  iadd_item2 Y resp scn (of_int (Z.of_nat choice + 1)).

(** One turn of the loop over the respondents (lines 113 to 127). *)
Definition respondent (d : gmap string pyval) (pathology_type : option string)
    (Gamma : list num) (Vbeta : ndarray num) (resp : nat)
    (YB : ndarray num * ndarray num) : prog (ndarray num * ndarray num) :=
  let z_resp := Fin 1 in
  C ← get_int d "C";
  if 1 <? C then Raise NotImplementedError
  else
    beta ← np_random_multivariate_normal Gamma Vbeta;
    beta ← (if truthy pathology_type
            then pathology beta (default "" pathology_type) default_prob
            else Ret beta);
    T ← get_int d "T";
    Y ← for_range T (scenario d beta resp) YB.1;
    Beta ← iadd_column YB.2 resp beta;
    Ret (Y, Beta).

Definition compute_beta_response (data_dict : loc)
    (pathology_type : option string) (h : gmap loc (gmap string pyval))
  : prog (loc * gmap loc (gmap string pyval)) :=
  match h !! data_dict with
  | None => Raise TypeError
  | Some d =>
      C ← get_int d "C";
      L ← get_int d "L";
      Gamma ← np_random_uniform (-3) 4 (C * L);
      L ← get_int d "L";
      let Vbeta := make_Vbeta L in
      R ← get_int d "R";
      T ← get_int d "T";
      let Y := np_zeros [R; T] in
      L ← get_int d "L";
      R ← get_int d "R";
      let Beta := np_zeros [L; R] in
      R ← get_int d "R";
      YB ← for_range R (respondent d pathology_type Gamma Vbeta) (Y, Beta);
      let d := <["Beta" := VArr YB.2]> d in
      let d := <["Y" := VIntArr (astype_int YB.1)]> d in
      let d := <["Gamma" := VArr (mk_ndarray [length Gamma] Gamma)]> d in
      let d := <["Vbeta" := VArr Vbeta]> d in
      d ← (if bool_decide (pathology_type = Some "ANA") then
             T ← get_int d "T";
             w ← np_random_binomial 1 (1 # 2) T;
             Ret (<["w" := VIntArr (mk_ndarray [length w] w)]> d)
           else Ret d);
      Ret (data_dict, <[data_dict := d]> h)
  end.

End Simulator.

(** [generate_simulated_data]: the default design, then the responses. *)
Definition generate_simulated_data (np_log : num -> num)
    (pathology_type : option string) (h : gmap loc (gmap string pyval))
  : prog (loc * gmap loc (gmap string pyval)) :=
  r ← generate_simulated_design 100 10 4 12 1 h;
  compute_beta_response np_log r.1 pathology_type r.2.

(** ** Small bundles used to exercise the statements *)

(** One respondent, one scenario, two alternatives, one level, one
    covariate; the first alternative has the level, the second has not. *)
Definition small_design : gmap string pyval :=
  <["X" := VArr (mk_ndarray [1; 1; 2; 1] [Fin 1; Fin 0])]>
  (<["Z" := VArr (mk_ndarray [1; 1] [Fin 1])]> (<["A" := VInt 2]>
  (<["R" := VInt 1]> (<["C" := VInt 1]> (<["T" := VInt 1]>
  (<["L" := VInt 1]> ∅)))))).

Definition small_heap : gmap loc (gmap string pyval) := <[0 := small_design]> ∅.

(** The draws of one run on [small_design] with the kind ['ANA']: [Gamma],
    [beta], the mask of the pathology, the uniform value of the scenario,
    and [w]. *)
Definition small_tape : tape :=
  [SNums [Fin 2]; SNums [Fin (3 # 2)]; SIdx [0]; SNums [Fin (1 # 3)]; SInts [1]].

(** No respondent, two covariates: what [generate_simulated_design] returns
    for [nresp = 0], [nscns = 10], [nalts = 4], [nlvls = 12], [ncovs = 2]. *)
Definition empty_design : gmap string pyval :=
  <["X" := VArr (mk_ndarray [0; 10; 4; 12] [])]>
  (<["Z" := VArr (mk_ndarray [0; 2] [])]> (<["A" := VInt 4]>
  (<["R" := VInt 0]> (<["C" := VInt 2]> (<["T" := VInt 10]>
  (<["L" := VInt 12]> ∅)))))).

(** One respondent, two covariates: a bundle put together by hand. *)
Definition two_covariates_design : gmap string pyval :=
  <["X" := VArr (mk_ndarray [1; 1; 2; 1] [Fin 1; Fin 0])]>
  (<["Z" := VArr (mk_ndarray [1; 2] [Fin 1; Fin 1])]> (<["A" := VInt 2]>
  (<["R" := VInt 1]> (<["C" := VInt 2]> (<["T" := VInt 1]>
  (<["L" := VInt 1]> ∅)))))).

(** ** Vocabulary of the statements *)

Definition enumerated_kinds : list string :=
  ["none"; "ANA"; "screening"; "screening_inf"; "screening_random";
   "ANA_systematic"; "ANA_random"].

(** [out] is [beta] with its last component replaced by [v]. *)
Definition last_replaced (v : num) (beta out : list num) : Prop :=
  length out = length beta
  /\ out !! (length beta - 1) = Some v
  /\ forall i, i <> length beta - 1 -> out !! i = beta !! i.

(** Equality of probabilities, up to the representation of fractions. *)
Definition oeq (a b : option Q) : Prop :=
  match a, b with
  | Some x, Some y => (x == y)%Q
  | None, None => True
  | _, _ => False
  end.

(** The event that a vector other than [beta] is returned. *)
Definition returns_other (beta : list num) (r : result (list num)) : bool :=
  match r with
  | Ok v => negb (vec_same v beta)
  | Raised _ => false
  end.

(** The event that the component [i] of the vector returned satisfies [phi]. *)
Definition component_is (i : nat) (phi : num -> bool) (r : result (list num))
  : bool :=
  match r with
  | Ok out => match out !! i with Some y => phi y | None => false end
  | Raised _ => false
  end.

(** The four fields written after the loop. *)
Definition with_results (d : gmap string pyval) (Y Beta : ndarray num)
    (Gamma : list num) (Vbeta : ndarray num) : gmap string pyval :=
  <["Vbeta" := VArr Vbeta]>
    (<["Gamma" := VArr (mk_ndarray [length Gamma] Gamma)]>
       (<["Y" := VIntArr (astype_int Y)]> (<["Beta" := VArr Beta]> d))).

Definition design_fields : list string := ["X"; "Z"; "A"; "R"; "C"; "T"; "L"].
Definition result_fields : list string := ["Beta"; "Y"; "Gamma"; "Vbeta"].

(** [Y] after the first [n] cells (in row-major order) have been written:
    those cells hold a choice among the [A] alternatives, the others are
    still zero. *)
Definition filled (R T A n : nat) (Y : ndarray num) : Prop :=
  shape Y = [R; T]
  /\ length (data Y) = R * T
  /\ (forall i y, i < n -> data Y !! i = Some y ->
        (1 <= to_int y <= Z.of_nat A)%Z)
  /\ (forall i, n <= i -> i < R * T -> data Y !! i = Some (Fin 0)).

(** The feature row of the alternative [a] in the scenario [scn] of the
    respondent [resp], for a design of shape [[R, T, A, L]]. *)
Definition design_row (X : ndarray num) (T A L resp scn a : nat) : list num :=
  take L (drop (a * L)
            (take (A * L) (drop ((resp * T + scn) * (A * L)) (data X)))).

(** The utilities before the noise: one dot product per alternative. *)
Definition utilities (X : ndarray num) (T A L : nat) (beta : list num)
    (resp scn : nat) : list num :=
  (fun a => inner (design_row X T A L resp scn a) beta) <$> seq 0 A.

(** What the end of a turn does with the vector [U] of noisy utilities:
    [Y[resp, scn] += argmax(U) + 1]. *)
Definition record_choice (R T : nat) (Y : ndarray num) (resp scn : nat)
    (U : list num) (t : tape) : option (result (ndarray num) * tape) :=
  match U with
  | [] => Some (Raised ValueError, t)
  | x :: xs =>
      Some (Ok (mk_ndarray [R; T]
                  (alter (fun y => nadd y (of_int (Z.of_nat (argmax_from 0 x 1 xs) + 1)))
                     (resp * T + scn) (data Y))), t)
  end.

(** ** Vocabulary of the further properties *)

(** The kinds of [pathology] that draw from [np.random]. *)
Definition random_kinds : list string := ["ANA"; "screening_random"; "ANA_random"].

(** The kinds of [pathology] whose effect is the same on every call. *)
Definition fixed_kinds : list string :=
  ["none"; "screening"; "screening_inf"; "ANA_systematic"].

(** The scalar stored for the sampled index [i] of [choice([0, 1], ...)]. *)
Definition bit_of (i : nat) : num := of_int (Z.of_nat i).

(** A sample that [choice([0, 1], size=n, p=[.5, .5])] can draw: [n] indices
    into the two values. *)
Definition design_block (n : nat) (b : list nat) : Prop :=
  length b = n /\ Forall (fun i => i < 2) b.

(** [X] after the blocks of the first [m] (respondent, scenario) pairs have
    been written, [t0] being the tape at the start of the call. *)
Definition design_filled (R T A L : nat) (t0 : tape) (m : nat)
    (X : ndarray num) (t : tape) : Prop :=
  shape X = [R; T; A; L]
  /\ exists blocks,
       t0 = (SIdx <$> blocks) ++ t
       /\ length blocks = m
       /\ Forall (design_block (A * L)) blocks
       /\ data X = (bit_of <$> concat blocks)
                   ++ replicate ((R * T - m) * (A * L)) (Fin 0).

(** [Z] (still of shape [[C, R]]) after the columns of the first [r]
    respondents have been set. *)
Definition covariates_filled (C R r : nat) (Z : ndarray num) : Prop :=
  shape Z = [C; R]
  /\ length (data Z) = C * R
  /\ forall idx x, data Z !! idx = Some x ->
       x = if idx mod R <? r then Fin 1 else Fin 0.

(** The dict that the generator builds. *)
Definition design_bundle (X Z : ndarray num) (A R C T L : nat)
  : gmap string pyval :=
  <["X" := VArr X]> (<["Z" := VArr Z]> (<["A" := VInt A]>
  (<["R" := VInt R]> (<["C" := VInt C]> (<["T" := VInt T]>
  (<["L" := VInt L]> ∅)))))).

(** The loop over the respondents of [compute_beta_response], from the
    arrays of zeros. *)
Definition respondents_loop (np_log : num -> num) (d : gmap string pyval)
    (pathology_type : option string) (Gamma : list num) (R T L : nat)
  : prog (ndarray num * ndarray num) :=
  for_range R (respondent np_log d pathology_type Gamma (make_Vbeta L))
    (np_zeros [R; T], np_zeros [L; R]).


(** The vector of one respondent as [compute_beta_response] uses and stores
    it: a draw of [L] finite components, passed through [pathology] with the
    default weights when a kind is given. *)
Definition respondent_vector (pathology_type : option string) (L : nat)
    (b : list num) : Prop :=
  exists draw,
    length draw = L /\ Forall finite draw
    /\ if truthy pathology_type
       then exists t t',
              run (pathology draw (default "" pathology_type) default_prob) t
                = Some (Ok b, t')
       else b = draw.

(** [Beta] after the columns of the respondents [0 .. length bs - 1] have
    been written with the vectors [bs]; the other columns are still zero. *)
Definition columns_filled (L R : nat) (bs : list (list num))
    (Beta : ndarray num) : Prop :=
  shape Beta = [L; R]
  /\ length (data Beta) = L * R
  /\ forall l j, l < L -> j < R ->
       data Beta !! (l * R + j)
       = Some (match bs !! j with
               | Some b => default NaN (b !! l)
               | None => Fin 0
               end).

(** [np.argmax] of a one-axis array that is not empty. *)
Definition argmax (U : list num) : nat :=
  match U with
  | [] => 0
  | x :: xs => argmax_from 0 x 1 xs
  end.

(** The utilities of one scenario after the noise term computed from the
    uniform value [u] has been subtracted from each of them. *)
Definition noisy_utilities (np_log : num -> num) (X : ndarray num)
    (T A L : nat) (b : list num) (resp scn : nat) (u : num) : list num :=
  (fun x => nsub x (np_log (nneg (np_log u)))) <$> utilities X T A L b resp scn.

(** The response that is recorded for them: the alternative of the greatest
    noisy utility, counted from one. *)
Definition choice_of (np_log : num -> num) (X : ndarray num) (T A L : nat)
    (b : list num) (resp scn : nat) (u : num) : Z :=
  (Z.of_nat (argmax (noisy_utilities np_log X T A L b resp scn u)) + 1)%Z.

(** [Y] after the first [n] cells have been written, the respondents having
    the vectors [bs]: each of those cells holds the choice of its respondent
    under some uniform value; the other cells are still zero. *)
Definition responses_recorded (np_log : num -> num) (X : ndarray num)
    (R T A L : nat) (bs : list (list num)) (n : nat) (Y : ndarray num) : Prop :=
  shape Y = [R; T]
  /\ length (data Y) = R * T
  /\ (forall i, i < n ->
        exists b u,
          bs !! (i / T) = Some b /\ in_range 0 1 u = true
          /\ data Y !! i
             = Some (of_int (choice_of np_log X T A L b (i / T) (i mod T) u)))
  /\ (forall i, n <= i -> i < R * T -> data Y !! i = Some (Fin 0)).

(** The samples of one respondent when the kind does not draw: the vector,
    then one uniform value per scenario. *)
Definition respondent_sample (r : list num * list num) : tape :=
  SNums r.1 :: ((fun u => SNums [u]) <$> r.2).

(** Such samples are ones that numpy can draw for [L] levels and [T]
    scenarios. *)
Definition respondent_sample_ok (L T : nat) (r : list num * list num) : Prop :=
  length r.1 = L /\ Forall finite r.1
  /\ length r.2 = T /\ Forall (fun u => in_range 0 1 u = true) r.2.

(** The samples of one run of [generate_simulated_data] without pathology:
    every value drawn for the design is [0], [Gamma] and the vector of every
    respondent are zero, and every uniform value is [1/2]. *)
Definition default_tape : tape :=
  (SIdx <$> replicate (100 * 10) (replicate (4 * 12) 0))
  ++ SNums (replicate 12 (Fin 0))
     :: concat (respondent_sample
                  <$> replicate 100 (replicate 12 (Fin 0),
                                     replicate 10 (Fin (1 # 2))))
     ++ [].

(** ** [MidpointNormalize] *)

(** [x == y] and [x >= y] as numpy compares scalars: false as soon as one
    side is NaN. *)
Definition neqb (x y : num) : bool :=
  match x, y with
  | Fin a, Fin b => Qeq_bool a b
  | PInf, PInf | NInf, NInf => true
  | _, _ => false
  end.

Definition nge (x y : num) : bool := ngt x y || neqb x y.

(** [x / y]; a zero divisor counts as the positive zero. *)
Definition ndiv (x y : num) : num :=
  match x, y with
  | NaN, _ | _, NaN => NaN
  | Fin a, Fin b =>
      if Qeq_bool b 0 then
        match (a ?= 0)%Q with
        | Eq => NaN
        | Gt => PInf
        | Lt => NInf
        end
      else Fin (a / b)%Q
  | Fin _, (PInf | NInf) => Fin 0
  | PInf, Fin b => if Qle_bool 0 b then PInf else NInf
  | NInf, Fin b => if Qle_bool 0 b then NInf else PInf
  | (PInf | NInf), (PInf | NInf) => NaN
  end.

(** The scan that [np.interp] makes of an [xp] of at most four entries:
    [for (i = 1; i < len && key >= arr[i]; ++i);]. *)
Fixpoint linear_scan (key : num) (i : nat) (rest : list num) : nat :=
  match rest with
  | [] => i
  | a :: rest' => if nge key a then linear_scan key (S i) rest' else i
  end.

(** The index [j] with [arr[j] <= key < arr[j+1]]: [len] when the key is
    above the last entry, [-1] when it is below the first. *)
Definition binary_search_with_guess (key : num) (arr : list num) : Z :=
  if ngt key (default NaN (last arr)) then Z.of_nat (length arr)
  else if ngt (default NaN (head arr)) key then (-1)%Z
  else (Z.of_nat (linear_scan key 1 (tail arr)) - 1)%Z.

(** One value of [np.interp(value, xp, fp)], for [xp] and [fp] of the same
    length (at least two and at most four). *)
Definition interp_one (xp fp : list num) (x : num) : num :=
  let len := length xp in
  if is_nan x then x
  else
    let j := binary_search_with_guess x xp in
    if (j =? -1)%Z then default NaN (fp !! 0)
    else if (j =? Z.of_nat len)%Z then default NaN (fp !! (len - 1))
    else if (j =? Z.of_nat len - 1)%Z then default NaN (fp !! Z.to_nat j)
    else if neqb (default NaN (xp !! Z.to_nat j)) x
    then default NaN (fp !! Z.to_nat j)
    else
      let j := Z.to_nat j in
      let slope :=
        ndiv (nsub (default NaN (fp !! S j)) (default NaN (fp !! j)))
             (nsub (default NaN (xp !! S j)) (default NaN (xp !! j))) in
      let r := nadd (nmul slope (nsub x (default NaN (xp !! j))))
                    (default NaN (fp !! j)) in
      if is_nan r then
        let r' := nadd (nmul slope (nsub x (default NaN (xp !! S j))))
                       (default NaN (fp !! S j)) in
        if is_nan r' && neqb (default NaN (fp !! j)) (default NaN (fp !! S j))
        then default NaN (fp !! j)
        else r'
      else r.

Definition np_interp (value xp fp : list num) : list num :=
  interp_one xp fp <$> value.

(** The fields that [__init__] stores. *)
Record MidpointNormalize : Type := mk_MidpointNormalize {
  vmin : num;
  vmax : num;
  midpoint : num
}.

(** [__call__]: the masked array as the list of its entries, each with its
    mask. *)
Definition MidpointNormalize_call (self : MidpointNormalize)
    (value : list num) : list (num * bool) :=
  let x := [vmin self; midpoint self; vmax self] in
  let y := [Fin 0; Fin (1 # 2); Fin 1] in
  zip (np_interp value x y) (is_nan <$> value).

(** The ramp through [(a, 0)], [(m, 1/2)] and [(b, 1)]. *)
Definition ramp (a m b q : Q) : Q :=
  if Qle_bool q a then 0%Q
  else if Qle_bool b q then 1%Q
  else if Qle_bool q m then ((q - a) / (2 * (m - a)))%Q
  else ((1 # 2) + (q - m) / (2 * (b - m)))%Q.

(** Two replays on the same tape that end alike: both refuse the tape, both
    raise the same exception, or both return, with results related by [P];
    in each case with the same samples left. *)
Definition same_run {A B : Type} (P : A -> B -> Prop)
    (o1 : option (result A * tape)) (o2 : option (result B * tape)) : Prop :=
  match o1 with
  | None => o2 = None
  | Some (Raised e, t') => o2 = Some (Raised e, t')
  | Some (Ok a, t') => exists b, o2 = Some (Ok b, t') /\ P a b
  end.

(** A second bundle with another [Z], no [A], and a stale [w]. *)
Definition small_design_other : gmap string pyval :=
  <["w" := VInt 7]> (<["Z" := VInt 3]> (delete "A" small_design)).

(** ** The outline of the bands of [plot_ppc] *)

(** [bins = [b - 0.5 for b in range(B + 1)]] *)
Definition ppc_bins (B : nat) : list num :=
  (fun b => nsub (of_int (Z.of_nat b)) (Fin (1 # 2))) <$> seq 0 (B + 1).

(** [idxs = [idx for idx in range(B) for r in range(2)]] *)
Definition ppc_idxs (B : nat) : list nat :=
  idx ← seq 0 B; r ← seq 0 2; [idx].

(** [xs = [idx + delta for idx in range(B) for delta in [-0.5, 0.5]]] *)
Definition ppc_xs (B : nat) : list num :=
  idx ← seq 0 B; delta ← [Fin (- (1 # 2)); Fin (1 # 2)];
  [nadd (of_int (Z.of_nat idx)) delta].

(** [pad_creds = [creds[idx] for idx in idxs]]; [None] stands for the
    IndexError of an index that [creds] does not have. *)
Definition ppc_pad_creds {A : Type} (creds : list A) (idxs : list nat)
  : option (list A) := mapM (fun idx => creds !! idx) idxs.

(** * Properties *)

(** ** Scalars *)

Lemma Qmult_1_r_eq (q : Q) : (q * 1)%Q = q.
Proof.
  destruct q as [n d]. unfold Qmult. simpl.
  rewrite Z.mul_1_r, Pos.mul_1_r. reflexivity.
Qed.

Lemma nmul_1_r (x : num) : nmul x (Fin 1) = x.
Proof. destruct x; simpl; try reflexivity. by rewrite Qmult_1_r_eq. Qed.

Lemma nmul_0_r (x : num) : finite x -> is_zero (nmul x (Fin 0)).
Proof. destruct x; simpl; try tauto. intros _. apply Qmult_0_r. Qed.

(** ** Element-wise products with a mask *)

Lemma length_imul (beta v : list num) :
  length v = length beta -> length (imul beta v) = length beta.
Proof. intros H. unfold imul. rewrite length_zip_with. lia. Qed.

Lemma imul_fill_from (beta : list num) (k : nat) (z : num) :
  imul beta (fill_from k z (np_ones_like beta))
  = take k beta ++ ((fun b => nmul b z) <$> drop k beta).
Proof.
  unfold imul, fill_from, np_ones_like.
  revert k. induction beta as [|b beta IH]; intros [|k]; csimpl; try done.
  - f_equal. specialize (IH 0). rewrite !take_0, !drop_0 in IH. csimpl in IH.
    exact IH.
  - by rewrite nmul_1_r, IH.
Qed.

Lemma imul_fill_to (beta : list num) (k : nat) (z : num) :
  imul beta (fill_to k z (np_ones_like beta))
  = ((fun b => nmul b z) <$> take k beta) ++ drop k beta.
Proof.
  unfold imul, fill_to, np_ones_like.
  revert k. induction beta as [|b beta IH]; intros [|k]; csimpl; try done.
  - rewrite nmul_1_r. f_equal. specialize (IH 0).
    rewrite !take_0, !drop_0 in IH. csimpl in IH. exact IH.
  - by rewrite IH.
Qed.

Lemma Forall_zero_scaled (l : list num) :
  Forall finite l -> Forall is_zero ((fun b => nmul b (Fin 0)) <$> l).
Proof.
  intros H. apply Forall_fmap. eapply Forall_impl; [exact H|].
  intros x Hx. by apply nmul_0_r.
Qed.

(** ** The kinds of [pathology] *)

Lemma pathology_none (beta : list num) (prob : list Q) :
  pathology beta "none" prob = Ret beta.
Proof. reflexivity. Qed.

Lemma pathology_unknown (beta : list num) (kind : string) (prob : list Q) :
  kind ∉ enumerated_kinds -> pathology beta kind prob = Ret beta.
Proof.
  intros H. unfold pathology.
  repeat match goal with
  | |- context [String.eqb kind ?s] =>
      destruct (String.eqb_spec kind s) as [->|_];
      [exfalso; apply H; unfold enumerated_kinds; set_solver|]
  end.
  reflexivity.
Qed.

(** C8. [pathology] is the identity on [beta] for the kind ['none'] and for
    every kind outside the enumerated ones: the program is the plain return
    of [beta], so that it draws nothing, raises nothing, and every replay
    gives back [beta] with the tape untouched. *)
Theorem pathology_identity_none_and_unknown (beta : list num) (kind : string)
    (prob : list Q) :
  kind = "none" \/ kind ∉ enumerated_kinds ->
  pathology beta kind prob = Ret beta
  /\ forall t, run (pathology beta kind prob) t = Some (Ok beta, t).
Proof.
  intros H.
  assert (E : pathology beta kind prob = Ret beta).
  { destruct H as [->|H]; [apply pathology_none | by apply pathology_unknown]. }
  split; [exact E|]. intros t. by rewrite E.
Qed.

Lemma pathology_identity_none_and_unknown_witness :
  (pathology [Fin 1; NInf] "none" default_prob = Ret [Fin 1; NInf]
   /\ forall t, run (pathology [Fin 1; NInf] "none" default_prob) t
                = Some (Ok [Fin 1; NInf], t))
  /\ (pathology [Fin 1; NInf] "screening_soft" default_prob = Ret [Fin 1; NInf]
      /\ forall t, run (pathology [Fin 1; NInf] "screening_soft" default_prob) t
                   = Some (Ok [Fin 1; NInf], t)).
Proof.
  split.
  - apply (pathology_identity_none_and_unknown [Fin 1; NInf] "none" default_prob).
    left. reflexivity.
  - apply (pathology_identity_none_and_unknown [Fin 1; NInf] "screening_soft"
             default_prob).
    right. unfold enumerated_kinds. intros H.
    repeat (apply elem_of_cons in H as [H|H]; [discriminate H|]).
    by apply elem_of_nil in H.
Defined.

(** ** Screening on the last component *)

Lemma set_last_spec (v : num) (beta : list num) :
  beta <> [] ->
  exists out, set_last v beta = Ret out /\ last_replaced v beta out.
Proof.
  intros Hne. exists (<[length beta - 1 := v]> beta). split.
  - destruct beta; [done|reflexivity].
  - unfold last_replaced. split; [by rewrite length_insert|]. split.
    + apply list_lookup_insert_eq. destruct beta; [done|simpl; lia].
    + intros i Hi. by apply list_lookup_insert_ne.
Qed.

(** C5, on the empty vector: [beta[-1]] has nothing to assign to, and both
    screening kinds raise [IndexError] instead of returning a vector. *)
Lemma screening_empty_raises :
  pathology [] "screening" default_prob = Raise IndexError
  /\ pathology [] "screening_inf" default_prob = Raise IndexError
  /\ run (pathology [] "screening" default_prob) [] = Some (Raised IndexError, []).
Proof. repeat split. Qed.

(** C5, amended. For every vector [beta] that is not empty,
    [pathology(beta, 'screening')] returns [beta] with exactly its last
    component set to -10000, and [pathology(beta, 'screening_inf')] returns
    [beta] with exactly its last component set to negative infinity; every
    other component is the one of the input, and nothing is drawn. *)
Theorem pathology_screening_last (beta : list num) (prob : list Q) :
  beta <> [] ->
  (exists out, pathology beta "screening" prob = Ret out
               /\ last_replaced (of_int (-10000)) beta out)
  /\ (exists out, pathology beta "screening_inf" prob = Ret out
                  /\ last_replaced NInf beta out).
Proof.
  intros Hne. split; unfold pathology; simpl; by apply set_last_spec.
Qed.

Lemma pathology_screening_last_witness :
  (exists out, pathology [Fin 3; Fin 4; Fin 5] "screening" default_prob = Ret out
               /\ last_replaced (of_int (-10000)) [Fin 3; Fin 4; Fin 5] out)
  /\ (exists out, pathology [Fin 3; Fin 4; Fin 5] "screening_inf" default_prob = Ret out
                  /\ last_replaced NInf [Fin 3; Fin 4; Fin 5] out).
Proof.
  apply (pathology_screening_last [Fin 3; Fin 4; Fin 5] default_prob).
  discriminate.
Defined.

(** ** Systematic non-attendance *)

(** C6, on a component that is not finite: infinity times the zero of the
    mask is NaN, so the second half is not zeroed. *)
Lemma ANA_systematic_infinite_not_zeroed :
  pathology [Fin 1; PInf] "ANA_systematic" default_prob = Ret [Fin 1; NaN]
  /\ ~ is_zero NaN.
Proof. split; [reflexivity | intros []]. Qed.

(** C6, amended. For every vector [beta] of length [L] whose components
    [L/2 .. L-1] are finite, [pathology(beta, 'ANA_systematic')] draws
    nothing and returns a vector of length [L] whose components
    [0 .. L/2-1] are those of [beta] and whose components [L/2 .. L-1] are
    zero; for [L = 12] the first six are kept and the last six are zero. *)
Theorem pathology_ANA_systematic (beta : list num) (prob : list Q) :
  Forall finite (drop (length beta / 2) beta) ->
  exists out,
    pathology beta "ANA_systematic" prob = Ret out
    /\ length out = length beta
    /\ take (length beta / 2) out = take (length beta / 2) beta
    /\ Forall is_zero (drop (length beta / 2) out)
    /\ (length beta = 12 ->
        take 6 out = take 6 beta /\ Forall is_zero (drop 6 out)).
Proof.
  intros Hfin.
  set (k := length beta / 2) in *.
  assert (Hk : k <= length beta) by (apply Nat.Div0.div_le_upper_bound; lia).
  exists (take k beta ++ ((fun b => nmul b (Fin 0)) <$> drop k beta)).
  assert (Htake : take k (take k beta ++ ((fun b => nmul b (Fin 0)) <$> drop k beta))
                  = take k beta).
  { rewrite take_app_le by (rewrite length_take; lia).
    rewrite take_take. f_equal. lia. }
  assert (Hdrop : drop k (take k beta ++ ((fun b => nmul b (Fin 0)) <$> drop k beta))
                  = (fun b => nmul b (Fin 0)) <$> drop k beta).
  { rewrite drop_app_length'; [done|]. rewrite length_take. lia. }
  split; [|split; [|split; [|split]]].
  - unfold pathology. simpl. fold k. by rewrite imul_fill_from.
  - rewrite length_app, length_fmap, length_take, length_drop. lia.
  - exact Htake.
  - rewrite Hdrop. by apply Forall_zero_scaled.
  - intros H12. assert (k = 6) as Hk6 by (unfold k; rewrite H12; reflexivity).
    rewrite Hk6 in *. split; [exact Htake|].
    rewrite Hdrop. by apply Forall_zero_scaled.
Qed.

Lemma pathology_ANA_systematic_witness :
  exists out,
    pathology (of_int <$> [1; 2; 3; 4; 5; 6; 7; 8; 9; 10; 11; 12]%Z)
      "ANA_systematic" default_prob = Ret out
    /\ length out = 12
    /\ take 6 out = of_int <$> [1; 2; 3; 4; 5; 6]%Z
    /\ Forall is_zero (drop 6 out)
    /\ (12 = 12 ->
        take 6 out = of_int <$> [1; 2; 3; 4; 5; 6]%Z
        /\ Forall is_zero (drop 6 out)).
Proof.
  refine (pathology_ANA_systematic
            (of_int <$> [1; 2; 3; 4; 5; 6; 7; 8; 9; 10; 11; 12]%Z) default_prob _).
  simpl. repeat constructor.
Defined.

(** ** Replaying programs *)

Lemma run_bind {A B : Type} (m : prog A) (f : A -> prog B) (t : tape) :
  run (bind m f) t =
  match run m t with
  | Some (Ok a, t') => run (f a) t'
  | Some (Raised e, t') => Some (Raised e, t')
  | None => None
  end.
Proof.
  revert t. induction m as [a|e|pop p k IH|pop n p k IH|h k IH|lo hi n k IH
                            |mu cov k IH|n p s k IH]; intros t; simpl.
  - by destruct (run (f a) t) as [[[]]|].
  - done.
  - destruct (valid_p pop p); [|done].
    destruct t as [|[[|i [|]]| | |] t']; try done.
    destruct (pick pop p i); [apply IH|done].
  - destruct (valid_p pop p); [|done].
    destruct t as [|[idx| | |] t']; try done.
    destruct (mapM (pick pop p) idx); [|done].
    destruct (length l =? n); [apply IH|done].
  - destruct (h =? 0); [done|].
    destruct t as [|[|i| |] t']; try done.
    destruct (i <? h); [apply IH|done].
  - destruct t as [|[| |xs|] t']; try done.
    destruct ((length xs =? n) && forallb (in_range lo hi) xs); [apply IH|done].
  - destruct (valid_mvn mu cov); [|done].
    destruct t as [|[| |xs|] t']; try done.
    destruct ((length xs =? length mu) && forallb is_finite xs); [apply IH|done].
  - destruct (Qle_bool 0 p && Qle_bool p 1); [|done].
    destruct t as [|[| | |ks] t']; try done.
    destruct ((length ks =? s) && forallb (fun j => j <=? n) ks); [apply IH|done].
Qed.

(** ** Non-attendance with a drawn mask *)

Lemma pick_keep (i : nat) (x : Z) :
  pick [1%Z; 0%Z] [1%Q; 0%Q] i = Some x -> x = 1%Z /\ i = 0.
Proof. destruct i as [|[|i]]; vm_compute; intros H; by inversion H. Qed.

Lemma pick_drop (i : nat) (x : Z) :
  pick [1%Z; 0%Z] [0%Q; 1%Q] i = Some x -> x = 0%Z /\ i = 1.
Proof. destruct i as [|[|i]]; vm_compute; intros H; by inversion H. Qed.

Lemma mapM_pick_const (pop : list Z) (p : list Q) (c : Z) (idx : list nat)
    (xs : list Z) :
  (forall i x, pick pop p i = Some x -> x = c) ->
  mapM (pick pop p) idx = Some xs -> xs = replicate (length idx) c.
Proof.
  intros Hc H. apply mapM_Some_1 in H.
  induction H as [|i x idx xs Hix _ IH]; simpl; [done|].
  by rewrite (Hc _ _ Hix), IH.
Qed.

Lemma imul_replicate (beta : list num) (z : Z) :
  imul beta (of_int <$> replicate (length beta) z)
  = (fun b => nmul b (of_int z)) <$> beta.
Proof.
  unfold imul. induction beta as [|b beta IH]; csimpl; [done|]. by rewrite IH.
Qed.

Lemma fmap_nmul_1 (beta : list num) :
  (fun b => nmul b (of_int 1)) <$> beta = beta.
Proof.
  induction beta as [|b beta IH]; csimpl; [done|].
  rewrite IH. f_equal. apply nmul_1_r.
Qed.

(** What a replay of the ['ANA'] kind does with the sampled indices. *)
Lemma run_ANA (beta : list num) (prob : list Q) (t : tape)
    (r : result (list num)) (t' : tape) :
  valid_p [1%Z; 0%Z] prob = true ->
  run (pathology beta "ANA" prob) t = Some (r, t') ->
  exists idx xs,
    t = SIdx idx :: t'
    /\ mapM (pick [1%Z; 0%Z] prob) idx = Some xs
    /\ length idx = length beta
    /\ r = Ok (imul beta (of_int <$> xs)).
Proof.
  intros Hv H. unfold pathology in H. simpl in H. rewrite Hv in H.
  destruct t as [|[idx| | |] t0]; try done.
  destruct (mapM (pick [1%Z; 0%Z] prob) idx) as [xs|] eqn:E; [|done].
  destruct (length xs =? length beta) eqn:El; [|done].
  simpl in H. inversion H; subst. exists idx, xs. repeat split; try done.
  apply Nat.eqb_eq in El. apply length_mapM in E. lia.
Qed.

(** ** Probabilities of programs *)

Lemma oeq_refl (a : option Q) : oeq a a.
Proof. destruct a; simpl; [reflexivity|done]. Qed.

Lemma oeq_trans (a b c : option Q) : oeq a b -> oeq b c -> oeq a c.
Proof.
  destruct a, b, c; simpl; try done. intros H1 H2. by rewrite H1.
Qed.

Lemma oplus_oeq (a a' b b' : option Q) :
  oeq a a' -> oeq b b' -> oeq (oplus a b) (oplus a' b').
Proof.
  destruct a, a', b, b'; simpl; try done. intros H1 H2. by rewrite H1, H2.
Qed.

Lemma oscale_oeq (w : Q) (a a' : option Q) :
  oeq a a' -> oeq (oscale w a) (oscale w a').
Proof. destruct a, a'; simpl; try done. intros H. by rewrite H. Qed.

Lemma expect_cons {X : Type} (x : X) (w : Q) (d : list (X * Q))
    (f : X -> option Q) :
  expect ((x, w) :: d) f = oplus (oscale w (f x)) (expect d f).
Proof. reflexivity. Qed.

Lemma expect_nil {X : Type} (f : X -> option Q) : expect [] f = Some 0%Q.
Proof. reflexivity. Qed.

Lemma expect_total {X : Type} (d : list (X * Q)) (f : X -> option Q) :
  (forall x, is_Some (f x)) -> is_Some (expect d f).
Proof.
  intros Hf. induction d as [|[x w] d [q Hq]]; [by eexists|].
  rewrite expect_cons, Hq. destruct (Hf x) as [y ->]. by eexists.
Qed.

Lemma expect_app {X : Type} (d1 d2 : list (X * Q)) (f : X -> option Q) :
  oeq (expect (d1 ++ d2) f) (oplus (expect d1 f) (expect d2 f)).
Proof.
  induction d1 as [|[x w] d1 IH].
  - rewrite app_nil_l, expect_nil. destruct (expect d2 f) as [q|]; simpl; [|done].
    by rewrite Qplus_0_l.
  - rewrite <- app_comm_cons, !expect_cons.
    eapply oeq_trans; [apply oplus_oeq; [apply oeq_refl | apply IH]|].
    destruct (oscale w (f x)), (expect d1 f), (expect d2 f); simpl; try done.
    by rewrite Qplus_assoc.
Qed.

(** Prefixing every outcome with [x] and scaling every weight by [w]. *)
Lemma expect_prefixed (x : Z) (w : Q) (d : list (list Z * Q))
    (f : list Z -> option Q) :
  oeq (expect ((fun vw => (x :: vw.1, (w * vw.2)%Q)) <$> d) f)
      (oscale w (expect d (fun v => f (x :: v)))).
Proof.
  induction d as [|[v u] d IH].
  - rewrite fmap_nil, !expect_nil. simpl. by rewrite Qmult_0_r.
  - rewrite fmap_cons, !expect_cons. cbn [fst snd].
    eapply oeq_trans; [apply oplus_oeq; [apply oeq_refl | apply IH]|].
    destruct (f (x :: v)), (expect d (fun v => f (x :: v))); simpl; try done.
    ring.
Qed.

Lemma choice_n_dist_two (x y : Z) (a b : Q) (n : nat) :
  choice_n_dist [x; y] [a; b] (S n)
  = ((fun vw => (x :: vw.1, (a * vw.2)%Q)) <$> choice_n_dist [x; y] [a; b] n)
    ++ ((fun vw => (y :: vw.1, (b * vw.2)%Q)) <$> choice_n_dist [x; y] [a; b] n).
Proof.
  simpl. rewrite app_nil_r. reflexivity.
Qed.

(** The law of a vector drawn from two values, for any weights. *)
Lemma expect_choice_n_step (x y : Z) (a b : Q) (n : nat)
    (f : list Z -> option Q) :
  oeq (expect (choice_n_dist [x; y] [a; b] (S n)) f)
      (oplus (oscale a (expect (choice_n_dist [x; y] [a; b] n) (fun v => f (x :: v))))
             (oscale b (expect (choice_n_dist [x; y] [a; b] n) (fun v => f (y :: v))))).
Proof.
  rewrite choice_n_dist_two.
  eapply oeq_trans; [apply expect_app|].
  apply oplus_oeq; apply expect_prefixed.
Qed.

(** With the weights [1, 0] the vector is the first value everywhere. *)
Lemma expect_choice_n_first (x y : Z) (n : nat) (f : list Z -> option Q) :
  (forall v, is_Some (f v)) ->
  oeq (expect (choice_n_dist [x; y] [1%Q; 0%Q] n) f) (f (replicate n x)).
Proof.
  revert f. induction n as [|n IH]; intros f Hf.
  - simpl. rewrite expect_cons, expect_nil. destruct (Hf []) as [q ->]. simpl. ring.
  - eapply oeq_trans; [apply expect_choice_n_step|].
    specialize (IH (fun v => f (x :: v)) (fun v => Hf (x :: v))).
    destruct (expect_total (choice_n_dist [x; y] [1%Q; 0%Q] n)
                (fun v => f (y :: v)) (fun v => Hf (y :: v))) as [q2 ->].
    simpl replicate.
    destruct (expect (choice_n_dist [x; y] [1%Q; 0%Q] n) (fun v => f (x :: v)))
      as [q1|], (f (x :: replicate n x)) as [q|]; simpl in *; try done.
    rewrite IH. ring.
Qed.

(** With the weights [0, 1] the vector is the second value everywhere. *)
Lemma expect_choice_n_second (x y : Z) (n : nat) (f : list Z -> option Q) :
  (forall v, is_Some (f v)) ->
  oeq (expect (choice_n_dist [x; y] [0%Q; 1%Q] n) f) (f (replicate n y)).
Proof.
  revert f. induction n as [|n IH]; intros f Hf.
  - simpl. rewrite expect_cons, expect_nil. destruct (Hf []) as [q ->]. simpl. ring.
  - eapply oeq_trans; [apply expect_choice_n_step|].
    specialize (IH (fun v => f (y :: v)) (fun v => Hf (y :: v))).
    destruct (expect_total (choice_n_dist [x; y] [0%Q; 1%Q] n)
                (fun v => f (x :: v)) (fun v => Hf (x :: v))) as [q2 ->].
    simpl replicate.
    destruct (expect (choice_n_dist [x; y] [0%Q; 1%Q] n) (fun v => f (y :: v)))
      as [q1|], (f (y :: replicate n y)) as [q|]; simpl in *; try done.
    rewrite IH. ring.
Qed.

Lemma pr_ANA (beta : list num) (prob : list Q)
    (ev : result (list num) -> bool) :
  valid_p [1%Z; 0%Z] prob = true ->
  pr (pathology beta "ANA" prob) ev
  = expect (choice_n_dist [1%Z; 0%Z] prob (length beta))
      (fun mask => Some (indicator (ev (Ok (imul beta (of_int <$> mask)))))).
Proof. intros Hv. unfold pathology. simpl. by rewrite Hv. Qed.

Lemma valid_p_two (p0 p1 : Q) :
  (0 <= p0)%Q -> (0 <= p1)%Q -> (p0 + p1 == 1)%Q ->
  valid_p [1%Z; 0%Z] [p0; p1] = true.
Proof.
  intros H0 H1 Hs. unfold valid_p. simpl.
  apply Qle_bool_iff in H0, H1. rewrite H0, H1. simpl.
  apply Qeq_bool_iff. rewrite Qplus_0_r. exact Hs.
Qed.

Lemma expect_ext {X : Type} (d : list (X * Q)) (f f' : X -> option Q) :
  (forall x, f x = f' x) -> expect d f = expect d f'.
Proof.
  intros Hf. induction d as [|[x w] d IH]; [done|].
  by rewrite !expect_cons, Hf, IH.
Qed.

Lemma oeq_Some_l (a : option Q) (c : Q) :
  oeq a (Some c) -> exists q, a = Some q /\ (q == c)%Q.
Proof. destruct a as [q|]; [|done]. intros H. by exists q. Qed.

(** The weights of a vector drawn from two values sum to one. *)
Lemma expect_choice_n_const (x y : Z) (p0 p1 : Q) (n : nat) (c : Q) :
  (p0 + p1 == 1)%Q ->
  oeq (expect (choice_n_dist [x; y] [p0; p1] n) (fun _ => Some c)) (Some c).
Proof.
  intros Hs. induction n as [|n IH].
  - cbn [choice_n_dist]. rewrite expect_cons, expect_nil. simpl. ring.
  - eapply oeq_trans; [apply expect_choice_n_step|].
    apply oeq_Some_l in IH as (q & -> & Hq). simpl. rewrite Hq.
    transitivity ((p0 + p1) * c)%Q; [ring|]. rewrite Hs. ring.
Qed.

(** The entry [i] of the vector is the first value with probability [p0]
    and the second with probability [p1]. *)
Lemma expect_choice_n_marginal (x y : Z) (p0 p1 : Q) (n i : nat)
    (g : option Z -> Q) :
  (p0 + p1 == 1)%Q -> i < n ->
  oeq (expect (choice_n_dist [x; y] [p0; p1] n) (fun v => Some (g (v !! i))))
      (Some (p0 * g (Some x) + p1 * g (Some y))%Q).
Proof.
  intros Hs. revert i. induction n as [|n IH]; intros i Hi; [lia|].
  eapply oeq_trans; [apply expect_choice_n_step|].
  destruct i as [|i].
  - change (fun v : list Z => Some (g ((x :: v) !! 0)))
      with (fun _ : list Z => Some (g (Some x))).
    change (fun v : list Z => Some (g ((y :: v) !! 0)))
      with (fun _ : list Z => Some (g (Some y))).
    pose proof (expect_choice_n_const x y p0 p1 n (g (Some x)) Hs) as H1.
    pose proof (expect_choice_n_const x y p0 p1 n (g (Some y)) Hs) as H2.
    apply oeq_Some_l in H1 as (q1 & -> & Hq1).
    apply oeq_Some_l in H2 as (q2 & -> & Hq2).
    simpl. by rewrite Hq1, Hq2.
  - change (fun v : list Z => Some (g ((x :: v) !! S i)))
      with (fun v : list Z => Some (g (v !! i))).
    change (fun v : list Z => Some (g ((y :: v) !! S i)))
      with (fun v : list Z => Some (g (v !! i))).
    specialize (IH i ltac:(lia)).
    apply oeq_Some_l in IH as (q & -> & Hq). simpl. rewrite Hq.
    transitivity ((p0 + p1) * (p0 * g (Some x) + p1 * g (Some y)))%Q; [ring|].
    rewrite Hs. ring.
Qed.

Lemma pr_ANA_component (beta : list num) (p0 p1 : Q) (i : nat) (b : num)
    (phi : num -> bool) :
  (0 <= p0)%Q -> (0 <= p1)%Q -> (p0 + p1 == 1)%Q ->
  beta !! i = Some b ->
  oeq (pr (pathology beta "ANA" [p0; p1]) (component_is i phi))
      (Some (p0 * indicator (phi b) + p1 * indicator (phi (nmul b (Fin 0))))%Q).
Proof.
  intros H0 H1 Hs Hb. rewrite pr_ANA by by apply valid_p_two.
  set (g := fun o : option Z =>
              match o with
              | Some m => indicator (phi (nmul b (of_int m)))
              | None => 0%Q
              end).
  rewrite (expect_ext _ _ (fun mask => Some (g (mask !! i)))).
  - eapply oeq_trans;
      [apply (expect_choice_n_marginal 1 0 p0 p1 (length beta) i g);
       [done|by apply lookup_lt_Some in Hb]|].
    unfold g. change (of_int 1) with (Fin 1). rewrite nmul_1_r.
    change (of_int 0) with (Fin 0). simpl. reflexivity.
  - intros mask. unfold component_is, imul, g.
    rewrite lookup_zip_with, Hb. simpl. rewrite list_lookup_fmap.
    by destruct (mask !! i).
Qed.

Lemma pick_two (prob : list Q) (j : nat) (x : Z) :
  pick [1%Z; 0%Z] prob j = Some x ->
  in_support prob j = true /\ x = (if j =? 0 then 1%Z else 0%Z).
Proof.
  unfold pick. destruct (in_support prob j); [|done].
  destruct j as [|[|j]]; simpl; intros H; by inversion H.
Qed.

Lemma nmul_mask (b : num) (j : nat) :
  nmul b (of_int (if j =? 0 then 1%Z else 0%Z))
  = if j =? 0 then b else nmul b (Fin 0).
Proof. destruct (j =? 0); [apply nmul_1_r | reflexivity]. Qed.

Lemma mapM_pick_replicate (prob : list Q) (j : nat) (x : Z) (n : nat) :
  pick [1%Z; 0%Z] prob j = Some x ->
  mapM (pick [1%Z; 0%Z] prob) (replicate n j) = Some (replicate n x).
Proof.
  intros H. apply mapM_Some_2. induction n; simpl; by constructor.
Qed.

(** C7, on a component that is not finite: with [prob = [0, 1]] the mask is
    zero everywhere, and infinity times zero is NaN, so the vector returned
    is not the all-zero vector. *)
Lemma ANA_always_drop_infinite :
  (forall t r t',
     run (pathology [PInf] "ANA" [0%Q; 1%Q]) t = Some (r, t') -> r = Ok [NaN])
  /\ run (pathology [PInf] "ANA" [0%Q; 1%Q]) [SIdx [1]] = Some (Ok [NaN], [])
  /\ ~ is_zero NaN.
Proof.
  split; [|split; [reflexivity | intros []]].
  intros t r t' H. apply run_ANA in H as (idx & xs & -> & Hxs & Hlen & ->);
    [|reflexivity].
  apply (mapM_pick_const _ _ 0%Z) in Hxs as ->;
    [|intros i x Hi; by apply pick_drop in Hi as [-> _]].
  simpl in Hlen. rewrite Hlen. reflexivity.
Qed.

(** C7, amended. For every vector [beta], [pathology(beta, 'ANA')] with
    [prob = [1, 0]] returns [beta] itself, on every replay and with
    probability one. With [prob = [0, 1]] and a [beta] of finite components
    it returns the all-zero vector of the length of [beta], on every replay
    and with probability one. In general the component [i] is kept when the
    index sampled for it is 0, the index of weight [prob[0]], and is
    multiplied by zero when the index is 1, the index of weight [prob[1]]:
    for weights [p0, p1] that [choice] accepts, any property of the
    component [i] of the result holds with probability [p0] times its
    indicator on the input component plus [p1] times its indicator on the
    input component times zero. *)
Theorem pathology_ANA_mask (beta : list num) :
  ((forall t r t',
      run (pathology beta "ANA" [1%Q; 0%Q]) t = Some (r, t') -> r = Ok beta)
   /\ (forall t, run (pathology beta "ANA" [1%Q; 0%Q])
                   (SIdx (replicate (length beta) 0) :: t) = Some (Ok beta, t))
   /\ (forall ev, oeq (pr (pathology beta "ANA" [1%Q; 0%Q]) ev)
                      (Some (indicator (ev (Ok beta))))))
  /\ (Forall finite beta ->
      exists zeros,
        length zeros = length beta
        /\ Forall is_zero zeros
        /\ (forall t r t',
              run (pathology beta "ANA" [0%Q; 1%Q]) t = Some (r, t') -> r = Ok zeros)
        /\ (forall t, run (pathology beta "ANA" [0%Q; 1%Q])
                        (SIdx (replicate (length beta) 1) :: t) = Some (Ok zeros, t))
        /\ (forall ev, oeq (pr (pathology beta "ANA" [0%Q; 1%Q]) ev)
                           (Some (indicator (ev (Ok zeros))))))
  /\ (forall prob idx t r t',
        valid_p [1%Z; 0%Z] prob = true ->
        run (pathology beta "ANA" prob) (SIdx idx :: t) = Some (r, t') ->
        exists out,
          r = Ok out
          /\ length out = length beta
          /\ forall i j b, idx !! i = Some j -> beta !! i = Some b ->
               in_support prob j = true
               /\ out !! i = Some (if j =? 0 then b else nmul b (Fin 0)))
  /\ (forall p0 p1 i b phi,
        (0 <= p0)%Q -> (0 <= p1)%Q -> (p0 + p1 == 1)%Q ->
        beta !! i = Some b ->
        oeq (pr (pathology beta "ANA" [p0; p1]) (component_is i phi))
            (Some (p0 * indicator (phi b)
                   + p1 * indicator (phi (nmul b (Fin 0))))%Q)).
Proof.
  assert (Hones : imul beta (of_int <$> replicate (length beta) 1%Z) = beta).
  { rewrite imul_replicate. apply fmap_nmul_1. }
  split; [|split; [|split]].
  - split; [|split].
    + intros t r t' H.
      apply run_ANA in H as (idx & xs & -> & Hxs & Hlen & ->); [|reflexivity].
      apply (mapM_pick_const _ _ 1%Z) in Hxs as ->;
        [|intros i x Hi; by apply pick_keep in Hi as [-> _]].
      by rewrite Hlen, Hones.
    + intros t. unfold pathology. simpl.
      assert (E : mapM (pick [1%Z; 0%Z] [1%Q; 0%Q]) (replicate (length beta) 0)
                  = Some (replicate (length beta) 1%Z)).
      { by apply mapM_pick_replicate. }
      rewrite E, length_replicate, Nat.eqb_refl. simpl. by rewrite Hones.
    + intros ev. rewrite pr_ANA by reflexivity.
      eapply oeq_trans; [apply expect_choice_n_first; by eexists|].
      rewrite Hones. apply oeq_refl.
  - intros Hfin. exists ((fun b => nmul b (Fin 0)) <$> beta).
    assert (Hz : imul beta (of_int <$> replicate (length beta) 0%Z)
                 = (fun b => nmul b (Fin 0)) <$> beta) by apply imul_replicate.
    split; [by rewrite length_fmap|].
    split; [by apply Forall_zero_scaled|].
    split; [|split].
    + intros t r t' H.
      apply run_ANA in H as (idx & xs & -> & Hxs & Hlen & ->); [|reflexivity].
      apply (mapM_pick_const _ _ 0%Z) in Hxs as ->;
        [|intros i x Hi; by apply pick_drop in Hi as [-> _]].
      by rewrite Hlen, Hz.
    + intros t. unfold pathology. simpl.
      assert (E : mapM (pick [1%Z; 0%Z] [0%Q; 1%Q]) (replicate (length beta) 1)
                  = Some (replicate (length beta) 0%Z)).
      { by apply mapM_pick_replicate. }
      rewrite E, length_replicate, Nat.eqb_refl. simpl. by rewrite Hz.
    + intros ev. rewrite pr_ANA by reflexivity.
      eapply oeq_trans; [apply expect_choice_n_second; by eexists|].
      rewrite Hz. apply oeq_refl.
  - intros prob idx t r t' Hv H.
    apply run_ANA in H as (idx' & xs & Ht & Hxs & Hlen & ->); [|exact Hv].
    inversion Ht; subst idx' t'; clear Ht.
    pose proof (length_mapM _ _ _ Hxs) as Hlx.
    exists (imul beta (of_int <$> xs)). split; [done|]. split.
    { apply length_imul. rewrite length_fmap. lia. }
    intros i j b Hi Hb. apply mapM_Some_1 in Hxs.
    destruct (Forall2_lookup_l _ _ _ _ _ Hxs Hi) as (x & Hx & Hp).
    apply pick_two in Hp as [Hs ->]. split; [exact Hs|].
    unfold imul. rewrite lookup_zip_with, Hb. simpl.
    rewrite list_lookup_fmap, Hx. simpl. f_equal. apply nmul_mask.
  - intros p0 p1 i b phi H0 H1 Hs Hb. by apply pr_ANA_component.
Qed.

Lemma pathology_ANA_mask_witness :
  exists zeros,
    length zeros = 2
    /\ Forall is_zero zeros
    /\ (forall t r t',
          run (pathology [Fin 2; Fin (-1)] "ANA" [0%Q; 1%Q]) t = Some (r, t')
          -> r = Ok zeros)
    /\ (forall t, run (pathology [Fin 2; Fin (-1)] "ANA" [0%Q; 1%Q])
                    (SIdx [1; 1] :: t) = Some (Ok zeros, t))
    /\ (forall ev, oeq (pr (pathology [Fin 2; Fin (-1)] "ANA" [0%Q; 1%Q]) ev)
                       (Some (indicator (ev (Ok zeros))))).
Proof.
  apply (proj1 (proj2 (pathology_ANA_mask [Fin 2; Fin (-1)]))).
  repeat constructor.
Defined.

(** ** The two kinds that mutate at random *)

Lemma pr_set_items (beta : list num) (v : num) (w : Q)
    (ev : result (list num) -> bool) (l : list nat) :
  Forall (fun i => i < length beta) l ->
  expect ((fun i => (i, w)) <$> l) (fun i => pr (set_item i v beta) ev)
  = Some (Qsum ((fun i => w * indicator (ev (Ok (<[i := v]> beta))))%Q <$> l)).
Proof.
  induction 1 as [|i l Hi _ IH]; [reflexivity|].
  rewrite fmap_cons, expect_cons, IH. unfold set_item.
  apply Nat.ltb_lt in Hi. rewrite Hi. reflexivity.
Qed.

Lemma pr_randint_set_item (beta : list num) (v : num)
    (ev : result (list num) -> bool) :
  beta <> [] ->
  pr (Randint (length beta) (fun i => set_item i v beta)) ev
  = Some (Qsum ((fun i => (1 / inject_Z (Z.of_nat (length beta)))
                          * indicator (ev (Ok (<[i := v]> beta))))%Q
                  <$> seq 0 (length beta))).
Proof.
  intros Hne. simpl. destruct (length beta =? 0) eqn:E.
  { apply Nat.eqb_eq in E. by destruct beta. }
  unfold randint_dist. apply pr_set_items.
  apply Forall_forall. intros i Hi. apply elem_of_seq in Hi. lia.
Qed.

(** C2, as stated, at a concrete vector and [prob = [1/4, 3/4]]: the
    mutated vector is returned with probability 1/4, which is [prob[0]],
    and not with probability 3/4, which is [prob[1]]. *)
Lemma random_kinds_branch_is_not_prob1 :
  (exists q,
     pr (pathology [Fin 0] "screening_random" [(1 # 4)%Q; (3 # 4)%Q])
        (returns_other [Fin 0]) = Some q
     /\ (q == 1 # 4)%Q /\ ~ (q == 3 # 4)%Q)
  /\ (exists q,
        pr (pathology [Fin 1; Fin 1] "ANA_random" [(1 # 4)%Q; (3 # 4)%Q])
           (returns_other [Fin 1; Fin 1]) = Some q
        /\ (q == 1 # 4)%Q /\ ~ (q == 3 # 4)%Q).
Proof.
  split; eexists; (split; [vm_compute; reflexivity|]); split;
    [reflexivity | discriminate | reflexivity | discriminate].
Qed.

(** C2, amended. Let [prob = [p0, p1]] be a weight vector that [choice]
    accepts. For ['screening_random'] on a vector that is not empty, and for
    any event on the result, the probability of the event is [p0] times its
    probability when one index, uniform among the [L] indices, is set to
    -10000, plus [p1] times its indicator on the unchanged [beta]. For
    ['ANA_random'] on a vector whose first half is finite, there is a vector
    [out] with components [0 .. L/2-1] zero and the others those of [beta],
    and the probability of any event is [p0] times its indicator on [out]
    plus [p1] times its indicator on the unchanged [beta]. So the mutation
    branch has probability [prob[0]] and [beta] is returned unchanged with
    probability [prob[1]]. *)
Theorem pathology_random_kinds (beta : list num) (p0 p1 : Q) :
  (0 <= p0)%Q -> (0 <= p1)%Q -> (p0 + p1 == 1)%Q ->
  (beta <> [] ->
   forall ev, exists q,
     pr (pathology beta "screening_random" [p0; p1]) ev = Some q
     /\ (q == p0 * Qsum ((fun i => (1 / inject_Z (Z.of_nat (length beta)))
                                   * indicator (ev (Ok (<[i := of_int (-10000)]> beta))))
                           <$> seq 0 (length beta))
              + p1 * indicator (ev (Ok beta)))%Q)
  /\ (Forall finite (take (length beta / 2) beta) ->
      exists out,
        length out = length beta
        /\ Forall is_zero (take (length beta / 2) out)
        /\ drop (length beta / 2) out = drop (length beta / 2) beta
        /\ forall ev, exists q,
             pr (pathology beta "ANA_random" [p0; p1]) ev = Some q
             /\ (q == p0 * indicator (ev (Ok out))
                      + p1 * indicator (ev (Ok beta)))%Q).
Proof.
  intros H0 H1 Hs. pose proof (valid_p_two p0 p1 H0 H1 Hs) as Hv. split.
  - intros Hne ev.
    pose proof (pr_randint_set_item beta (of_int (-10000)) ev Hne) as Hr.
    unfold pathology. cbn [String.eqb Ascii.eqb Bool.eqb].
    change (pr (c ← np_random_choice [1%Z; 0%Z] [p0; p1];
                if negb (c =? 0)%Z
                then i ← np_random_randint (length beta);
                     set_item i (of_int (-10000)) beta
                else Ret beta) ev)
      with (if valid_p [1%Z; 0%Z] [p0; p1]
            then oplus (oscale p0 (pr (Randint (length beta)
                                         (fun i => set_item i (of_int (-10000)) beta)) ev))
                       (oplus (oscale p1 (Some (indicator (ev (Ok beta)))))
                              (Some 0%Q))
            else Some (indicator (ev (Raised ValueError)))).
    rewrite Hv, Hr. simpl. eexists. split; [reflexivity|]. ring.
  - intros Hfin. set (k := length beta / 2) in *.
    assert (Hk : k <= length beta) by (apply Nat.Div0.div_le_upper_bound; lia).
    exists (((fun b => nmul b (Fin 0)) <$> take k beta) ++ drop k beta).
    split; [|split; [|split]].
    + rewrite length_app, length_fmap, length_take, length_drop. lia.
    + rewrite take_app_length'; [by apply Forall_zero_scaled|].
      rewrite length_fmap, length_take. lia.
    + rewrite drop_app_length'; [done|]. rewrite length_fmap, length_take. lia.
    + intros ev. unfold pathology. cbn [String.eqb Ascii.eqb Bool.eqb].
      fold k. rewrite imul_fill_to.
      change (pr (c ← np_random_choice [1%Z; 0%Z] [p0; p1];
                  if negb (c =? 0)%Z
                  then Ret (((fun b => nmul b (Fin 0)) <$> take k beta) ++ drop k beta)
                  else Ret beta) ev)
        with (if valid_p [1%Z; 0%Z] [p0; p1]
              then oplus (oscale p0 (Some (indicator
                       (ev (Ok (((fun b => nmul b (Fin 0)) <$> take k beta)
                                ++ drop k beta))))))
                         (oplus (oscale p1 (Some (indicator (ev (Ok beta)))))
                                (Some 0%Q))
              else Some (indicator (ev (Raised ValueError)))).
      rewrite Hv. simpl. eexists. split; [reflexivity|]. ring.
Qed.

Lemma pathology_random_kinds_witness :
  (forall ev, exists q,
     pr (pathology [Fin 1; Fin 2] "screening_random" [(1 # 4)%Q; (3 # 4)%Q]) ev
       = Some q
     /\ (q == (1 # 4) * Qsum ((fun i => (1 / inject_Z (Z.of_nat 2))
                                   * indicator (ev (Ok (<[i := of_int (-10000)]>
                                                          [Fin 1; Fin 2]))))
                           <$> seq 0 2)
              + (3 # 4) * indicator (ev (Ok [Fin 1; Fin 2])))%Q)
  /\ (exists out,
        length out = 2
        /\ Forall is_zero (take 1 out)
        /\ drop 1 out = [Fin 2]
        /\ forall ev, exists q,
             pr (pathology [Fin 1; Fin 2] "ANA_random" [(1 # 4)%Q; (3 # 4)%Q]) ev
               = Some q
             /\ (q == (1 # 4) * indicator (ev (Ok out))
                      + (3 # 4) * indicator (ev (Ok [Fin 1; Fin 2])))%Q).
Proof.
  destruct (pathology_random_kinds [Fin 1; Fin 2] (1 # 4) (3 # 4))
    as [Hs Ha]; [discriminate | discriminate | reflexivity |].
  split.
  - apply Hs. discriminate.
  - apply Ha. repeat constructor.
Defined.

(** ** Sequencing and loops *)

Lemma run_mbind {A B : Type} (m : prog A) (f : A -> prog B) (t : tape) :
  run (m ≫= f) t =
  match run m t with
  | Some (Ok a, t') => run (f a) t'
  | Some (Raised e, t') => Some (Raised e, t')
  | None => None
  end.
Proof. apply run_bind. Qed.

Lemma run_mbind_Ok {A B : Type} (m : prog A) (f : A -> prog B) (t : tape)
    (b : B) (t' : tape) :
  run (m ≫= f) t = Some (Ok b, t') ->
  exists a t1, run m t = Some (Ok a, t1) /\ run (f a) t1 = Some (Ok b, t').
Proof.
  rewrite run_mbind. destruct (run m t) as [[[a|e] t1]|]; try done.
  intros H. by exists a, t1.
Qed.

Lemma run_get_int_Ok (d : gmap string pyval) (k : string) (t : tape) (n : nat)
    (t' : tape) :
  run (get_int d k) t = Some (Ok n, t') -> d !! k = Some (VInt n) /\ t' = t.
Proof.
  unfold get_int. destruct (d !! k) as [[]|]; simpl; intros H; by inversion H.
Qed.

Lemma get_int_lookup (d : gmap string pyval) (k : string) (n : nat) :
  d !! k = Some (VInt n) -> get_int d k = Ret n.
Proof. unfold get_int. by intros ->. Qed.

Lemma get_arr_lookup (d : gmap string pyval) (k : string) (a : ndarray num) :
  d !! k = Some (VArr a) -> get_arr d k = Ret a.
Proof. unfold get_arr. by intros ->. Qed.

Lemma for_each_cons {St : Type} (i : nat) (l : list nat)
    (body : nat -> St -> prog St) (s : St) :
  for_each (i :: l) body s = body i s ≫= for_each l body.
Proof. reflexivity. Qed.

(** A loop invariant indexed by the position reached in [range]. *)
Lemma run_for_each_seq {St : Type} (I : nat -> St -> Prop)
    (body : nat -> St -> prog St) (n a : nat) (s : St) (t : tape) (s' : St)
    (t' : tape) :
  (forall i s0 t0 s1 t1, a <= i < a + n -> I i s0 ->
     run (body i s0) t0 = Some (Ok s1, t1) -> I (S i) s1) ->
  I a s ->
  run (for_each (seq a n) body s) t = Some (Ok s', t') ->
  I (a + n) s'.
Proof.
  revert a s t. induction n as [|n IH]; intros a s t Hstep Ha H.
  - simpl in H. inversion H; subst. by rewrite Nat.add_0_r.
  - simpl seq in H. rewrite for_each_cons in H.
    apply run_mbind_Ok in H as (s1 & t1 & H1 & H2).
    replace (a + S n) with (S a + n) by lia.
    eapply (IH (S a)); [|eapply (Hstep a); [lia|exact Ha|exact H1]|exact H2].
    intros i s0 t0 s2 t2 Hi. apply Hstep. lia.
Qed.

Lemma run_for_range {St : Type} (I : nat -> St -> Prop)
    (body : nat -> St -> prog St) (n : nat) (s : St) (t : tape) (s' : St)
    (t' : tape) :
  (forall i s0 t0 s1 t1, i < n -> I i s0 ->
     run (body i s0) t0 = Some (Ok s1, t1) -> I (S i) s1) ->
  I 0 s ->
  run (for_range n body s) t = Some (Ok s', t') ->
  I n s'.
Proof.
  intros Hstep H0 H. unfold for_range in H.
  apply (run_for_each_seq I body n 0 s t s' t'); try done.
  intros i s0 t0 s1 t1 Hi. apply Hstep. lia.
Qed.

(** ** The guard on the number of covariates *)

Lemma design_guard_raises (n nscns nalts nlvls ncovs : nat)
    (h : gmap loc (gmap string pyval)) :
  1 < ncovs ->
  generate_simulated_design (S n) nscns nalts nlvls ncovs h
  = Raise NotImplementedError.
Proof.
  intros Hc. unfold generate_simulated_design, for_range.
  simpl seq. rewrite for_each_cons.
  apply Nat.ltb_lt in Hc. rewrite Hc. reflexivity.
Qed.

Lemma design_no_respondent (nscns nalts nlvls ncovs : nat)
    (h : gmap loc (gmap string pyval)) :
  generate_simulated_design 0 nscns nalts nlvls ncovs h
  = Ret (fresh (dom h),
         <[fresh (dom h) :=
             <["X" := VArr (mk_ndarray [0; nscns; nalts; nlvls] [])]>
            (<["Z" := VArr (mk_ndarray [0; ncovs] [])]>
            (<["A" := VInt nalts]> (<["R" := VInt 0]> (<["C" := VInt ncovs]>
            (<["T" := VInt nscns]> (<["L" := VInt nlvls]> ∅))))))]> h).
Proof. reflexivity. Qed.

Lemma run_uniform {A : Type} (lo hi : Q) (n : nat) (k : list num -> prog A)
    (t : tape) (r : result A) (t' : tape) :
  run (Uniform lo hi n k) t = Some (r, t') ->
  exists xs t1, t = SNums xs :: t1 /\ length xs = n /\ run (k xs) t1 = Some (r, t').
Proof.
  simpl. destruct t as [|[| |xs|] t1]; try done.
  destruct (length xs =? n) eqn:El; [|done].
  destruct (forallb (in_range lo hi) xs); [|done].
  intros H. exists xs, t1. apply Nat.eqb_eq in El. done.
Qed.

Lemma in_range_zeros (n : nat) :
  forallb (in_range (-3) 4) (replicate n (Fin 0)) = true.
Proof. induction n; [done|]. simpl. exact IHn. Qed.

Lemma run_binomial {A : Type} (n : nat) (p : Q) (s : nat)
    (k : list Z -> prog A) (t : tape) (r : result A) (t' : tape) :
  (Qle_bool 0 p && Qle_bool p 1) = true ->
  run (Binomial n p s k) t = Some (r, t') ->
  exists ks t1, t = SInts ks :: t1 /\ length ks = s
                /\ run (k (Z.of_nat <$> ks)) t1 = Some (r, t').
Proof.
  intros Hp. simpl. rewrite Hp. destruct t as [|[| | |ks] t1]; try done.
  destruct (length ks =? s) eqn:El; [|done].
  destruct (forallb (fun j => j <=? n) ks); [|done].
  intros H. exists ks, t1. apply Nat.eqb_eq in El. done.
Qed.

(** ** The shape of a run of [compute_beta_response] that returns *)

(** Peel one [get_int] off a run that returns. *)
Ltac run_int H n :=
  let t1 := fresh "t" in let H1 := fresh "Hget" in
  let E := fresh "E" in
  apply run_mbind_Ok in H as (n & t1 & H1 & H);
  apply run_get_int_Ok in H1 as [H1 E]; subst t1.

Lemma compute_beta_response_returns (np_log : num -> num) (data_dict : loc)
    (pathology_type : option string) (h : gmap loc (gmap string pyval))
    (t : tape) (l' : loc) (h' : gmap loc (gmap string pyval)) (t' : tape) :
  run (compute_beta_response np_log data_dict pathology_type h) t
    = Some (Ok (l', h'), t') ->
  exists d C L R T Gamma Y Beta t1 t2 d',
    h !! data_dict = Some d
    /\ d !! "C" = Some (VInt C) /\ d !! "L" = Some (VInt L)
    /\ d !! "R" = Some (VInt R) /\ d !! "T" = Some (VInt T)
    /\ length Gamma = C * L
    /\ run (for_range R (respondent np_log d pathology_type Gamma (make_Vbeta L))
              (np_zeros [R; T], np_zeros [L; R])) t1 = Some (Ok (Y, Beta), t2)
    /\ l' = data_dict
    /\ h' = <[data_dict := d']> h
    /\ ((pathology_type = Some "ANA"
         /\ exists w, length w = T
              /\ d' = <["w" := VIntArr (mk_ndarray [length w] w)]>
                        (with_results d Y Beta Gamma (make_Vbeta L)))
        \/ (pathology_type <> Some "ANA"
            /\ d' = with_results d Y Beta Gamma (make_Vbeta L))).
Proof.
  intros H. unfold compute_beta_response in H.
  destruct (h !! data_dict) as [d|] eqn:Hd; [|done].
  run_int H C. run_int H L.
  apply run_mbind_Ok in H as (Gamma & t1 & HG & H).
  apply run_uniform in HG as (xs & t0 & -> & Hlen & HG).
  simpl in HG. inversion HG; subst xs t0; clear HG.
  run_int H L'. run_int H R. run_int H T. run_int H L''. run_int H R'.
  run_int H R''.
  assert (L' = L) as -> by congruence.
  assert (L'' = L) as -> by congruence.
  assert (R' = R) as -> by congruence.
  assert (R'' = R) as -> by congruence.
  apply run_mbind_Ok in H as ([Y Beta] & t2 & Hloop & H).
  apply run_mbind_Ok in H as (d' & t3 & Hw & H).
  simpl in H. inversion H; subst l' h' t3; clear H.
  exists d, C, L, R, T, Gamma, Y, Beta, t1, t2, d'.
  repeat (split; [done|]).
  fold (with_results d Y Beta Gamma (make_Vbeta L)) in Hw.
  case_bool_decide as Hana.
  - left. split; [done|].
    apply run_mbind_Ok in Hw as (T' & t4 & HT & Hw).
    apply run_get_int_Ok in HT as [HT ->].
    apply run_mbind_Ok in Hw as (w & t5 & Hb & Hw).
    apply run_binomial in Hb as (ks & t6 & -> & Hlk & Hb); [|done].
    simpl in Hb. inversion Hb; subst w t6; clear Hb.
    simpl in Hw. inversion Hw; subst d' t5; clear Hw.
    exists (Z.of_nat <$> ks). split; [|done].
    rewrite length_fmap, Hlk.
    unfold with_results in HT. rewrite !lookup_insert_ne in HT by done.
    congruence.
  - right. split; [done|]. simpl in Hw. by inversion Hw.
Qed.

(** ** The bundle is enriched in place *)

(** C9. When [compute_beta_response] returns, it returns the reference it
    was given, and the heap differs only at that reference. The dict found
    there holds every field of the input dict with its value, except the
    four fields [Beta], [Y], [Gamma], [Vbeta] and [w]; in particular [X],
    [Z], [A], [R], [C], [T], [L] are unchanged. [Beta], [Y], [Gamma] and
    [Vbeta] are written. [w] is written when the pathology kind is ['ANA'],
    and is left as it was (absent if it was absent) for any other kind. *)
Theorem compute_beta_response_frame (np_log : num -> num) (data_dict : loc)
    (pathology_type : option string) (h : gmap loc (gmap string pyval))
    (t : tape) (l' : loc) (h' : gmap loc (gmap string pyval)) (t' : tape) :
  run (compute_beta_response np_log data_dict pathology_type h) t
    = Some (Ok (l', h'), t') ->
  l' = data_dict
  /\ exists d d',
       h !! data_dict = Some d
       /\ h' = <[data_dict := d']> h
       /\ (forall k, k ∈ design_fields -> d' !! k = d !! k)
       /\ (forall k, k ∉ result_fields -> k <> "w" -> d' !! k = d !! k)
       /\ (forall k, k ∈ result_fields -> is_Some (d' !! k))
       /\ (pathology_type = Some "ANA" -> is_Some (d' !! "w"))
       /\ (pathology_type <> Some "ANA" -> d' !! "w" = d !! "w").
Proof.
  intros H.
  apply compute_beta_response_returns in H
    as (d & C & L & R & T & Gamma & Y & Beta & t1 & t2 & d' & Hd & _ & _ & _ & _
        & _ & _ & -> & -> & Hd').
  split; [done|]. exists d, d'. split; [done|]. split; [done|].
  assert (Hother : forall k, k ∉ result_fields -> k <> "w" -> d' !! k = d !! k).
  { intros k Hk Hw. unfold result_fields in Hk.
    assert (k <> "Beta" /\ k <> "Y" /\ k <> "Gamma" /\ k <> "Vbeta")
      as (? & ? & ? & ?) by (repeat split; intros ->; apply Hk; repeat constructor).
    destruct Hd' as [(_ & w & _ & ->)|(_ & ->)]; unfold with_results;
      by rewrite !lookup_insert_ne by done. }
  assert (Hres : forall k, k ∈ result_fields ->
            is_Some (with_results d Y Beta Gamma (make_Vbeta L) !! k)).
  { intros k Hk. unfold result_fields in Hk. unfold with_results.
    repeat (apply elem_of_cons in Hk as [->|Hk];
            [rewrite ?lookup_insert_eq, ?lookup_insert_ne by done;
             rewrite ?lookup_insert_eq; by eexists|]).
    by apply elem_of_nil in Hk. }
  split; [|split; [exact Hother|split; [|split]]].
  - intros k Hk. unfold design_fields in Hk. apply Hother.
    + unfold result_fields. intros Hin.
      repeat (apply elem_of_cons in Hk as [->|Hk];
              [repeat (apply elem_of_cons in Hin as [Hin|Hin]; [discriminate Hin|]);
               by apply elem_of_nil in Hin|]).
      by apply elem_of_nil in Hk.
    + intros ->.
      repeat (apply elem_of_cons in Hk as [Hk|Hk]; [discriminate Hk|]).
      by apply elem_of_nil in Hk.
  - intros k Hk. destruct Hd' as [(_ & w & _ & ->)|(_ & ->)]; [|by apply Hres].
    rewrite lookup_insert_ne; [by apply Hres|].
    intros <-. unfold result_fields in Hk.
    repeat (apply elem_of_cons in Hk as [Hk|Hk]; [discriminate Hk|]).
    by apply elem_of_nil in Hk.
  - intros Hana. destruct Hd' as [(_ & w & _ & ->)|(Hn & _)]; [|done].
    rewrite lookup_insert_eq. by eexists.
  - intros Hana. destruct Hd' as [(Hy & _)|(_ & ->)]; [done|].
    unfold with_results. by rewrite !lookup_insert_ne by done.
Qed.

(** ** Runs without respondents, and runs stopped by the guard *)

(** Step over a bind whose first part is a plain return. *)
Ltac step_ret := rewrite run_mbind; cbn [run].

(** With no respondent the loop body never runs, whatever the number of
    covariates: the run draws [Gamma], and [w] for the kind ['ANA']. *)
Lemma compute_beta_response_no_respondent (np_log : num -> num)
    (data_dict : loc) (pathology_type : option string)
    (h : gmap loc (gmap string pyval)) (d : gmap string pyval)
    (C L T : nat) (t : tape) :
  h !! data_dict = Some d ->
  d !! "R" = Some (VInt 0) -> d !! "C" = Some (VInt C) ->
  d !! "L" = Some (VInt L) -> d !! "T" = Some (VInt T) ->
  run (compute_beta_response np_log data_dict pathology_type h) t =
  match t with
  | SNums xs :: t1 =>
      if (length xs =? C * L) && forallb (in_range (-3) 4) xs then
        let d4 := with_results d (np_zeros [0; T]) (np_zeros [L; 0]) xs
                    (make_Vbeta L) in
        if bool_decide (pathology_type = Some "ANA") then
          match t1 with
          | SInts ks :: t2 =>
              if (length ks =? T) && forallb (fun j => j <=? 1) ks then
                Some (Ok (data_dict,
                          <[data_dict :=
                              <["w" := VIntArr (mk_ndarray [length ks]
                                                  (Z.of_nat <$> ks))]> d4]> h), t2)
              else None
          | _ => None
          end
        else Some (Ok (data_dict, <[data_dict := d4]> h), t1)
      else None
  | _ => None
  end.
Proof.
  intros Hd HR HC HL HT. unfold compute_beta_response. rewrite Hd.
  rewrite (get_int_lookup _ _ _ HC), (get_int_lookup _ _ _ HL),
    (get_int_lookup _ _ _ HR), (get_int_lookup _ _ _ HT).
  step_ret. step_ret. rewrite run_mbind. cbn [run np_random_uniform].
  destruct t as [|[| |xs|] t1]; try done.
  destruct ((length xs =? C * L) && forallb (in_range (-3) 4) xs); [|done].
  cbn [run]. do 6 step_ret. rewrite run_mbind.
  change (for_range 0 ?b ?s) with (Ret s). cbn [run fst snd].
  rewrite run_mbind.
  fold (with_results d (np_zeros [0; T]) (np_zeros [L; 0]) xs (make_Vbeta L)).
  case_bool_decide; [|done].
  assert (HT' : with_results d (np_zeros [0; T]) (np_zeros [L; 0]) xs
                  (make_Vbeta L) !! "T" = Some (VInt T)).
  { unfold with_results. by rewrite !lookup_insert_ne by done. }
  rewrite run_mbind, (get_int_lookup _ _ _ HT'). cbn [run].
  rewrite run_mbind. cbn [run np_random_binomial].
  change (Qle_bool 0 (1 # 2) && Qle_bool (1 # 2) 1) with true. cbn match.
  destruct t1 as [|[| | |ks] t2]; try done.
  destruct ((length ks =? T) && forallb (fun j => j <=? 1) ks); [|done].
  cbn [run]. by rewrite length_fmap.
Qed.

(** With a respondent and more than one covariate the first turn of the loop
    raises, after [Gamma] has been drawn. *)
Lemma compute_beta_response_guard (np_log : num -> num)
    (data_dict : loc) (pathology_type : option string)
    (h : gmap loc (gmap string pyval)) (d : gmap string pyval)
    (n C L T : nat) (t : tape) :
  h !! data_dict = Some d ->
  d !! "R" = Some (VInt (S n)) -> d !! "C" = Some (VInt C) ->
  d !! "L" = Some (VInt L) -> d !! "T" = Some (VInt T) ->
  1 < C ->
  run (compute_beta_response np_log data_dict pathology_type h) t =
  match t with
  | SNums xs :: t1 =>
      if (length xs =? C * L) && forallb (in_range (-3) 4) xs
      then Some (Raised NotImplementedError, t1) else None
  | _ => None
  end.
Proof.
  intros Hd HR HC HL HT Hgt. unfold compute_beta_response. rewrite Hd.
  rewrite (get_int_lookup _ _ _ HC), (get_int_lookup _ _ _ HL),
    (get_int_lookup _ _ _ HR), (get_int_lookup _ _ _ HT).
  step_ret. step_ret. rewrite run_mbind. cbn [run np_random_uniform].
  destruct t as [|[| |xs|] t1]; try done.
  destruct ((length xs =? C * L) && forallb (in_range (-3) 4) xs); [|done].
  cbn [run]. do 6 step_ret. rewrite run_mbind.
  unfold for_range. simpl seq. rewrite for_each_cons, run_mbind.
  unfold respondent at 1. rewrite (get_int_lookup _ _ _ HC). step_ret.
  apply Nat.ltb_lt in Hgt. rewrite Hgt. reflexivity.
Qed.

Lemma forallb_and_length_zeros (n : nat) :
  (length (replicate n (Fin 0)) =? n) && forallb (in_range (-3) 4) (replicate n (Fin 0))
  = true.
Proof. by rewrite length_replicate, Nat.eqb_refl, in_range_zeros. Qed.

Lemma forallb_and_length_binom (n : nat) :
  (length (replicate n 0) =? n) && forallb (fun j => j <=? 1) (replicate n 0) = true.
Proof.
  rewrite length_replicate, Nat.eqb_refl. simpl.
  induction n; [done|]. simpl. exact IHn.
Qed.

(** C10. The guard on [C > 1] sits in the loop over the respondents, so with
    no respondent it is never reached: [generate_simulated_design] with
    [nresp = 0] and [ncovs = 2] is the plain return of a fresh bundle whose
    [X] and [Z] are empty, and on a bundle with [R = 0] and [C = 2] every
    replay of [compute_beta_response] returns the bundle, and a replay
    exists. *)
Theorem guard_bypassed_without_respondents (np_log : num -> num)
    (nscns nalts nlvls : nat) (h0 : gmap loc (gmap string pyval))
    (data_dict : loc) (pathology_type : option string)
    (h : gmap loc (gmap string pyval)) (d : gmap string pyval) (L T : nat) :
  h !! data_dict = Some d ->
  d !! "R" = Some (VInt 0) -> d !! "C" = Some (VInt 2) ->
  d !! "L" = Some (VInt L) -> d !! "T" = Some (VInt T) ->
  (exists l d0,
     generate_simulated_design 0 nscns nalts nlvls 2 h0 = Ret (l, <[l := d0]> h0)
     /\ h0 !! l = None
     /\ d0 !! "X" = Some (VArr (mk_ndarray [0; nscns; nalts; nlvls] []))
     /\ d0 !! "Z" = Some (VArr (mk_ndarray [0; 2] []))
     /\ d0 !! "R" = Some (VInt 0) /\ d0 !! "C" = Some (VInt 2))
  /\ (forall t r t',
        run (compute_beta_response np_log data_dict pathology_type h) t
          = Some (r, t') ->
        exists h', r = Ok (data_dict, h'))
  /\ (exists t h',
        run (compute_beta_response np_log data_dict pathology_type h) t
          = Some (Ok (data_dict, h'), [])).
Proof.
  intros Hd HR HC HL HT. split; [|split].
  - rewrite design_no_respondent. eexists _, _. split; [reflexivity|].
    split; [|by repeat split].
    apply not_elem_of_dom. apply is_fresh.
  - intros t r t' H.
    rewrite (compute_beta_response_no_respondent _ _ _ _ _ _ _ _ _ Hd HR HC HL HT)
      in H.
    destruct t as [|[| |xs|] t1]; try done.
    destruct ((length xs =? 2 * L) && forallb (in_range (-3) 4) xs); [|done].
    cbv zeta in H. case_bool_decide.
    + destruct t1 as [|[| | |ks] t2]; try done.
      destruct ((length ks =? T) && forallb (fun j => j <=? 1) ks); [|done].
      inversion H. by eexists.
    + inversion H. by eexists.
  - exists (SNums (replicate (2 * L) (Fin 0))
            :: (if bool_decide (pathology_type = Some "ANA")
                then [SInts (replicate T 0)] else [])).
    rewrite (compute_beta_response_no_respondent _ _ _ _ _ _ _ _ _ Hd HR HC HL HT).
    rewrite forallb_and_length_zeros. cbv zeta. case_bool_decide.
    + rewrite forallb_and_length_binom. by eexists.
    + by eexists.
Qed.

(** ** The recorded choices *)

Lemma argmax_from_lt (xs : list num) (best_i : nat) (best : num) (i : nat) :
  best_i < i -> argmax_from best_i best i xs < i + length xs.
Proof.
  revert best_i best i. induction xs as [|x xs IH]; intros best_i best i Hlt.
  - simpl. lia.
  - simpl. destruct (negb (is_nan best) && (is_nan x || ngt x best)).
    + specialize (IH i x (S i)). lia.
    + specialize (IH best_i best (S i)). lia.
Qed.

Lemma run_np_argmax_Ok (a : ndarray num) (t : tape) (c : nat) (t' : tape) :
  run (np_argmax a) t = Some (Ok c, t') -> c < length (data a) /\ t' = t.
Proof.
  unfold np_argmax. destruct (data a) as [|x xs]; [done|].
  simpl. intros H. inversion H; subst. split; [|done].
  pose proof (argmax_from_lt xs 0 x 1). lia.
Qed.

Lemma run_mvnormal_Ok {A : Type} (mu : list num) (cov : ndarray num)
    (k : list num -> prog A) (t : tape) (a : A) (t' : tape) :
  run (MvNormal mu cov k) t = Some (Ok a, t') ->
  exists xs t1, t = SNums xs :: t1 /\ length xs = length mu
                /\ run (k xs) t1 = Some (Ok a, t').
Proof.
  simpl. destruct (valid_mvn mu cov); [|done].
  destruct t as [|[| |xs|] t1]; try done.
  destruct (length xs =? length mu) eqn:El; [|done].
  destruct (forallb is_finite xs); [|done].
  intros H. exists xs, t1. apply Nat.eqb_eq in El. done.
Qed.

Lemma to_int_first_add (z : Z) : to_int (nadd (Fin 0) (of_int z)) = z.
Proof.
  unfold of_int, inject_Z, to_int, nadd, Qplus. cbn [Qnum Qden].
  rewrite !Z.mul_1_r, Z.add_0_l. apply Z.quot_1_r.
Qed.

(** The utilities of one scenario have at most as many entries as the design
    has alternatives, as long as at most one noise term is drawn. *)
Lemma broadcast_sub_length (A : nat) (xb : list num) (v : list num) (t : tape)
    (U : ndarray num) (t' : tape) :
  length xb = A -> length v <= 1 ->
  run (broadcast_sub (mk_ndarray [A] xb) v) t = Some (Ok U, t') ->
  length (data U) <= A.
Proof.
  intros Hxb Hv H. unfold broadcast_sub in H. cbn [shape data] in H.
  change (reverse [A]) with [A] in H. cbv beta iota zeta in H.
  destruct (A =? length v); [|destruct (length v =? 1)];
    [| |destruct (A =? 1) eqn:E1]; cbn [run] in H; try done.
  - inversion H. cbn [data]. rewrite length_imap. lia.
  - inversion H. cbn [data]. rewrite length_fmap. lia.
  - inversion H. cbn [data].
    apply Nat.eqb_eq in E1. subst A.
    destruct xb as [|x [|]]; try done. cbn [mbind list_bind].
    rewrite app_nil_r, length_fmap. lia.
Qed.

Lemma filled_zeros (R T A : nat) : filled R T A 0 (np_zeros [R; T]).
Proof.
  unfold filled, np_zeros. simpl. rewrite length_replicate.
  repeat split; try lia.
  intros i _ Hi. apply lookup_replicate_2. lia.
Qed.

Lemma scenario_step (np_log : num -> num) (d : gmap string pyval)
    (X : ndarray num) (R T A L C : nat) (beta : list num) (resp scn : nat)
    (Y : ndarray num) (t : tape) (Y' : ndarray num) (t' : tape) :
  d !! "X" = Some (VArr X) -> shape X = [R; T; A; L] ->
  d !! "C" = Some (VInt C) -> C <= 1 ->
  shape Y = [R; T] ->
  run (scenario np_log d beta resp scn Y) t = Some (Ok Y', t') ->
  exists c,
    c < A /\ resp < R /\ scn < T
    /\ Y' = mk_ndarray [R; T]
              (alter (fun x => nadd x (of_int (Z.of_nat c + 1)))
                 (resp * T + scn) (data Y)).
Proof.
  intros HX Hsh HC Hle HY H. unfold scenario in H.
  rewrite (get_arr_lookup _ _ _ HX), (get_int_lookup _ _ _ HC) in H.
  apply run_mbind_Ok in H as (X0 & t0 & E & H). inversion E; subst X0 t0; clear E.
  apply run_mbind_Ok in H as (X_scn & t0 & E & H).
  unfold index2 in E. rewrite Hsh in E.
  destruct ((resp <? R) && (scn <? T)) eqn:Hin; cbn [run] in E; [|done].
  inversion E; subst X_scn t0; clear E.
  apply run_mbind_Ok in H as (XB & t0 & E & H).
  unfold np_dot in E. simpl shape in E. change (reverse [A; L]) with [L; A] in E.
  cbv beta iota zeta in E.
  destruct (L =? length beta); cbn [run] in E; [|done].
  change (reverse [A]) with [A] in E.
  inversion E; subst XB t0; clear E.
  apply run_mbind_Ok in H as (C0 & t0 & E & H). inversion E; subst C0 t0; clear E.
  apply run_mbind_Ok in H as (u & t0 & E & H).
  apply run_uniform in E as (xs & t1 & -> & Hlen & E).
  inversion E; subst u t0; clear E.
  apply run_mbind_Ok in H as (U & t0 & E & H).
  apply broadcast_sub_length in E;
    [|rewrite length_fmap, length_seq; simpl; lia
     |unfold log_neg_log; rewrite length_fmap; lia].
  apply run_mbind_Ok in H as (c & t2 & Ec & H).
  apply run_np_argmax_Ok in Ec as [Hc ->].
  unfold iadd_item2 in H. rewrite HY, Hin in H.
  inversion H; subst. exists c.
  apply andb_true_iff in Hin as [H1 H2].
  apply Nat.ltb_lt in H1, H2. repeat split; try done. lia.
Qed.

Lemma filled_step (R T A n c : nat) (Y : ndarray num) :
  n < R * T -> c < A -> filled R T A n Y ->
  filled R T A (S n)
    (mk_ndarray [R; T]
       (alter (fun x => nadd x (of_int (Z.of_nat c + 1))) n (data Y))).
Proof.
  intros Hn Hc (Hsh & Hlen & Hlo & Hhi). unfold filled. simpl.
  split; [done|]. split; [by rewrite length_alter|]. split.
  - intros i y Hi Hy. destruct (decide (i = n)) as [->|Hne].
    + rewrite list_lookup_alter, (Hhi n) in Hy by lia.
      case_decide; [|done].
      cbn [fmap option_fmap option_map] in Hy. injection Hy as <-. cbv beta.
      change (Fin (0 + inject_Z (Z.of_nat c + 1)))
        with (nadd (Fin 0) (of_int (Z.of_nat c + 1))).
      rewrite to_int_first_add. lia.
    + rewrite list_lookup_alter_ne in Hy by done. apply (Hlo i); [lia|done].
  - intros i Hi Hlt. rewrite list_lookup_alter_ne by lia. apply Hhi; lia.
Qed.

Lemma respondent_step (np_log : num -> num) (d : gmap string pyval)
    (pathology_type : option string) (Gamma : list num) (Vbeta : ndarray num)
    (X : ndarray num) (R T A L : nat) (resp : nat)
    (YB : ndarray num * ndarray num) (t : tape)
    (YB' : ndarray num * ndarray num) (t' : tape) :
  d !! "X" = Some (VArr X) -> shape X = [R; T; A; L] ->
  d !! "T" = Some (VInt T) ->
  resp < R ->
  filled R T A (resp * T) YB.1 ->
  run (respondent np_log d pathology_type Gamma Vbeta resp YB) t
    = Some (Ok YB', t') ->
  filled R T A (S resp * T) YB'.1.
Proof.
  intros HX Hsh HT Hresp Hfill H. unfold respondent in H. cbv zeta in H.
  apply run_mbind_Ok in H as (C & t0 & E & H).
  apply run_get_int_Ok in E as [HC ->].
  destruct (1 <? C) eqn:Hguard; [done|]. apply Nat.ltb_ge in Hguard.
  apply run_mbind_Ok in H as (beta0 & t0 & _ & H).
  apply run_mbind_Ok in H as (beta & t1 & _ & H).
  rewrite (get_int_lookup _ _ _ HT) in H.
  apply run_mbind_Ok in H as (T0 & t2 & E & H). inversion E; subst T0 t2; clear E.
  apply run_mbind_Ok in H as (Y' & t2 & Hloop & H).
  apply run_mbind_Ok in H as (Beta' & t3 & _ & H).
  inversion H; subst YB' t3; clear H. simpl.
  replace (T + resp * T) with (resp * T + T) by lia.
  apply (run_for_range (fun j Y => filled R T A (resp * T + j) Y)
           (scenario np_log d beta resp) T YB.1 t1 Y' t2);
    [|by rewrite Nat.add_0_r|exact Hloop].
  intros scn Y0 ta Y1 tb Hscn HI Hrun.
  destruct HI as (HshY & HI').
  eapply scenario_step in Hrun as (c & Hc & _ & _ & ->); try done.
  replace (resp * T + S scn) with (S (resp * T + scn)) by lia.
  apply filled_step; [nia|done|done].
Qed.

(** C4. On a bundle whose design [X] has the shape [[R, T, A, L]] and whose
    fields [R], [T], [A] hold these numbers, every run of
    [compute_beta_response] that returns has stored under [Y] an integer
    array of shape [[R, T]] with [R * T] entries, each of them in
    [{1, ..., A}]. *)
Theorem responses_in_range (np_log : num -> num) (data_dict : loc)
    (pathology_type : option string) (h : gmap loc (gmap string pyval))
    (d : gmap string pyval) (X : ndarray num) (R T A L : nat)
    (t : tape) (l' : loc) (h' : gmap loc (gmap string pyval)) (t' : tape) :
  h !! data_dict = Some d ->
  d !! "X" = Some (VArr X) -> shape X = [R; T; A; L] ->
  d !! "R" = Some (VInt R) -> d !! "T" = Some (VInt T) ->
  d !! "A" = Some (VInt A) ->
  run (compute_beta_response np_log data_dict pathology_type h) t
    = Some (Ok (l', h'), t') ->
  exists d' Y,
    h' !! l' = Some d'
    /\ d' !! "Y" = Some (VIntArr Y)
    /\ shape Y = [R; T]
    /\ length (data Y) = R * T
    /\ Forall (fun y => (1 <= y <= Z.of_nat A)%Z) (data Y).
Proof.
  intros Hd HX Hsh HR HT HA H.
  apply compute_beta_response_returns in H
    as (d0 & C & L0 & R0 & T0 & Gamma & Y & Beta & t1 & t2 & d' & Hd0 & HC & HL
        & HR0 & HT0 & _ & Hloop & -> & -> & Hd').
  assert (d0 = d) as -> by congruence.
  assert (R0 = R) as -> by congruence.
  assert (T0 = T) as -> by congruence.
  assert (Hfill : filled R T A (R * T) Y).
  { apply (run_for_range (fun r (YB : ndarray num * ndarray num) =>
                            filled R T A (r * T) YB.1)
             (respondent np_log d pathology_type Gamma (make_Vbeta L0)) R
             (np_zeros [R; T], np_zeros [L0; R]) t1 (Y, Beta) t2);
      [|apply filled_zeros|exact Hloop].
    intros r YB ta YB' tb Hr HI Hrun.
    eapply respondent_step; eauto. }
  destruct Hfill as (HshY & HlenY & Hlo & _).
  exists d', (astype_int Y). split; [by rewrite lookup_insert_eq|].
  split.
  { destruct Hd' as [(_ & w & _ & ->)|(_ & ->)]; unfold with_results;
      rewrite ?lookup_insert_ne by done; by rewrite lookup_insert_eq. }
  unfold astype_int. simpl. split; [done|]. split; [by rewrite length_fmap|].
  apply Forall_fmap. apply Forall_lookup. intros i y Hy. simpl.
  apply (Hlo i y); [|done]. apply lookup_lt_Some in Hy. lia.
Qed.

(** ** The noise of one scenario *)

Lemma imap_const_index {A B : Type} (f : A -> B) (g : nat -> A -> B) (l : list A) :
  (forall i x, g i x = f x) -> imap g l = f <$> l.
Proof.
  revert g. induction l as [|x l IH]; intros g Hg; [done|].
  csimpl. rewrite Hg. f_equal. apply IH. intros i y. apply Hg.
Qed.

Lemma broadcast_sub_one (A : nat) (xb : list num) (g : num) :
  length xb = A ->
  broadcast_sub (mk_ndarray [A] xb) [g]
  = Ret (mk_ndarray [A] ((fun x => nsub x g) <$> xb)).
Proof.
  intros Hxb. unfold broadcast_sub. cbn [shape data length].
  change (reverse [A]) with [A]. cbv beta iota zeta.
  destruct (A =? 1) eqn:E; [|reflexivity].
  do 2 f_equal. apply imap_const_index. intros i x.
  by rewrite Nat.mod_1_r.
Qed.

(** One turn of the scenario loop with one covariate: a single uniform value
    is consumed, and the term computed from it is subtracted from the
    utility of every alternative. *)
Lemma scenario_run (np_log : num -> num) (d : gmap string pyval)
    (X : ndarray num) (R T A L : nat) (beta : list num) (resp scn : nat)
    (Y : ndarray num) (u : num) (t : tape) :
  d !! "X" = Some (VArr X) -> shape X = [R; T; A; L] ->
  d !! "C" = Some (VInt 1) ->
  resp < R -> scn < T -> length beta = L -> shape Y = [R; T] ->
  in_range 0 1 u = true ->
  run (scenario np_log d beta resp scn Y) (SNums [u] :: t)
  = record_choice R T Y resp scn
      ((fun x => nsub x (np_log (nneg (np_log u))))
         <$> utilities X T A L beta resp scn) t.
Proof.
  intros HX Hsh HC Hresp Hscn Hbeta HY Hu. unfold scenario.
  rewrite (get_arr_lookup _ _ _ HX), (get_int_lookup _ _ _ HC).
  rewrite run_mbind. cbn [run]. rewrite run_mbind.
  unfold index2. rewrite Hsh.
  apply Nat.ltb_lt in Hresp, Hscn. rewrite Hresp, Hscn. cbn [andb run].
  rewrite run_mbind. unfold np_dot. cbn [shape data].
  change (reverse [A; L]) with [L; A]. cbv beta iota zeta.
  rewrite Hbeta, Nat.eqb_refl. change (reverse [A]) with [A]. cbn [run].
  rewrite run_mbind. cbn [run]. rewrite run_mbind.
  cbn [run np_random_uniform length Nat.eqb forallb]. rewrite Hu. cbn [andb run].
  rewrite run_mbind.
  change (log_neg_log np_log [u]) with [np_log (nneg (np_log u))].
  unfold size_of. cbn [foldr]. rewrite !Nat.mul_1_r.
  change ((fun i => inner (take L (drop (i * L)
                                     (take (A * L)
                                        (drop ((resp * T + scn) * (A * L)) (data X)))))
                      beta) <$> seq 0 A)
    with (utilities X T A L beta resp scn).
  rewrite broadcast_sub_one
    by (unfold utilities; by rewrite length_fmap, length_seq).
  cbn [run]. rewrite run_mbind.
  unfold np_argmax, record_choice. cbn [data].
  destruct ((fun x => nsub x (np_log (nneg (np_log u))))
              <$> utilities X T A L beta resp scn) as [|x xs];
    [reflexivity|].
  cbn [run]. unfold iadd_item2. rewrite HY, Hresp, Hscn. reflexivity.
Qed.

Lemma is_nan_shift (x : num) (g : Q) : is_nan (nsub x (Fin g)) = is_nan x.
Proof. by destruct x. Qed.

Lemma ngt_shift (x y : num) (g : Q) :
  ngt (nsub x (Fin g)) (nsub y (Fin g)) = ngt x y.
Proof.
  destruct x as [a| | |], y as [b| | |]; try reflexivity. simpl. f_equal.
  destruct (Qle_bool a b) eqn:E.
  - apply Qle_bool_iff. apply Qle_bool_iff in E. by apply Qplus_le_l.
  - destruct (Qle_bool (a + - g) (b + - g)) eqn:E'; [|done].
    apply Qle_bool_iff in E'. apply Qplus_le_l in E'.
    apply Qle_bool_iff in E'. congruence.
Qed.

(** Subtracting the same finite term from every entry does not move the
    arg-max. *)
Lemma argmax_from_shift (g : Q) (xs : list num) (best_i : nat) (best : num)
    (i : nat) :
  argmax_from best_i (nsub best (Fin g)) i ((fun x => nsub x (Fin g)) <$> xs)
  = argmax_from best_i best i xs.
Proof.
  revert best_i best i. induction xs as [|x xs IH]; intros best_i best i; [done|].
  csimpl. rewrite !is_nan_shift, ngt_shift.
  destruct (negb (is_nan best) && (is_nan x || ngt x best)); apply IH.
Qed.

Lemma record_choice_shift (R T : nat) (Y : ndarray num) (resp scn : nat)
    (g : Q) (U : list num) (t : tape) :
  record_choice R T Y resp scn ((fun x => nsub x (Fin g)) <$> U) t
  = record_choice R T Y resp scn U t.
Proof.
  destruct U as [|x xs]; [done|]. unfold record_choice. csimpl.
  by rewrite argmax_from_shift.
Qed.

(** C1, what the code does. With one covariate (the only supported number),
    a turn of the scenario loop consumes one uniform value [u], and the one
    term [log(-log(u))] is subtracted from the utility of every alternative:
    the alternatives of a scenario share one draw. So whenever that term is
    finite the recorded choice is the arg-max of the utilities without
    noise. *)
Theorem noise_is_shared_by_all_alternatives (np_log : num -> num)
    (d : gmap string pyval) (X : ndarray num) (R T A L : nat)
    (beta : list num) (resp scn : nat) (Y : ndarray num) (u : num) (t : tape) :
  d !! "X" = Some (VArr X) -> shape X = [R; T; A; L] ->
  d !! "C" = Some (VInt 1) ->
  resp < R -> scn < T -> length beta = L -> shape Y = [R; T] ->
  in_range 0 1 u = true ->
  run (scenario np_log d beta resp scn Y) (SNums [u] :: t)
  = record_choice R T Y resp scn
      ((fun x => nsub x (np_log (nneg (np_log u))))
         <$> utilities X T A L beta resp scn) t
  /\ (finite (np_log (nneg (np_log u))) ->
      run (scenario np_log d beta resp scn Y) (SNums [u] :: t)
      = record_choice R T Y resp scn (utilities X T A L beta resp scn) t).
Proof.
  intros HX Hsh HC Hresp Hscn Hbeta HY Hu.
  pose proof (scenario_run np_log d X R T A L beta resp scn Y u t
                HX Hsh HC Hresp Hscn Hbeta HY Hu) as Hrun.
  split; [exact Hrun|].
  intros Hfin. rewrite Hrun.
  destruct (np_log (nneg (np_log u))) as [g| | |]; try done.
  apply record_choice_shift.
Qed.

(** ** The statements on concrete bundles *)

Lemma compute_beta_response_frame_witness :
  exists h',
    run (compute_beta_response (fun x => x) 0 (Some "ANA") small_heap) small_tape
      = Some (Ok (0, h'), [])
    /\ 0 = 0
    /\ exists d d',
         small_heap !! 0 = Some d
         /\ h' = <[0 := d']> small_heap
         /\ (forall k, k ∈ design_fields -> d' !! k = d !! k)
         /\ (forall k, k ∉ result_fields -> k <> "w" -> d' !! k = d !! k)
         /\ (forall k, k ∈ result_fields -> is_Some (d' !! k))
         /\ (Some "ANA" = Some "ANA" -> is_Some (d' !! "w"))
         /\ (Some "ANA" <> Some "ANA" -> d' !! "w" = d !! "w").
Proof.
  eexists. split; [vm_compute; reflexivity|].
  apply (compute_beta_response_frame (fun x => x) 0 (Some "ANA") small_heap
           small_tape 0 _ []).
  vm_compute. reflexivity.
Defined.

Lemma responses_in_range_witness :
  exists h',
    run (compute_beta_response (fun x => x) 0 (Some "ANA") small_heap) small_tape
      = Some (Ok (0, h'), [])
    /\ exists d' Y,
         h' !! 0 = Some d'
         /\ d' !! "Y" = Some (VIntArr Y)
         /\ shape Y = [1; 1]
         /\ length (data Y) = 1 * 1
         /\ Forall (fun y => (1 <= y <= Z.of_nat 2)%Z) (data Y).
Proof.
  eexists. split; [vm_compute; reflexivity|].
  apply (responses_in_range (fun x => x) 0 (Some "ANA") small_heap small_design
           (mk_ndarray [1; 1; 2; 1] [Fin 1; Fin 0]) 1 1 2 1 small_tape 0 _ []);
    vm_compute; reflexivity.
Defined.

Lemma guard_bypassed_without_respondents_witness :
  (exists l d0,
     generate_simulated_design 0 10 4 12 2 ∅ = Ret (l, <[l := d0]> ∅)
     /\ (∅ : gmap loc (gmap string pyval)) !! l = None
     /\ d0 !! "X" = Some (VArr (mk_ndarray [0; 10; 4; 12] []))
     /\ d0 !! "Z" = Some (VArr (mk_ndarray [0; 2] []))
     /\ d0 !! "R" = Some (VInt 0) /\ d0 !! "C" = Some (VInt 2))
  /\ (forall t r t',
        run (compute_beta_response (fun x => x) 0 (Some "ANA")
               (<[0 := empty_design]> ∅)) t = Some (r, t') ->
        exists h', r = Ok (0, h'))
  /\ (exists t h',
        run (compute_beta_response (fun x => x) 0 (Some "ANA")
               (<[0 := empty_design]> ∅)) t = Some (Ok (0, h'), [])).
Proof.
  apply (guard_bypassed_without_respondents (fun x => x) 10 4 12 ∅ 0
           (Some "ANA") (<[0 := empty_design]> ∅) empty_design 12 10);
    vm_compute; reflexivity.
Defined.

(** C3, with no respondent: the design generator asked for two covariates
    returns a bundle, and the response simulator run on that bundle returns
    too; neither raises. *)
Lemma two_covariates_without_respondents_return :
  generate_simulated_design 0 10 4 12 2 ∅ = Ret (0, <[0 := empty_design]> ∅)
  /\ exists h',
       run (compute_beta_response (fun x => x) 0 None (<[0 := empty_design]> ∅))
           [SNums (replicate 24 (Fin 0))] = Some (Ok (0, h'), []).
Proof.
  split; [vm_compute; reflexivity|]. eexists. vm_compute. reflexivity.
Qed.

(** C3, amended. With more than one covariate and at least one respondent,
    [generate_simulated_design] raises [NotImplementedError] without drawing
    anything, and every replay of [compute_beta_response] on a bundle with
    these [C] and [R] raises [NotImplementedError] (after [Gamma] has been
    drawn); such a replay exists, and none returns a bundle. *)
Theorem guard_raises_with_a_respondent (np_log : num -> num)
    (n nscns nalts nlvls ncovs : nat) (h0 : gmap loc (gmap string pyval))
    (data_dict : loc) (pathology_type : option string)
    (h : gmap loc (gmap string pyval)) (d : gmap string pyval) (L T : nat) :
  1 < ncovs ->
  h !! data_dict = Some d ->
  d !! "R" = Some (VInt (S n)) -> d !! "C" = Some (VInt ncovs) ->
  d !! "L" = Some (VInt L) -> d !! "T" = Some (VInt T) ->
  generate_simulated_design (S n) nscns nalts nlvls ncovs h0
    = Raise NotImplementedError
  /\ (forall t, run (generate_simulated_design (S n) nscns nalts nlvls ncovs h0) t
                = Some (Raised NotImplementedError, t))
  /\ (forall t r t',
        run (compute_beta_response np_log data_dict pathology_type h) t
          = Some (r, t') ->
        r = Raised NotImplementedError)
  /\ (exists t,
        run (compute_beta_response np_log data_dict pathology_type h) t
          = Some (Raised NotImplementedError, [])).
Proof.
  intros Hgt Hd HR HC HL HT.
  pose proof (design_guard_raises n nscns nalts nlvls ncovs h0 Hgt) as Hdesign.
  split; [exact Hdesign|]. split; [intros t; by rewrite Hdesign|]. split.
  - intros t r t' H.
    rewrite (compute_beta_response_guard _ _ _ _ _ _ _ _ _ _ Hd HR HC HL HT Hgt)
      in H.
    destruct t as [|[| |xs|] t1]; try done.
    destruct ((length xs =? ncovs * L) && forallb (in_range (-3) 4) xs); [|done].
    by inversion H.
  - exists [SNums (replicate (ncovs * L) (Fin 0))].
    rewrite (compute_beta_response_guard _ _ _ _ _ _ _ _ _ _ Hd HR HC HL HT Hgt).
    by rewrite forallb_and_length_zeros.
Qed.

Lemma guard_raises_with_a_respondent_witness :
  generate_simulated_design 1 10 4 12 2 ∅ = Raise NotImplementedError
  /\ (forall t, run (generate_simulated_design 1 10 4 12 2 ∅) t
                = Some (Raised NotImplementedError, t))
  /\ (forall t r t',
        run (compute_beta_response (fun x => x) 0 None
               (<[0 := two_covariates_design]> ∅)) t = Some (r, t') ->
        r = Raised NotImplementedError)
  /\ (exists t,
        run (compute_beta_response (fun x => x) 0 None
               (<[0 := two_covariates_design]> ∅)) t
          = Some (Raised NotImplementedError, [])).
Proof.
  apply (guard_raises_with_a_respondent (fun x => x) 0 10 4 12 2 ∅ 0 None
           (<[0 := two_covariates_design]> ∅) two_covariates_design 1 1);
    [lia | vm_compute; reflexivity ..].
Defined.

Lemma noise_is_shared_by_all_alternatives_witness :
  run (scenario (fun x => x) small_design [Fin (3 # 2)] 0 0 (np_zeros [1; 1]))
      [SNums [Fin (1 # 3)]]
  = record_choice 1 1 (np_zeros [1; 1]) 0 0
      ((fun x => nsub x (nneg (Fin (1 # 3))))
         <$> utilities (mk_ndarray [1; 1; 2; 1] [Fin 1; Fin 0]) 1 2 1
               [Fin (3 # 2)] 0 0) []
  /\ (finite (nneg (Fin (1 # 3))) ->
      run (scenario (fun x => x) small_design [Fin (3 # 2)] 0 0 (np_zeros [1; 1]))
          [SNums [Fin (1 # 3)]]
      = record_choice 1 1 (np_zeros [1; 1]) 0 0
          (utilities (mk_ndarray [1; 1; 2; 1] [Fin 1; Fin 0]) 1 2 1
             [Fin (3 # 2)] 0 0) []).
Proof.
  apply (noise_is_shared_by_all_alternatives (fun x => x) small_design
           (mk_ndarray [1; 1; 2; 1] [Fin 1; Fin 0]) 1 1 2 1 [Fin (3 # 2)] 0 0
           (np_zeros [1; 1]) (Fin (1 # 3)) []);
    first [lia | vm_compute; reflexivity].
Defined.

(** On [small_design] with [beta = [3/2]] the utilities are [3/2] and [0]:
    whatever uniform value is drawn and whatever [np.log] returns on it, the
    first alternative is recorded. Independent draws for the two
    alternatives would let the second one win for some draws. *)
Lemma small_design_choice_is_fixed (np_log : num -> num) (u : num) (t : tape) :
  in_range 0 1 u = true ->
  run (scenario np_log small_design [Fin (3 # 2)] 0 0 (np_zeros [1; 1]))
      (SNums [u] :: t)
  = Some (Ok (mk_ndarray [1; 1] [nadd (Fin 0) (of_int 1)]), t).
Proof.
  intros Hu.
  rewrite (scenario_run np_log small_design
             (mk_ndarray [1; 1; 2; 1] [Fin 1; Fin 0]) 1 1 2 1 [Fin (3 # 2)] 0 0
             (np_zeros [1; 1]) u t) by first [lia | done].
  destruct (np_log (nneg (np_log u))) as [g| | |]; try reflexivity.
  rewrite record_choice_shift. reflexivity.
Qed.

(** The same on the whole of [compute_beta_response]: on [small_heap], with
    [Gamma = [2]] and [beta = [3/2]] drawn, the choice stored is 1 for every
    uniform value and every [np.log]. *)
Lemma small_design_run_is_fixed (np_log : num -> num) (u : num) :
  in_range 0 1 u = true ->
  exists h' d',
    run (compute_beta_response np_log 0 None small_heap)
        [SNums [Fin 2]; SNums [Fin (3 # 2)]; SNums [u]] = Some (Ok (0, h'), [])
    /\ h' !! 0 = Some d'
    /\ d' !! "Y" = Some (VIntArr (mk_ndarray [1; 1] [1%Z])).
Proof.
  intros Hu. eexists _, _. split; [|split].
  - unfold compute_beta_response.
    change (small_heap !! 0) with (Some small_design). cbv beta iota.
    change (get_int small_design "C") with (@Ret nat 1).
    change (get_int small_design "L") with (@Ret nat 1).
    change (get_int small_design "R") with (@Ret nat 1).
    change (get_int small_design "T") with (@Ret nat 1).
    do 2 step_ret. rewrite run_mbind. cbn [run np_random_uniform].
    change ((length [Fin 2] =? 1 * 1) && forallb (in_range (-3) 4) [Fin 2]) with true.
    cbn [run]. do 6 step_ret. rewrite run_mbind.
    unfold for_range. simpl seq. rewrite !for_each_cons. cbn [for_each].
    rewrite run_mbind. unfold respondent at 1.
    change (get_int small_design "C") with (@Ret nat 1).
    change (get_int small_design "T") with (@Ret nat 1).
    step_ret. change (1 <? 1) with false. cbv iota.
    rewrite run_mbind. cbn [run np_random_multivariate_normal].
    change (valid_mvn [Fin 2] (make_Vbeta 1)) with true.
    change ((length [Fin (3 # 2)] =? length [Fin 2]) && forallb is_finite [Fin (3 # 2)])
      with true.
    cbn [run truthy]. do 2 step_ret. rewrite run_mbind.
    unfold for_range. simpl seq. rewrite !for_each_cons. cbn [for_each fst snd].
    rewrite run_mbind. rewrite (small_design_choice_is_fixed np_log u [] Hu).
    cbn [run]. rewrite run_mbind. cbn [run].
    reflexivity.
  - apply lookup_insert_eq.
  - vm_compute. reflexivity.
Qed.

(** * Further properties *)

(** ** More on [pathology] *)

Lemma run_choice_Ok {A : Type} (pop : list Z) (p : list Q) (k : Z -> prog A)
    (t : tape) (a : A) (t' : tape) :
  run (Choice pop p k) t = Some (Ok a, t') ->
  exists i x t1, t = SIdx [i] :: t1 /\ pick pop p i = Some x
                 /\ run (k x) t1 = Some (Ok a, t').
Proof.
  cbn [run]. destruct (valid_p pop p); [|done].
  destruct t as [|[[|i [|]]| | |] t1]; try done.
  destruct (pick pop p i) as [x|] eqn:E; [|done].
  intros H. by exists i, x, t1.
Qed.

Lemma run_randint_Ok {A : Type} (h : nat) (k : nat -> prog A) (t : tape)
    (a : A) (t' : tape) :
  run (Randint h k) t = Some (Ok a, t') ->
  exists i t1, t = SNat i :: t1 /\ i < h /\ run (k i) t1 = Some (Ok a, t').
Proof.
  cbn [run]. destruct (h =? 0); [done|].
  destruct t as [|[|i| |] t1]; try done.
  destruct (i <? h) eqn:E; [|done]. apply Nat.ltb_lt in E.
  intros H. by exists i, t1.
Qed.

Lemma length_fill_from (k : nat) (x : num) (v : list num) :
  length (fill_from k x v) = length v.
Proof.
  unfold fill_from. rewrite length_app, length_fmap, length_take, length_drop. lia.
Qed.

Lemma length_fill_to (k : nat) (x : num) (v : list num) :
  length (fill_to k x v) = length v.
Proof.
  unfold fill_to. rewrite length_app, length_fmap, length_take, length_drop. lia.
Qed.

Lemma length_np_ones_like (beta : list num) :
  length (np_ones_like beta) = length beta.
Proof. unfold np_ones_like. by rewrite length_fmap. Qed.

Lemma run_set_last_Ok (v : num) (beta : list num) (t : tape) (out : list num)
    (t' : tape) :
  run (set_last v beta) t = Some (Ok out, t') ->
  out = <[length beta - 1 := v]> beta /\ beta <> [] /\ t' = t.
Proof.
  destruct beta as [|b beta]; [done|]. cbn [set_last run].
  intros H. by inversion H.
Qed.

Lemma run_set_item_Ok (i : nat) (v : num) (beta : list num) (t : tape)
    (out : list num) (t' : tape) :
  run (set_item i v beta) t = Some (Ok out, t') ->
  out = <[i := v]> beta /\ i < length beta /\ t' = t.
Proof.
  unfold set_item. destruct (i <? length beta) eqn:E; [|done].
  apply Nat.ltb_lt in E. cbn [run]. intros H. by inversion H.
Qed.

(** The seven branches of [pathology], one equation each. *)
Lemma pathology_cases (beta : list num) (kind : string) (prob : list Q) :
  (kind = "none" /\ pathology beta kind prob = Ret beta)
  \/ (kind = "ANA"
      /\ pathology beta kind prob
         = (mask ← np_random_choice_n [1%Z; 0%Z] (length beta) prob;
            Ret (imul beta (of_int <$> mask))))
  \/ (kind = "screening"
      /\ pathology beta kind prob = set_last (of_int (-10000)) beta)
  \/ (kind = "screening_inf" /\ pathology beta kind prob = set_last NInf beta)
  \/ (kind = "screening_random"
      /\ pathology beta kind prob
         = (c ← np_random_choice [1%Z; 0%Z] prob;
            if negb (c =? 0)%Z then
              i ← np_random_randint (length beta);
              set_item i (of_int (-10000)) beta
            else Ret beta))
  \/ (kind = "ANA_systematic"
      /\ pathology beta kind prob
         = Ret (imul beta (fill_from (length beta / 2) (Fin 0) (np_ones_like beta))))
  \/ (kind = "ANA_random"
      /\ pathology beta kind prob
         = (c ← np_random_choice [1%Z; 0%Z] prob;
            if negb (c =? 0)%Z then
              Ret (imul beta (fill_to (length beta / 2) (Fin 0) (np_ones_like beta)))
            else Ret beta))
  \/ ((kind ∉ enumerated_kinds) /\ pathology beta kind prob = Ret beta).
Proof.
  unfold pathology.
  destruct (String.eqb_spec kind "none") as [->|N1]; [left; done|].
  destruct (String.eqb_spec kind "ANA") as [->|N2]; [right; left; done|].
  destruct (String.eqb_spec kind "screening") as [->|N3];
    [right; right; left; done|].
  destruct (String.eqb_spec kind "screening_inf") as [->|N4];
    [right; right; right; left; done|].
  destruct (String.eqb_spec kind "screening_random") as [->|N5];
    [right; right; right; right; left; done|].
  destruct (String.eqb_spec kind "ANA_systematic") as [->|N6];
    [right; right; right; right; right; left; done|].
  destruct (String.eqb_spec kind "ANA_random") as [->|N7];
    [right; right; right; right; right; right; left; done|].
  do 7 right. split; [|done]. unfold enumerated_kinds. intros H.
  repeat (apply elem_of_cons in H as [H|H]; [done|]).
  by apply elem_of_nil in H.
Qed.

Lemma run_choice_inv {A : Type} (pop : list Z) (p : list Q) (k : Z -> prog A)
    (t : tape) (r : result A) (t' : tape) :
  run (Choice pop p k) t = Some (r, t') ->
  (valid_p pop p = false /\ r = Raised ValueError /\ t' = t)
  \/ (valid_p pop p = true
      /\ exists i x t1, t = SIdx [i] :: t1 /\ pick pop p i = Some x
                        /\ run (k x) t1 = Some (r, t')).
Proof.
  cbn [run]. destruct (valid_p pop p).
  - destruct t as [|[[|i [|]]| | |] t1]; try done.
    destruct (pick pop p i) as [x|] eqn:E; [|done].
    intros H. right. split; [done|]. by exists i, x, t1.
  - intros H. inversion H. by left.
Qed.

Lemma run_choice_n_inv {A : Type} (pop : list Z) (n : nat) (p : list Q)
    (k : list Z -> prog A) (t : tape) (r : result A) (t' : tape) :
  run (ChoiceN pop n p k) t = Some (r, t') ->
  (valid_p pop p = false /\ r = Raised ValueError /\ t' = t)
  \/ (valid_p pop p = true
      /\ exists idx xs t1, t = SIdx idx :: t1 /\ mapM (pick pop p) idx = Some xs
                           /\ length xs = n /\ run (k xs) t1 = Some (r, t')).
Proof.
  cbn [run]. destruct (valid_p pop p).
  - destruct t as [|[idx| | |] t1]; try done.
    destruct (mapM (pick pop p) idx) as [xs|] eqn:E; [|done].
    destruct (length xs =? n) eqn:El; [|done]. apply Nat.eqb_eq in El.
    intros H. right. split; [done|]. by exists idx, xs, t1.
  - intros H. inversion H. by left.
Qed.

Lemma run_randint_inv {A : Type} (h : nat) (k : nat -> prog A) (t : tape)
    (r : result A) (t' : tape) :
  run (Randint h k) t = Some (r, t') ->
  (h = 0 /\ r = Raised ValueError /\ t' = t)
  \/ (exists i t1, t = SNat i :: t1 /\ i < h /\ run (k i) t1 = Some (r, t')).
Proof.
  cbn [run]. destruct (h =? 0) eqn:Eh.
  - apply Nat.eqb_eq in Eh. intros H. inversion H. by left.
  - destruct t as [|[|i| |] t1]; try done.
    destruct (i <? h) eqn:E; [|done]. apply Nat.ltb_lt in E.
    intros H. right. by exists i, t1.
Qed.

(** What a call of [pathology] can come to: a vector of the length of the
    input, [ValueError] from [choice] on weights that it rejects or from
    [randint(0)], or [IndexError] from [beta[-1]] on the empty vector. *)
Lemma pathology_outcome (beta : list num) (kind : string) (prob : list Q)
    (t : tape) (r : result (list num)) (t' : tape) :
  run (pathology beta kind prob) t = Some (r, t') ->
  match r with
  | Ok out => length out = length beta
  | Raised e =>
      (e = ValueError /\ kind ∈ random_kinds
       /\ valid_p [1%Z; 0%Z] prob = false /\ t' = t)
      \/ (e = ValueError /\ kind = "screening_random" /\ beta = [])
      \/ (e = IndexError /\ (kind = "screening" \/ kind = "screening_inf")
          /\ beta = [] /\ t' = t)
  end.
Proof.
  intros H.
  destruct (pathology_cases beta kind prob)
    as [[Hk E]|[[Hk E]|[[Hk E]|[[Hk E]|[[Hk E]|[[Hk E]|[[Hk E]|[Hk E]]]]]]]];
    rewrite E in H; clear E.
  - by inversion H.
  - apply run_choice_n_inv in H
      as [(Hv & -> & ->)|(_ & idx & xs & t1 & -> & _ & Hl & H)].
    + left. subst kind. repeat split; try done. unfold random_kinds.
      repeat constructor.
    + inversion H; subst r t1. apply length_imul. by rewrite length_fmap.
  - destruct beta as [|b beta]; cbn [set_last run] in H; inversion H; subst r t'.
    + right. right. repeat split; try done. by left.
    + by rewrite length_insert.
  - destruct beta as [|b beta]; cbn [set_last run] in H; inversion H; subst r t'.
    + right. right. repeat split; try done. by right.
    + by rewrite length_insert.
  - apply run_choice_inv in H
      as [(Hv & -> & ->)|(_ & i & c & t1 & -> & _ & H)].
    + left. subst kind. repeat split; try done. unfold random_kinds.
      repeat constructor.
    + destruct (negb (c =? 0)%Z); [|by inversion H].
      apply run_randint_inv in H as [(Hl & -> & _)|(j & t2 & -> & Hj & H)].
      * right. left. repeat split; try done. by destruct beta.
      * unfold set_item in H. apply Nat.ltb_lt in Hj. rewrite Hj in H.
        inversion H. by rewrite length_insert.
  - inversion H. apply length_imul.
    by rewrite length_fill_from, length_np_ones_like.
  - apply run_choice_inv in H
      as [(Hv & -> & ->)|(_ & i & c & t1 & -> & _ & H)].
    + left. subst kind. repeat split; try done. unfold random_kinds.
      repeat constructor.
    + destruct (negb (c =? 0)%Z); inversion H; [|done].
      apply length_imul. by rewrite length_fill_to, length_np_ones_like.
  - by inversion H.
Qed.

(** X1. Whatever the kind and the weights, a call of [pathology] that
    returns gives a vector of the length of its input. *)
Theorem pathology_preserves_length (beta : list num) (kind : string)
    (prob : list Q) (t : tape) (out : list num) (t' : tape) :
  run (pathology beta kind prob) t = Some (Ok out, t') ->
  length out = length beta.
Proof. intros H. exact (pathology_outcome beta kind prob t (Ok out) t' H). Qed.

Lemma pathology_preserves_length_witness :
  length [Fin 5; Fin (-10000)] = length [Fin 5; Fin 3].
Proof.
  apply (pathology_preserves_length [Fin 5; Fin 3] "screening_random"
           [(1 # 4)%Q; (3 # 4)%Q] [SIdx [0]; SNat 1] [Fin 5; Fin (-10000)] []).
  vm_compute. reflexivity.
Defined.



Lemma nmul_0_0 (b : num) : nmul (nmul b (Fin 0)) (Fin 0) = nmul b (Fin 0).
Proof.
  destruct b as [q| | |]; try reflexivity.
  destruct q as [n d]. unfold nmul, Qmult. cbn [Qnum Qden]. f_equal.
  by rewrite !Z.mul_0_r, !Pos.mul_1_r.
Qed.

Lemma set_last_twice (v : num) (beta : list num) :
  (set_last v beta ≫= set_last v) = set_last v beta.
Proof.
  destruct beta as [|b beta]; [done|].
  cbn [set_last mbind prog_bind bind].
  remember (<[length (b :: beta) - 1 := v]> (b :: beta)) as out eqn:E.
  assert (Hl : length out = length (b :: beta)) by (subst out; apply length_insert).
  destruct out as [|o out]; [done|].
  cbn [set_last]. rewrite Hl, E. by rewrite list_insert_insert_eq.
Qed.

(** X3. The kinds that do not draw are idempotent: applying ['screening'],
    ['screening_inf'], ['ANA_systematic'], ['none'] or an unknown kind to the
    result of the same kind gives that result again (and the same
    [IndexError] on the empty vector), for every vector, finite or not. *)
Theorem pathology_fixed_kinds_idempotent (beta : list num) (kind : string)
    (prob prob' : list Q) :
  kind ∈ fixed_kinds \/ kind ∉ enumerated_kinds ->
  (pathology beta kind prob ≫= fun out => pathology out kind prob')
  = pathology beta kind prob.
Proof.
  intros Hk.
  destruct (pathology_cases beta kind prob)
    as [[-> E]|[[-> _]|[[-> E]|[[-> E]|[[-> _]|[[-> E]|[[-> _]|[Hu E]]]]]]]].
  - by rewrite E.
  - exfalso. destruct Hk as [Hk|Hk].
    + unfold fixed_kinds in Hk.
      repeat (apply elem_of_cons in Hk as [Hk|Hk]; [discriminate Hk|]).
      by apply elem_of_nil in Hk.
    + apply Hk. unfold enumerated_kinds. repeat constructor.
  - rewrite E. apply set_last_twice.
  - rewrite E. apply set_last_twice.
  - exfalso. destruct Hk as [Hk|Hk].
    + unfold fixed_kinds in Hk.
      repeat (apply elem_of_cons in Hk as [Hk|Hk]; [discriminate Hk|]).
      by apply elem_of_nil in Hk.
    + apply Hk. unfold enumerated_kinds. repeat constructor.
  - rewrite E. cbn [mbind prog_bind bind].
    unfold pathology. cbn [String.eqb Ascii.eqb Bool.eqb]. f_equal.
    rewrite !imul_fill_from.
    set (k := length beta / 2).
    assert (Hk' : k <= length beta) by (apply Nat.Div0.div_le_upper_bound; lia).
    assert (Hlen : length (take k beta ++ ((fun b => nmul b (Fin 0)) <$> drop k beta))
                   = length beta).
    { rewrite length_app, length_fmap, length_take, length_drop. lia. }
    rewrite Hlen. fold k.
    rewrite take_app_le by (rewrite length_take; lia).
    rewrite take_take, Nat.min_id.
    rewrite drop_app_length' by (rewrite length_take; lia).
    f_equal. rewrite <- list_fmap_compose. apply list_fmap_ext.
    intros i b _. apply nmul_0_0.
  - exfalso. destruct Hk as [Hk|Hk].
    + unfold fixed_kinds in Hk.
      repeat (apply elem_of_cons in Hk as [Hk|Hk]; [discriminate Hk|]).
      by apply elem_of_nil in Hk.
    + apply Hk. unfold enumerated_kinds. repeat constructor.
  - rewrite E. cbn [mbind prog_bind bind]. by apply pathology_unknown.
Qed.

Lemma pathology_fixed_kinds_idempotent_witness :
  (pathology [Fin 1; PInf; Fin 3; NInf] "ANA_systematic" default_prob
     ≫= fun out => pathology out "ANA_systematic" default_prob)
  = pathology [Fin 1; PInf; Fin 3; NInf] "ANA_systematic" default_prob.
Proof.
  apply (pathology_fixed_kinds_idempotent [Fin 1; PInf; Fin 3; NInf]
           "ANA_systematic" default_prob default_prob).
  left. unfold fixed_kinds. repeat constructor.
Defined.

(** X4. On the empty vector ['screening_random'] has no index to draw: with
    probability [prob[0]] the call raises [ValueError] (from [randint(0)]),
    and with probability [prob[1]] it returns the empty vector. *)
Theorem screening_random_on_empty (p0 p1 : Q)
    (ev : result (list num) -> bool) :
  (0 <= p0)%Q -> (0 <= p1)%Q -> (p0 + p1 == 1)%Q ->
  exists q,
    pr (pathology [] "screening_random" [p0; p1]) ev = Some q
    /\ (q == p0 * indicator (ev (Raised ValueError))
             + p1 * indicator (ev (Ok [])))%Q.
Proof.
  intros H0 H1 Hs. pose proof (valid_p_two p0 p1 H0 H1 Hs) as Hv.
  unfold pathology. cbn [String.eqb Ascii.eqb Bool.eqb].
  change (pr (c ← np_random_choice [1%Z; 0%Z] [p0; p1];
              if negb (c =? 0)%Z
              then i ← np_random_randint (length (@nil num));
                   set_item i (of_int (-10000)) []
              else Ret []) ev)
    with (if valid_p [1%Z; 0%Z] [p0; p1]
          then oplus (oscale p0 (Some (indicator (ev (Raised ValueError)))))
                     (oplus (oscale p1 (Some (indicator (ev (Ok [])))))
                            (Some 0%Q))
          else Some (indicator (ev (Raised ValueError)))).
  rewrite Hv. simpl. eexists. split; [reflexivity|]. ring.
Qed.

Lemma screening_random_on_empty_witness :
  exists q,
    pr (pathology [] "screening_random" [(1 # 4)%Q; (3 # 4)%Q])
       (fun r => match r with Raised ValueError => true | _ => false end) = Some q
    /\ (q == (1 # 4) * indicator true + (3 # 4) * indicator false)%Q.
Proof.
  apply (screening_random_on_empty (1 # 4) (3 # 4)
           (fun r => match r with Raised ValueError => true | _ => false end));
    [discriminate | discriminate | reflexivity].
Defined.

(** X5. The only failures of [pathology]: [ValueError] when a kind that
    draws is given weights that [choice] rejects, [ValueError] when
    ['screening_random'] has to draw an index of the empty vector, and
    [IndexError] when ['screening'] or ['screening_inf'] is applied to the
    empty vector. With weights that [choice] accepts and a vector that is
    not empty no call raises. *)
Theorem pathology_failures (beta : list num) (kind : string) (prob : list Q)
    (t : tape) (e : exn) (t' : tape) :
  run (pathology beta kind prob) t = Some (Raised e, t') ->
  (e = ValueError /\ kind ∈ random_kinds /\ valid_p [1%Z; 0%Z] prob = false)
  \/ (e = ValueError /\ kind = "screening_random" /\ beta = [])
  \/ (e = IndexError /\ (kind = "screening" \/ kind = "screening_inf")
      /\ beta = []).
Proof.
  intros H. apply pathology_outcome in H.
  destruct H as [(H1 & H2 & H3 & _)|[H|(H1 & H2 & H3 & _)]]; auto.
Qed.

Lemma pathology_failures_witness :
  (IndexError = ValueError /\ "screening_inf" ∈ random_kinds
   /\ valid_p [1%Z; 0%Z] default_prob = false)
  \/ (IndexError = ValueError /\ "screening_inf" = "screening_random"
      /\ @nil num = [])
  \/ (IndexError = IndexError
      /\ ("screening_inf" = "screening" \/ "screening_inf" = "screening_inf")
      /\ @nil num = []).
Proof.
  apply (pathology_failures [] "screening_inf" default_prob [] IndexError []).
  reflexivity.
Defined.

(** ** Runs that may raise, and loops with the tape in the invariant *)

Lemma run_mbind_inv {A B : Type} (m : prog A) (f : A -> prog B) (t : tape)
    (r : result B) (t' : tape) :
  run (m ≫= f) t = Some (r, t') ->
  (exists a t1, run m t = Some (Ok a, t1) /\ run (f a) t1 = Some (r, t'))
  \/ (exists e, run m t = Some (Raised e, t') /\ r = Raised e).
Proof.
  rewrite run_mbind. destruct (run m t) as [[[a|e] t1]|]; try done.
  - intros H. left. by exists a, t1.
  - intros H. inversion H; subst. right. by exists e.
Qed.

(** A loop none of whose turns raises does not raise, and keeps the
    invariant, which may speak of the tape left. *)
Lemma run_for_each_safe {St : Type} (J : nat -> St -> tape -> Prop)
    (body : nat -> St -> prog St) (n a : nat) (s : St) (t : tape)
    (r : result St) (t' : tape) :
  (forall i s0 t0 r1 t1, a <= i < a + n -> J i s0 t0 ->
     run (body i s0) t0 = Some (r1, t1) ->
     exists s1, r1 = Ok s1 /\ J (S i) s1 t1) ->
  J a s t ->
  run (for_each (seq a n) body s) t = Some (r, t') ->
  exists s', r = Ok s' /\ J (a + n) s' t'.
Proof.
  revert a s t. induction n as [|n IH]; intros a s t Hstep Ha H.
  - simpl in H. inversion H; subst. exists s. by rewrite Nat.add_0_r.
  - simpl seq in H. rewrite for_each_cons in H.
    apply run_mbind_inv in H as [(s1 & t1 & H1 & H2)|(e & H1 & ->)].
    + destruct (Hstep a s t (Ok s1) t1 ltac:(lia) Ha H1) as (s1' & E & HJ).
      inversion E; subst s1'.
      replace (a + S n) with (S a + n) by lia.
      apply (IH (S a) s1 t1); [|done|done].
      intros i s0 t0 r1 t2 Hi. apply Hstep. lia.
    + destruct (Hstep a s t (Raised e) t' ltac:(lia) Ha H1) as (s1' & E & _).
      discriminate E.
Qed.

Lemma run_for_range_safe {St : Type} (J : nat -> St -> tape -> Prop)
    (body : nat -> St -> prog St) (n : nat) (s : St) (t : tape)
    (r : result St) (t' : tape) :
  (forall i s0 t0 r1 t1, i < n -> J i s0 t0 ->
     run (body i s0) t0 = Some (r1, t1) ->
     exists s1, r1 = Ok s1 /\ J (S i) s1 t1) ->
  J 0 s t ->
  run (for_range n body s) t = Some (r, t') ->
  exists s', r = Ok s' /\ J n s' t'.
Proof.
  intros Hstep H0 H. unfold for_range in H.
  apply (run_for_each_safe J body n 0 s t r t'); try done.
  intros i s0 t0 r1 t1 Hi. apply Hstep. lia.
Qed.

(** The same for the turns that return, without asking that none raises. *)
Lemma run_for_range_tape {St : Type} (J : nat -> St -> tape -> Prop)
    (body : nat -> St -> prog St) (n : nat) (s : St) (t : tape) (s' : St)
    (t' : tape) :
  (forall i s0 t0 s1 t1, i < n -> J i s0 t0 ->
     run (body i s0) t0 = Some (Ok s1, t1) -> J (S i) s1 t1) ->
  J 0 s t ->
  run (for_range n body s) t = Some (Ok s', t') ->
  J n s' t'.
Proof.
  intros Hstep H0 H. unfold for_range in H.
  assert (G : forall a s t, (forall i s0 t0 s1 t1, a <= i < a + n -> J i s0 t0 ->
                 run (body i s0) t0 = Some (Ok s1, t1) -> J (S i) s1 t1) ->
              J a s t ->
              run (for_each (seq a n) body s) t = Some (Ok s', t') ->
              J (a + n) s' t').
  { clear. induction n as [|n IH]; intros a s t Hstep Ha H.
    - simpl in H. inversion H; subst. rewrite Nat.add_0_r. exact Ha.
    - simpl seq in H. rewrite for_each_cons in H.
      apply run_mbind_Ok in H as (s1 & t1 & H1 & H2).
      replace (a + S n) with (S a + n) by lia.
      apply (IH (S a) s1 t1); [|eapply (Hstep a); [lia|exact Ha|exact H1]|exact H2].
      intros i s0 t0 s2 t2 Hi. apply Hstep. lia. }
  apply (G 0 s t); try done. intros i s0 t0 s1 t1 Hi. apply Hstep. lia.
Qed.

(** ** The design generator *)

Lemma nadd_0_l (x : num) : nadd (Fin 0) x = x.
Proof.
  destruct x as [q| | |]; try reflexivity.
  destruct q as [n d]. unfold nadd, Qplus. cbn [Qnum Qden]. f_equal.
  by rewrite Z.mul_1_r.
Qed.

Lemma pick_bit (i : nat) (x : Z) :
  pick [0%Z; 1%Z] [(1 # 2)%Q; (1 # 2)%Q] i = Some x ->
  i < 2 /\ x = Z.of_nat i.
Proof.
  destruct i as [|[|i]]; intros H; vm_compute in H; inversion H;
    (split; [lia|reflexivity]).
Qed.

Lemma mapM_pick_bits (idx : list nat) (xs : list Z) :
  mapM (pick [0%Z; 1%Z] [(1 # 2)%Q; (1 # 2)%Q]) idx = Some xs ->
  Forall (fun i => i < 2) idx /\ xs = Z.of_nat <$> idx.
Proof.
  intros H. apply mapM_Some_1 in H.
  induction H as [|i x idx xs Hix _ [IH1 IH2]]; [done|].
  apply pick_bit in Hix as [Hi ->]. split; [by constructor|].
  by rewrite IH2.
Qed.

Lemma zip_with_nadd_zeros (n : nat) (block : list num) :
  length block = n ->
  zip_with nadd (replicate n (Fin 0)) block = block.
Proof.
  revert n. induction block as [|b block IH]; intros [|n] Hl; try done.
  cbn [replicate zip_with]. rewrite nadd_0_l. f_equal. apply IH. simpl in Hl. lia.
Qed.

Lemma design_scenario_step (R T A L : nat) (t0 : tape) (resp scn : nat)
    (X : ndarray num) (t : tape) (r : result (ndarray num)) (t' : tape) :
  resp < R -> scn < T ->
  design_filled R T A L t0 (resp * T + scn) X t ->
  run (X_scn ← np_random_choice_n [0%Z; 1%Z] (A * L) [(1 # 2)%Q; (1 # 2)%Q];
       iadd_index2 X resp scn (of_int <$> X_scn)) t = Some (r, t') ->
  exists X', r = Ok X' /\ design_filled R T A L t0 (S (resp * T + scn)) X' t'.
Proof.
  intros Hresp Hscn (Hsh & blocks & Ht0 & Hlen & Hbl & Hdata) H.
  apply run_mbind_inv in H as [(xs & t1 & Hd & H)|(e & Hd & _)];
    cbn [np_random_choice_n run] in Hd;
    change (valid_p [0%Z; 1%Z] [(1 # 2)%Q; (1 # 2)%Q]) with true in Hd;
    cbv iota in Hd;
    (destruct t as [|[idx| | |] ta]; try done);
    (destruct (mapM (pick [0%Z; 1%Z] [(1 # 2)%Q; (1 # 2)%Q]) idx) as [ys|] eqn:Em;
       [|done]);
    (destruct (length ys =? A * L) eqn:El; [|done]); [|done].
  inversion Hd; subst ys ta; clear Hd.
  apply Nat.eqb_eq in El. apply mapM_pick_bits in Em as [Hbits ->].
  rewrite length_fmap in El.
  set (m := resp * T + scn) in *. set (n := A * L) in *.
  assert (Hm : m < R * T) by (unfold m; nia).
  unfold iadd_index2 in H. rewrite Hsh in H.
  apply Nat.ltb_lt in Hresp, Hscn. rewrite Hresp, Hscn in H. cbn [andb] in H.
  unfold size_of in H. cbn [foldr] in H. rewrite Nat.mul_1_r in H.
  fold n in H. fold m in H. rewrite !length_fmap, El, Nat.eqb_refl in H.
  cbn [run] in H. inversion H; subst r t'; clear H.
  eexists. split; [reflexivity|]. split; [done|].
  exists (blocks ++ [idx]). cbn [data].
  assert (Hpre : length (bit_of <$> concat blocks) = m * n).
  { rewrite length_fmap. clear -Hlen Hbl. subst m. revert Hlen Hbl.
    generalize (resp * T + scn). intros k Hlen Hbl. subst k.
    induction Hbl as [|b bs [Hb _] _ IH]; [done|].
    simpl. rewrite length_app, IH, Hb. lia. }
  split; [|split; [|split]].
  - rewrite Ht0, fmap_app, <- app_assoc. done.
  - rewrite length_app, Hlen. simpl. lia.
  - apply Forall_app. split; [done|]. by repeat constructor.
  - rewrite Hdata.
    rewrite take_app_length' by done.
    rewrite drop_app_length' by done.
    rewrite (drop_app_add' _ _ (m * n) n) by done.
    rewrite take_replicate.
    replace (n `min` ((R * T - m) * n)) with n by nia.
    rewrite zip_with_nadd_zeros by (by rewrite !length_fmap).
    rewrite drop_replicate.
    rewrite concat_app, fmap_app. cbn [concat]. rewrite app_nil_r, <- app_assoc.
    f_equal. rewrite <- list_fmap_compose. f_equal.
    f_equal. fold n. nia.
Qed.

Lemma covariates_zeros (C R : nat) : covariates_filled C R 0 (np_zeros [C; R]).
Proof.
  unfold covariates_filled, np_zeros, size_of. cbn [shape data foldr].
  rewrite length_replicate, Nat.mul_1_r. repeat split.
  intros idx x Hx. apply lookup_replicate in Hx as [-> _]. done.
Qed.

Lemma covariates_step (C R resp : nat) (Z : ndarray num) (t : tape)
    (r : result (ndarray num)) (t' : tape) :
  resp < R -> covariates_filled C R resp Z ->
  run (iadd_column_scalar Z resp (Fin 1)) t = Some (r, t') ->
  exists Z', r = Ok Z' /\ t' = t /\ covariates_filled C R (S resp) Z'.
Proof.
  intros Hresp (Hsh & Hlen & Hval) H. unfold iadd_column_scalar in H.
  rewrite Hsh in H. pose proof Hresp as Hlt. apply Nat.ltb_lt in Hlt.
  rewrite Hlt in H. cbn [run] in H. inversion H; subst r t'; clear H.
  eexists. split; [reflexivity|]. split; [done|].
  unfold covariates_filled. cbn [shape data].
  split; [done|]. split; [by rewrite length_imap|].
  intros idx x Hx. rewrite list_lookup_imap in Hx.
  destruct (data Z !! idx) as [y|] eqn:Ey; [|done].
  cbn [fmap option_fmap option_map] in Hx. injection Hx as <-.
  rewrite (Hval idx y Ey).
  destruct (idx mod R =? resp) eqn:E.
  - apply Nat.eqb_eq in E. rewrite E.
    replace (resp <? resp) with false by (symmetry; apply Nat.ltb_ge; lia).
    replace (resp <? S resp) with true by (symmetry; apply Nat.ltb_lt; lia).
    reflexivity.
  - apply Nat.eqb_neq in E.
    destruct (idx mod R <? resp) eqn:E1.
    + apply Nat.ltb_lt in E1.
      replace (idx mod R <? S resp) with true by (symmetry; apply Nat.ltb_lt; lia).
      done.
    + apply Nat.ltb_ge in E1.
      replace (idx mod R <? S resp) with false by (symmetry; apply Nat.ltb_ge; lia).
      done.
Qed.

Lemma length_bind_const {A B : Type} (f : A -> list B) (k : nat) (l : list A) :
  (forall x, length (f x) = k) -> length (l ≫= f) = length l * k.
Proof.
  intros Hf. induction l as [|x l IH]; [done|].
  rewrite bind_cons, length_app, Hf, IH. simpl. lia.
Qed.

(** The transposed covariates, once every column has been set. *)
Lemma transpose_ones (C R : nat) (Z : ndarray num) :
  covariates_filled C R R Z ->
  shape (transpose Z) = [R; C]
  /\ length (data (transpose Z)) = R * C
  /\ Forall (fun x => x = Fin 1) (data (transpose Z)).
Proof.
  intros (Hsh & Hlen & Hval). unfold transpose. rewrite Hsh. cbn [shape data].
  split; [done|]. split.
  - rewrite (length_bind_const _ C), length_seq; [done|].
    intros j. rewrite (length_bind_const _ 1), length_seq; [lia|done].
  - apply Forall_bind. apply Forall_forall. intros j Hj.
    apply elem_of_seq in Hj.
    apply Forall_bind. apply Forall_forall. intros i Hi.
    apply elem_of_seq in Hi. apply Forall_singleton.
    assert (Hin : i * R + j < length (data Z)) by (rewrite Hlen; nia).
    apply lookup_lt_is_Some in Hin as [x Hx]. rewrite Hx. cbn [default].
    rewrite (Hval _ _ Hx).
    replace ((i * R + j) mod R <? R) with true; [done|].
    symmetry. apply Nat.ltb_lt. apply Nat.mod_upper_bound. lia.
Qed.

Lemma design_scenario_loop (R T A L : nat) (t0 : tape) (resp : nat)
    (X : ndarray num) (t : tape) (r : result (ndarray num)) (t' : tape) :
  resp < R ->
  design_filled R T A L t0 (resp * T) X t ->
  run (for_range T (fun scn X =>
         X_scn ← np_random_choice_n [0%Z; 1%Z] (A * L) [(1 # 2)%Q; (1 # 2)%Q];
         iadd_index2 X resp scn (of_int <$> X_scn)) X) t = Some (r, t') ->
  exists X', r = Ok X' /\ design_filled R T A L t0 (S resp * T) X' t'.
Proof.
  intros Hresp HX H.
  apply (run_for_range_safe
           (fun scn X t => design_filled R T A L t0 (resp * T + scn) X t))
    in H as (X' & E & HX').
  - exists X'. split; [done|].
    by replace (S resp * T) with (resp * T + T) by lia.
  - intros scn X0 t2 r2 t3 Hscn HX0 Hstep.
    replace (resp * T + S scn) with (S (resp * T + scn)) by lia.
    by apply (design_scenario_step R T A L t0 resp scn X0 t2 r2 t3).
  - by rewrite Nat.add_0_r.
Qed.

(** With at most one covariate the generator does not raise; it consumes
    one sample per (respondent, scenario) pair and stores the blocks drawn,
    in that order. *)
Lemma design_run (R T A L C : nat) (h : gmap loc (gmap string pyval))
    (t0 : tape) (r : result (loc * gmap loc (gmap string pyval))) (t' : tape) :
  C <= 1 ->
  run (generate_simulated_design R T A L C h) t0 = Some (r, t') ->
  exists X Z,
    r = Ok (fresh (dom h),
            <[fresh (dom h) := design_bundle X (transpose Z) A R C T L]> h)
    /\ design_filled R T A L t0 (R * T) X t'
    /\ covariates_filled C R R Z.
Proof.
  intros HC H. unfold generate_simulated_design in H. cbv zeta in H.
  apply Nat.ltb_ge in HC. rewrite HC in H.
  assert (Hloop : forall r0 t1,
            run (for_range R
                   (fun resp (XZ : ndarray num * ndarray num) =>
                      X ← for_range T (fun scn X =>
                             X_scn ← np_random_choice_n [0%Z; 1%Z] (A * L)
                                       [(1 # 2)%Q; (1 # 2)%Q];
                             iadd_index2 X resp scn (of_int <$> X_scn)) XZ.1;
                      Z ← iadd_column_scalar XZ.2 resp (Fin 1);
                      Ret (X, Z))
                   (np_zeros [R; T; A; L], np_zeros [C; R])) t0 = Some (r0, t1) ->
            exists XZ, r0 = Ok XZ
                       /\ design_filled R T A L t0 (R * T) XZ.1 t1
                       /\ covariates_filled C R R XZ.2).
  { intros r0 t1 Hrun.
    apply (run_for_range_safe
             (fun r (XZ : ndarray num * ndarray num) t =>
                design_filled R T A L t0 (r * T) XZ.1 t
                /\ covariates_filled C R r XZ.2)) in Hrun
      as (XZ & E & HX & HZ); [by exists XZ| |].
    - intros resp [X Z] ta r1 tb Hresp [HX HZ] Hstep. cbn [fst snd] in *.
      apply run_mbind_inv in Hstep as [(X' & tc & Hin & Hstep)|(e & Hin & _)];
        apply (design_scenario_loop R T A L t0 resp X ta) in Hin
          as (X'' & E & HX'); try done.
      inversion E; subst X''.
      apply run_mbind_inv in Hstep as [(Z' & td & Hz & Hstep)|(e & Hz & _)];
        apply (covariates_step C R resp) in Hz as (Z'' & E' & -> & HZ');
        try done.
      inversion E'; subst Z''. cbn [run] in Hstep.
      inversion Hstep; subst r1 tb. eexists. split; [reflexivity|]. done.
    - cbn [fst snd]. split; [|apply covariates_zeros].
      unfold design_filled. split; [done|]. exists [].
      repeat split; [done|].
      unfold np_zeros, size_of. cbn [data foldr fmap list_fmap concat app].
      f_equal. lia. }
  apply run_mbind_inv in H as [(XZ & t1 & Hrun & H)|(e & Hrun & _)];
    apply Hloop in Hrun as (XZ' & E & HX & HZ); [|done].
  inversion E; subst XZ'. cbn [run] in H. inversion H; subst r t1.
  exists XZ.1, XZ.2. done.
Qed.

Lemma dom_design_bundle (X Z : ndarray num) (A R C T L : nat) :
  dom (design_bundle X Z A R C T L) = list_to_set design_fields.
Proof.
  unfold design_bundle, design_fields. rewrite !dom_insert_L, dom_empty_L.
  cbn [list_to_set foldr]. reflexivity.
Qed.

Lemma length_concat_blocks (n : nat) (blocks : list (list nat)) :
  Forall (design_block n) blocks -> length (concat blocks) = length blocks * n.
Proof.
  induction 1 as [|b bs [Hb _] _ IH]; [done|].
  simpl. rewrite length_app, IH, Hb. lia.
Qed.

Lemma bits_of_blocks (n : nat) (blocks : list (list nat)) :
  Forall (design_block n) blocks ->
  Forall (fun x => x = Fin 0 \/ x = Fin 1) (bit_of <$> concat blocks).
Proof.
  intros H. apply Forall_fmap. apply Forall_concat.
  eapply Forall_impl; [exact H|]. intros b [_ Hb].
  eapply Forall_impl; [exact Hb|]. intros i Hi. simpl.
  destruct i as [|[|i]]; [by left|by right|lia].
Qed.

(** X6. With at most one covariate [generate_simulated_design] never raises.
    It returns a reference that was free in the heap, leaves every other
    object as it was, and the dict at that reference has exactly the seven
    fields [X], [Z], [A], [R], [C], [T], [L], the five scalars being the
    arguments of the call. *)
Theorem design_generator_returns_fresh_bundle (R T A L C : nat)
    (h : gmap loc (gmap string pyval)) (t : tape)
    (r : result (loc * gmap loc (gmap string pyval))) (t' : tape) :
  C <= 1 ->
  run (generate_simulated_design R T A L C h) t = Some (r, t') ->
  exists l d,
    r = Ok (l, <[l := d]> h)
    /\ h !! l = None
    /\ dom d = list_to_set design_fields
    /\ d !! "A" = Some (VInt A) /\ d !! "R" = Some (VInt R)
    /\ d !! "C" = Some (VInt C) /\ d !! "T" = Some (VInt T)
    /\ d !! "L" = Some (VInt L).
Proof.
  intros HC H. apply design_run in H as (X & Z & -> & _ & _); [|done].
  eexists _, _. split; [reflexivity|].
  split; [apply not_elem_of_dom, is_fresh|].
  split; [apply dom_design_bundle|]. by repeat split.
Qed.

Lemma design_generator_returns_fresh_bundle_witness :
  exists (l : loc) (d : gmap string pyval),
    Ok (0, small_heap) = Ok (l, <[l := d]> (∅ : gmap loc (gmap string pyval)))
    /\ (∅ : gmap loc (gmap string pyval)) !! l = None
    /\ dom d = list_to_set design_fields
    /\ d !! "A" = Some (VInt 2) /\ d !! "R" = Some (VInt 1)
    /\ d !! "C" = Some (VInt 1) /\ d !! "T" = Some (VInt 1)
    /\ d !! "L" = Some (VInt 1).
Proof.
  apply (design_generator_returns_fresh_bundle 1 1 2 1 1 ∅ [SIdx [1; 0]]
           (Ok (0, small_heap)) []);
    [lia | vm_compute; reflexivity].
Defined.

(** X7. With at most one covariate, a run of the generator consumes exactly
    one sample per (respondent, scenario) pair, each of [A * L] indices into
    [[0, 1]], and the [X] of the bundle has the shape [[R, T, A, L]] and is
    the row-major concatenation of these samples in the order of the loops;
    so it has [R * T * A * L] entries, each 0 or 1. *)
Theorem design_is_the_drawn_blocks (R T A L C : nat)
    (h : gmap loc (gmap string pyval)) (t : tape) (l : loc)
    (h' : gmap loc (gmap string pyval)) (t' : tape) :
  C <= 1 ->
  run (generate_simulated_design R T A L C h) t = Some (Ok (l, h'), t') ->
  exists d blocks,
    h' !! l = Some d
    /\ t = (SIdx <$> blocks) ++ t'
    /\ length blocks = R * T
    /\ Forall (design_block (A * L)) blocks
    /\ d !! "X" = Some (VArr (mk_ndarray [R; T; A; L] (bit_of <$> concat blocks)))
    /\ length (bit_of <$> concat blocks) = R * T * (A * L)
    /\ Forall (fun x => x = Fin 0 \/ x = Fin 1) (bit_of <$> concat blocks).
Proof.
  intros HC H.
  apply design_run in H as (X & Z & E & (Hsh & blocks & Ht & Hlen & Hbl & Hdata) & _);
    [|done].
  inversion E; subst l h'; clear E.
  eexists _, blocks. split; [apply lookup_insert_eq|].
  split; [done|]. split; [done|]. split; [done|]. split.
  - unfold design_bundle. rewrite lookup_insert_eq. do 2 f_equal.
    destruct X as [sh dt]. cbn [shape data] in *. subst sh.
    rewrite Hdata, Nat.sub_diag. cbn [Nat.mul replicate]. by rewrite app_nil_r.
  - split; [|by apply (bits_of_blocks (A * L))].
    by rewrite length_fmap, (length_concat_blocks (A * L)), Hlen.
Qed.

Lemma design_is_the_drawn_blocks_witness :
  exists (d : gmap string pyval) blocks,
    small_heap !! 0 = Some d
    /\ [SIdx [1; 0]] = (SIdx <$> blocks) ++ []
    /\ length blocks = 1 * 1
    /\ Forall (design_block (2 * 1)) blocks
    /\ d !! "X" = Some (VArr (mk_ndarray [1; 1; 2; 1] (bit_of <$> concat blocks)))
    /\ length (bit_of <$> concat blocks) = 1 * 1 * (2 * 1)
    /\ Forall (fun x => x = Fin 0 \/ x = Fin 1) (bit_of <$> concat blocks).
Proof.
  apply (design_is_the_drawn_blocks 1 1 2 1 1 ∅ [SIdx [1; 0]] 0 small_heap []);
    [lia | vm_compute; reflexivity].
Defined.

(** X8. With at most one covariate, the [Z] of the bundle that the generator
    returns has the shape [[R, C]] and all of its [R * C] entries are 1. *)
Theorem design_covariates_are_ones (R T A L C : nat)
    (h : gmap loc (gmap string pyval)) (t : tape) (l : loc)
    (h' : gmap loc (gmap string pyval)) (t' : tape) :
  C <= 1 ->
  run (generate_simulated_design R T A L C h) t = Some (Ok (l, h'), t') ->
  exists d Z,
    h' !! l = Some d
    /\ d !! "Z" = Some (VArr Z)
    /\ shape Z = [R; C]
    /\ length (data Z) = R * C
    /\ Forall (fun x => x = Fin 1) (data Z).
Proof.
  intros HC H. apply design_run in H as (X & Z & E & _ & HZ); [|done].
  inversion E; subst l h'; clear E.
  eexists _, (transpose Z). split; [apply lookup_insert_eq|].
  split; [done|]. by apply transpose_ones.
Qed.

Lemma design_covariates_are_ones_witness :
  exists (d : gmap string pyval) Z,
    small_heap !! 0 = Some d
    /\ d !! "Z" = Some (VArr Z)
    /\ shape Z = [1; 1]
    /\ length (data Z) = 1 * 1
    /\ Forall (fun x => x = Fin 1) (data Z).
Proof.
  apply (design_covariates_are_ones 1 1 2 1 1 ∅ [SIdx [1; 0]] 0 small_heap []);
    [lia | vm_compute; reflexivity].
Defined.

(** ** Every outcome of [compute_beta_response] *)

Lemma forallb_Forall_true {A : Type} (f : A -> bool) (l : list A) :
  forallb f l = true -> Forall (fun x => f x = true) l.
Proof.
  induction l as [|x l IH]; [done|]. simpl.
  intros H. apply andb_true_iff in H as [H1 H2]. constructor; auto.
Qed.

(** On a bundle whose four dimension fields are integers, a run draws
    [Gamma], runs the loop over the respondents, and either passes on what
    the loop raised or writes the results (drawing [w] for ['ANA']). *)
Lemma compute_beta_response_run (np_log : num -> num) (data_dict : loc)
    (pathology_type : option string) (h : gmap loc (gmap string pyval))
    (d : gmap string pyval) (C L R T : nat) (t : tape)
    (r : result (loc * gmap loc (gmap string pyval))) (t' : tape) :
  h !! data_dict = Some d ->
  d !! "C" = Some (VInt C) -> d !! "L" = Some (VInt L) ->
  d !! "R" = Some (VInt R) -> d !! "T" = Some (VInt T) ->
  run (compute_beta_response np_log data_dict pathology_type h) t = Some (r, t') ->
  exists Gamma t1,
    t = SNums Gamma :: t1
    /\ length Gamma = C * L
    /\ Forall (fun x => in_range (-3) 4 x = true) Gamma
    /\ ((exists e,
           run (respondents_loop np_log d pathology_type Gamma R T L) t1
             = Some (Raised e, t')
           /\ r = Raised e)
        \/ (exists Y Beta t2,
              run (respondents_loop np_log d pathology_type Gamma R T L) t1
                = Some (Ok (Y, Beta), t2)
              /\ ((pathology_type = Some "ANA"
                   /\ exists ks,
                        t2 = SInts ks :: t'
                        /\ length ks = T
                        /\ Forall (fun k => k <= 1) ks
                        /\ r = Ok (data_dict,
                                   <[data_dict :=
                                       <["w" := VIntArr (mk_ndarray [length ks]
                                                           (Z.of_nat <$> ks))]>
                                         (with_results d Y Beta Gamma (make_Vbeta L))]> h))
                  \/ (pathology_type <> Some "ANA"
                      /\ t2 = t'
                      /\ r = Ok (data_dict,
                                 <[data_dict :=
                                     with_results d Y Beta Gamma (make_Vbeta L)]> h))))).
Proof.
  intros Hd HC HL HR HT H. unfold compute_beta_response in H. rewrite Hd in H.
  rewrite (get_int_lookup _ _ _ HC), (get_int_lookup _ _ _ HL),
    (get_int_lookup _ _ _ HR), (get_int_lookup _ _ _ HT) in H.
  rewrite run_mbind in H; cbn [run] in H.
  rewrite run_mbind in H; cbn [run] in H.
  rewrite run_mbind in H. cbn [run np_random_uniform] in H.
  destruct t as [|[| |Gamma|] t1]; try done.
  destruct ((length Gamma =? C * L) && forallb (in_range (-3) 4) Gamma) eqn:EG;
    [|done].
  apply andb_true_iff in EG as [EG1 EG2]. apply Nat.eqb_eq in EG1.
  apply forallb_Forall_true in EG2.
  cbn [run] in H.
  do 6 (rewrite run_mbind in H; cbn [run] in H).
  rewrite run_mbind in H.
  fold (respondents_loop np_log d pathology_type Gamma R T L) in H.
  exists Gamma, t1. repeat (split; [done|]).
  destruct (run (respondents_loop np_log d pathology_type Gamma R T L) t1)
    as [[[[Y Beta]|e] t2]|]; [|inversion H; subst; left; by exists e|done].
  right. exists Y, Beta, t2. split; [done|].
  cbn [fst snd] in H. rewrite run_mbind in H.
  fold (with_results d Y Beta Gamma (make_Vbeta L)) in H.
  case_bool_decide as Hana.
  - left. split; [done|].
    assert (HT' : with_results d Y Beta Gamma (make_Vbeta L) !! "T" = Some (VInt T)).
    { unfold with_results. by rewrite !lookup_insert_ne by done. }
    rewrite run_mbind, (get_int_lookup _ _ _ HT') in H. cbn [run] in H.
    rewrite run_mbind in H. cbn [run np_random_binomial] in H.
    change (Qle_bool 0 (1 # 2) && Qle_bool (1 # 2) 1) with true in H.
    cbv iota in H.
    destruct t2 as [|[| | |ks] t3]; try done.
    destruct ((length ks =? T) && forallb (fun j => j <=? 1) ks) eqn:Ek; [|done].
    apply andb_true_iff in Ek as [Ek1 Ek2]. apply Nat.eqb_eq in Ek1.
    apply forallb_Forall_true in Ek2.
    cbn [run] in H. inversion H; subst r t3; clear H.
    exists ks. split; [done|]. split; [done|]. split.
    + eapply Forall_impl; [exact Ek2|]. intros k Hk. cbv beta in Hk.
      by apply Nat.leb_le in Hk.
    + by rewrite length_fmap.
  - right. split; [done|]. cbn [run] in H. by inversion H.
Qed.

(** ** The columns of [Beta] *)

Lemma columns_zeros (L R : nat) : columns_filled L R [] (np_zeros [L; R]).
Proof.
  unfold columns_filled, np_zeros, size_of. cbn [shape data foldr].
  rewrite length_replicate, Nat.mul_1_r. repeat split.
  intros l j Hl Hj. rewrite lookup_nil. apply lookup_replicate_2. nia.
Qed.

Lemma columns_step (L R : nat) (bs : list (list num)) (Beta : ndarray num)
    (b : list num) (t : tape) (r : result (ndarray num)) (t' : tape) :
  length bs < R -> length b = L -> columns_filled L R bs Beta ->
  run (iadd_column Beta (length bs) b) t = Some (r, t') ->
  exists Beta', r = Ok Beta' /\ t' = t /\ columns_filled L R (bs ++ [b]) Beta'.
Proof.
  intros Hr Hb (Hsh & Hlen & Hcol) H. unfold iadd_column in H. rewrite Hsh in H.
  apply Nat.ltb_lt in Hr as Hr'. rewrite Hr', Hb, Nat.eqb_refl in H.
  cbn [run] in H. inversion H; subst r t'; clear H.
  eexists. split; [reflexivity|]. split; [reflexivity|].
  unfold columns_filled. cbn [shape data]. split; [done|].
  split; [by rewrite length_imap|].
  intros l j Hl Hj. rewrite list_lookup_imap, (Hcol l j Hl Hj). cbn [fmap option_fmap option_map].
  f_equal.
  replace ((l * R + j) mod R) with j
    by (rewrite Nat.add_comm, Nat.Div0.mod_add; symmetry; by apply Nat.mod_small).
  replace ((l * R + j) / R) with l
    by (rewrite Nat.add_comm, Nat.div_add by lia; rewrite Nat.div_small by lia; lia).
  destruct (j =? length bs) eqn:Ej.
  - apply Nat.eqb_eq in Ej. subst j.
    rewrite (lookup_ge_None_2 bs (length bs)) by lia.
    rewrite nadd_0_l.
    replace ((bs ++ [b]) !! length bs) with (Some b); [done|].
    symmetry. rewrite lookup_app_r by lia. by rewrite Nat.sub_diag.
  - apply Nat.eqb_neq in Ej.
    destruct (decide (j < length bs)) as [Hlt|Hge].
    + by rewrite lookup_app_l by lia.
    + rewrite (lookup_ge_None_2 bs j) by lia.
      rewrite (lookup_ge_None_2 (bs ++ [b]) j); [done|].
      rewrite length_app. simpl. lia.
Qed.

Lemma run_mvnormal_inv {A : Type} (mu : list num) (cov : ndarray num)
    (k : list num -> prog A) (t : tape) (r : result A) (t' : tape) :
  run (MvNormal mu cov k) t = Some (r, t') ->
  (valid_mvn mu cov = false /\ r = Raised ValueError /\ t' = t)
  \/ (valid_mvn mu cov = true
      /\ exists xs t1, t = SNums xs :: t1 /\ length xs = length mu
                       /\ Forall finite xs /\ run (k xs) t1 = Some (r, t')).
Proof.
  cbn [run]. destruct (valid_mvn mu cov).
  - destruct t as [|[| |xs|] t1]; try done.
    destruct ((length xs =? length mu) && forallb is_finite xs) eqn:E; [|done].
    apply andb_true_iff in E as [E1 E2]. apply Nat.eqb_eq in E1.
    apply forallb_Forall_true in E2.
    intros H. right. split; [done|]. exists xs, t1. repeat split; try done.
    eapply Forall_impl; [exact E2|]. intros x Hx. by destruct x.
  - intros H. inversion H. by left.
Qed.

Lemma valid_mvn_Vbeta (mu : list num) (L : nat) :
  valid_mvn mu (make_Vbeta L) = true -> length mu = L.
Proof.
  unfold valid_mvn, make_Vbeta. cbn [shape]. rewrite Nat.eqb_refl.
  cbn [andb]. apply Nat.eqb_eq.
Qed.

(** The vector that a turn of the loop over the respondents draws and
    passes through [pathology]. *)
Lemma respondent_draw (pathology_type : option string) (Gamma : list num)
    (L : nat) (t : tape) (b : list num) (t' : tape) :
  run (beta ← np_random_multivariate_normal Gamma (make_Vbeta L);
       if truthy pathology_type
       then pathology beta (default "" pathology_type) default_prob
       else Ret beta) t = Some (Ok b, t') ->
  length Gamma = L /\ length b = L /\ respondent_vector pathology_type L b.
Proof.
  intros H. apply run_mbind_Ok in H as (draw & t1 & Hd & H).
  apply run_mvnormal_inv in Hd as [(_ & E & _)|(Hv & xs & t2 & -> & Hl & Hf & Hd)];
    [done|].
  apply valid_mvn_Vbeta in Hv. cbn [run] in Hd. inversion Hd; subst xs t2; clear Hd.
  split; [done|]. unfold respondent_vector.
  destruct (truthy pathology_type) eqn:Etr.
  - split.
    + apply pathology_outcome in H. cbv beta iota in H. congruence.
    + exists draw. repeat split; try congruence. by exists t1, t'.
  - cbn [run] in H. inversion H; subst b t'. split; [congruence|].
    exists draw. repeat split; congruence.
Qed.

Lemma respondent_column (np_log : num -> num) (d : gmap string pyval)
    (pathology_type : option string) (Gamma : list num) (L R : nat)
    (bs : list (list num)) (YB : ndarray num * ndarray num) (t : tape)
    (YB' : ndarray num * ndarray num) (t' : tape) :
  length bs < R -> columns_filled L R bs YB.2 ->
  run (respondent np_log d pathology_type Gamma (make_Vbeta L) (length bs) YB) t
    = Some (Ok YB', t') ->
  exists b,
    length b = L /\ respondent_vector pathology_type L b
    /\ columns_filled L R (bs ++ [b]) YB'.2.
Proof.
  intros Hr Hcol H. unfold respondent in H. cbv zeta in H.
  apply run_mbind_Ok in H as (C & t0 & E & H).
  apply run_get_int_Ok in E as [HC ->].
  destruct (1 <? C) eqn:Hguard; [done|].
  apply run_mbind_Ok in H as (draw & t1 & Hd & H).
  apply run_mbind_Ok in H as (b & t2 & Hp & H).
  assert (Hb : run (beta ← np_random_multivariate_normal Gamma (make_Vbeta L);
                    if truthy pathology_type
                    then pathology beta (default "" pathology_type) default_prob
                    else Ret beta) t = Some (Ok b, t2)).
  { rewrite run_mbind, Hd. exact Hp. }
  apply respondent_draw in Hb as (_ & Hlen & Hvec).
  apply run_mbind_Ok in H as (T & t3 & _ & H).
  apply run_mbind_Ok in H as (Y' & t4 & _ & H).
  apply run_mbind_Ok in H as (Beta' & t5 & HB & H).
  cbn [run] in H. inversion H; subst YB'; clear H.
  destruct (columns_step L R bs YB.2 b t4 (Ok Beta') t5 Hr Hlen Hcol HB)
    as (Beta0 & E & _ & Hcol').
  inversion E; subst Beta0. exists b. split; [done|]. by split.
Qed.

(** After the loop over the respondents every column of [Beta] holds the
    vector of its respondent. *)
Lemma respondents_loop_columns (np_log : num -> num) (d : gmap string pyval)
    (pathology_type : option string) (Gamma : list num) (R T L : nat)
    (t : tape) (Y Beta : ndarray num) (t' : tape) :
  run (respondents_loop np_log d pathology_type Gamma R T L) t
    = Some (Ok (Y, Beta), t') ->
  exists bs,
    length bs = R
    /\ Forall (fun b => length b = L /\ respondent_vector pathology_type L b) bs
    /\ columns_filled L R bs Beta.
Proof.
  intros H. unfold respondents_loop in H.
  apply (run_for_range
           (fun r (YB : ndarray num * ndarray num) =>
              exists bs,
                length bs = r
                /\ Forall (fun b => length b = L
                                    /\ respondent_vector pathology_type L b) bs
                /\ columns_filled L R bs YB.2)
           (respondent np_log d pathology_type Gamma (make_Vbeta L)) R
           (np_zeros [R; T], np_zeros [L; R]) t (Y, Beta) t');
    [|exists []; split; [done|]; split; [constructor|apply columns_zeros]|exact H].
  intros r YB ta YB' tb Hr (bs & Hl & Hall & Hcol) Hrun. subst r.
  eapply respondent_column in Hrun as (b & Hb & Hvec & Hcol'); [|done|done].
  exists (bs ++ [b]). split; [rewrite length_app; simpl; lia|].
  split; [|done]. apply Forall_app. split; [done|]. by repeat constructor.
Qed.

(** X9. When [compute_beta_response] returns, [Beta] has the shape
    [[L, R]] and its column [r] is the vector of the respondent [r]: a draw
    of [L] finite components, as [pathology] with the default weights left
    it when a kind was given. *)
Theorem Beta_holds_the_respondents_vectors (np_log : num -> num)
    (data_dict : loc) (pathology_type : option string)
    (h : gmap loc (gmap string pyval)) (d : gmap string pyval) (L R : nat)
    (t : tape) (l' : loc) (h' : gmap loc (gmap string pyval)) (t' : tape) :
  h !! data_dict = Some d ->
  d !! "L" = Some (VInt L) -> d !! "R" = Some (VInt R) ->
  run (compute_beta_response np_log data_dict pathology_type h) t
    = Some (Ok (l', h'), t') ->
  exists d' Beta bs,
    h' !! l' = Some d'
    /\ d' !! "Beta" = Some (VArr Beta)
    /\ shape Beta = [L; R]
    /\ length (data Beta) = L * R
    /\ length bs = R
    /\ Forall (fun b => length b = L /\ respondent_vector pathology_type L b) bs
    /\ forall l r b, l < L -> bs !! r = Some b ->
         data Beta !! (l * R + r) = b !! l.
Proof.
  intros Hd HL HR H.
  apply compute_beta_response_returns in H
    as (d0 & C & L0 & R0 & T0 & Gamma & Y & Beta & t1 & t2 & d' & Hd0 & HC & HL0
        & HR0 & HT0 & _ & Hloop & -> & -> & Hd').
  assert (d0 = d) as -> by congruence.
  assert (L0 = L) as -> by congruence.
  assert (R0 = R) as -> by congruence.
  fold (respondents_loop np_log d pathology_type Gamma R T0 L) in Hloop.
  apply respondents_loop_columns in Hloop as (bs & Hlen & Hall & Hsh & HlenB & Hcol).
  exists d', Beta, bs. split; [by rewrite lookup_insert_eq|].
  split.
  { destruct Hd' as [(_ & w & _ & ->)|(_ & ->)]; unfold with_results;
      rewrite ?lookup_insert_ne by done; by rewrite lookup_insert_eq. }
  repeat (split; [done|]).
  intros l r b Hl Hb. apply lookup_lt_Some in Hb as Hr.
  rewrite (Hcol l r Hl ltac:(lia)), Hb.
  rewrite Forall_lookup in Hall. destruct (Hall r b Hb) as [Hlb _].
  destruct (b !! l) eqn:E; [done|].
  apply lookup_ge_None in E. lia.
Qed.

Lemma Beta_holds_the_respondents_vectors_witness :
  exists (d' : gmap string pyval) (Beta : ndarray num) (bs : list (list num)),
    (<[0 := <["w" := VIntArr (mk_ndarray [1] [1%Z])]>
              (with_results small_design
                 (mk_ndarray [1; 1] [nadd (Fin 0) (of_int 1)])
                 (mk_ndarray [1; 1] [nadd (Fin 0) (nmul (Fin (3 # 2)) (of_int 1))])
                 [Fin 2] (make_Vbeta 1))]> small_heap : gmap loc (gmap string pyval))
      !! 0 = Some d'
    /\ d' !! "Beta" = Some (VArr Beta)
    /\ shape Beta = [1; 1]
    /\ length (data Beta) = 1 * 1
    /\ length bs = 1
    /\ Forall (fun b => length b = 1 /\ respondent_vector (Some "ANA") 1 b) bs
    /\ forall l r b, l < 1 -> bs !! r = Some b ->
         data Beta !! (l * 1 + r) = b !! l.
Proof.
  apply (Beta_holds_the_respondents_vectors (fun x => x) 0 (Some "ANA")
           small_heap small_design 1 1 small_tape 0 _ []);
    reflexivity.
Defined.

(** ** What the kinds leave in [Beta] *)

Lemma Forall_finite_imul (beta v : list num) :
  Forall finite beta -> Forall finite v -> Forall finite (imul beta v).
Proof.
  intros Hb. revert v. induction Hb as [|x beta Hx _ IH]; intros v Hv; [constructor|].
  destruct Hv as [|y v Hy Hv]; [constructor|].
  unfold imul. cbn [zip_with]. constructor; [|by apply IH].
  destruct x, y; done.
Qed.

Lemma Forall_finite_of_int (zs : list Z) : Forall finite (of_int <$> zs).
Proof. apply Forall_fmap, Forall_forall. intros z _. exact I. Qed.

Lemma Forall_finite_ones (beta : list num) : Forall finite (np_ones_like beta).
Proof. apply Forall_fmap, Forall_forall. intros z _. exact I. Qed.

Lemma Forall_finite_fill_from (k : nat) (v : list num) :
  Forall finite v -> Forall finite (fill_from k (Fin 0) v).
Proof.
  intros H. unfold fill_from. apply Forall_app. split; [by apply Forall_take|].
  apply Forall_fmap, Forall_forall. intros z _. exact I.
Qed.

Lemma Forall_finite_fill_to (k : nat) (v : list num) :
  Forall finite v -> Forall finite (fill_to k (Fin 0) v).
Proof.
  intros H. unfold fill_to. apply Forall_app. split; [|by apply Forall_drop].
  apply Forall_fmap, Forall_forall. intros z _. exact I.
Qed.

(** Only ['screening_inf'] puts a value that is not finite into a vector of
    finite components. *)
Lemma pathology_finite (beta : list num) (kind : string) (prob : list Q)
    (t : tape) (out : list num) (t' : tape) :
  kind <> "screening_inf" -> Forall finite beta ->
  run (pathology beta kind prob) t = Some (Ok out, t') ->
  Forall finite out.
Proof.
  intros Hk Hf H.
  destruct (pathology_cases beta kind prob)
    as [[_ E]|[[_ E]|[[_ E]|[[Hk' _]|[[_ E]|[[_ E]|[[_ E]|[_ E]]]]]]]];
    [| | |done| | | |]; rewrite E in H; clear E.
  - inversion H. by subst.
  - apply run_mbind_Ok in H as (mask & t1 & _ & H). inversion H.
    apply Forall_finite_imul; [done|apply Forall_finite_of_int].
  - apply run_set_last_Ok in H as (-> & _ & _). by apply Forall_insert.
  - apply run_mbind_Ok in H as (c & t1 & _ & H).
    destruct (negb (c =? 0)%Z); [|inversion H; by subst].
    apply run_mbind_Ok in H as (i & t2 & _ & H).
    apply run_set_item_Ok in H as (-> & _ & _). by apply Forall_insert.
  - inversion H. apply Forall_finite_imul; [done|].
    apply Forall_finite_fill_from, Forall_finite_ones.
  - apply run_mbind_Ok in H as (c & t1 & _ & H).
    destruct (negb (c =? 0)%Z); inversion H; [|by subst].
    apply Forall_finite_imul; [done|].
    apply Forall_finite_fill_to, Forall_finite_ones.
  - inversion H. by subst.
Qed.

Lemma respondent_vector_finite (pathology_type : option string) (L : nat)
    (b : list num) :
  pathology_type <> Some "screening_inf" ->
  respondent_vector pathology_type L b -> Forall finite b.
Proof.
  intros Hk (draw & _ & Hf & Hb).
  destruct (truthy pathology_type) eqn:Etr; [|by subst].
  destruct Hb as (t & t' & Hb).
  apply (pathology_finite draw (default "" pathology_type) default_prob t b t');
    [|done|done].
  destruct pathology_type as [s|]; [|done]. intros E. apply Hk. f_equal. exact E.
Qed.

Lemma respondent_vector_screening (kind : string) (v : num) (L : nat)
    (b : list num) :
  (kind = "screening" /\ v = of_int (-10000))
  \/ (kind = "screening_inf" /\ v = NInf) ->
  respondent_vector (Some kind) L b ->
  1 <= L /\ b !! (L - 1) = Some v
  /\ forall l, l < L - 1 -> exists q, b !! l = Some (Fin q).
Proof.
  intros Hk (draw & Hl & Hf & Hb).
  assert (Etr : truthy (Some kind) = true) by (by destruct Hk as [[-> _]|[-> _]]).
  rewrite Etr in Hb. destruct Hb as (t & t' & Hb). cbn [default] in Hb.
  assert (Hs : run (set_last v draw) t = Some (Ok b, t'))
    by (by destruct Hk as [[-> ->]|[-> ->]]).
  apply run_set_last_Ok in Hs as (-> & Hne & _). subst L.
  assert (1 <= length draw) by (destruct draw; [done|simpl; lia]).
  split; [done|]. split; [apply list_lookup_insert_eq; lia|].
  intros l Hlt. rewrite list_lookup_insert_ne by lia.
  destruct (draw !! l) as [x|] eqn:E; [|apply lookup_ge_None in E; lia].
  rewrite Forall_lookup in Hf. specialize (Hf l x E).
  destruct x; try done. by eexists.
Qed.

Lemma respondent_vector_ANA_systematic (L : nat) (b : list num) :
  respondent_vector (Some "ANA_systematic") L b ->
  forall l, L / 2 <= l -> l < L -> exists x, b !! l = Some x /\ is_zero x.
Proof.
  intros (draw & Hl & Hf & Hb) l Hlo Hhi.
  change (truthy (Some "ANA_systematic")) with true in Hb.
  destruct Hb as (t & t' & Hb). cbn [default] in Hb.
  change (pathology draw "ANA_systematic" default_prob)
    with (@Ret (list num)
            (imul draw (fill_from (length draw / 2) (Fin 0) (np_ones_like draw))))
    in Hb.
  cbn [run] in Hb. inversion Hb; subst b t'; clear Hb. subst L.
  rewrite imul_fill_from.
  change ((Nat.divmod (length draw) 1 0 1).1) with (length draw / 2).
  assert (Hk : length draw / 2 <= length draw)
    by (apply Nat.Div0.div_le_upper_bound; lia).
  rewrite lookup_app_r by (rewrite length_take; lia).
  rewrite length_take, Nat.min_l by lia.
  rewrite list_lookup_fmap, lookup_drop.
  replace (length draw / 2 + (l - length draw / 2)) with l by lia.
  destruct (draw !! l) as [x|] eqn:E; [|apply lookup_ge_None in E; lia].
  rewrite Forall_lookup in Hf. specialize (Hf l x E).
  eexists. split; [reflexivity|]. by apply nmul_0_r.
Qed.

(** The array stored under [Beta] by a run that returns. *)
Lemma stored_Beta (np_log : num -> num) (data_dict : loc)
    (pathology_type : option string) (h : gmap loc (gmap string pyval))
    (d : gmap string pyval) (L R : nat) (t : tape) (l' : loc)
    (h' : gmap loc (gmap string pyval)) (t' : tape) :
  h !! data_dict = Some d ->
  d !! "L" = Some (VInt L) -> d !! "R" = Some (VInt R) ->
  run (compute_beta_response np_log data_dict pathology_type h) t
    = Some (Ok (l', h'), t') ->
  exists d' Beta bs,
    h' !! l' = Some d'
    /\ d' !! "Beta" = Some (VArr Beta)
    /\ length bs = R
    /\ Forall (fun b => length b = L /\ respondent_vector pathology_type L b) bs
    /\ columns_filled L R bs Beta.
Proof.
  intros Hd HL HR H.
  apply compute_beta_response_returns in H
    as (d0 & C & L0 & R0 & T0 & Gamma & Y & Beta & t1 & t2 & d' & Hd0 & HC & HL0
        & HR0 & HT0 & _ & Hloop & -> & -> & Hd').
  assert (d0 = d) as -> by congruence.
  assert (L0 = L) as -> by congruence.
  assert (R0 = R) as -> by congruence.
  fold (respondents_loop np_log d pathology_type Gamma R T0 L) in Hloop.
  apply respondents_loop_columns in Hloop as (bs & Hlen & Hall & Hcol).
  exists d', Beta, bs. split; [by rewrite lookup_insert_eq|].
  split; [|done].
  destruct Hd' as [(_ & w & _ & ->)|(_ & ->)]; unfold with_results;
    rewrite ?lookup_insert_ne by done; by rewrite lookup_insert_eq.
Qed.

(** The entry of [Beta] for the component [l] of the respondent [r]. *)
Lemma columns_filled_lookup (L R : nat) (bs : list (list num))
    (Beta : ndarray num) (l r : nat) :
  length bs = R -> Forall (fun b => length b = L) bs ->
  columns_filled L R bs Beta -> l < L -> r < R ->
  exists b, bs !! r = Some b /\ length b = L
            /\ data Beta !! (l * R + r) = b !! l.
Proof.
  intros Hlen Hall (_ & _ & Hcol) Hl Hr.
  destruct (bs !! r) as [b|] eqn:E; [|apply lookup_ge_None in E; lia].
  exists b. split; [done|].
  rewrite Forall_lookup in Hall. specialize (Hall r b E). split; [done|].
  rewrite (Hcol l r Hl Hr), E.
  destruct (b !! l) eqn:E'; [done|]. apply lookup_ge_None in E'. lia.
Qed.

(** ** One scenario *)

(** A turn of the loop over the scenarios on a bundle with one covariate
    reads one uniform value from the tape and records the choice under the
    utilities shifted by its noise term. *)
Lemma scenario_outcome (np_log : num -> num) (d : gmap string pyval)
    (X : ndarray num) (R T A L : nat) (beta : list num) (resp scn : nat)
    (Y : ndarray num) (t : tape) (r : result (ndarray num)) (t' : tape) :
  d !! "X" = Some (VArr X) -> shape X = [R; T; A; L] ->
  d !! "C" = Some (VInt 1) ->
  resp < R -> scn < T -> length beta = L -> shape Y = [R; T] ->
  run (scenario np_log d beta resp scn Y) t = Some (r, t') ->
  exists u,
    t = SNums [u] :: t' /\ in_range 0 1 u = true
    /\ record_choice R T Y resp scn
         (noisy_utilities np_log X T A L beta resp scn u) t' = Some (r, t').
Proof.
  intros HX Hsh HC Hresp Hscn Hbeta HY H.
  assert (Htape : exists u t1, t = SNums [u] :: t1 /\ in_range 0 1 u = true).
  { unfold scenario in H.
    rewrite (get_arr_lookup _ _ _ HX), (get_int_lookup _ _ _ HC) in H.
    rewrite run_mbind in H. cbn [run] in H. rewrite run_mbind in H.
    unfold index2 in H. rewrite Hsh in H.
    apply Nat.ltb_lt in Hresp, Hscn. rewrite Hresp, Hscn in H.
    cbn [andb run] in H.
    rewrite run_mbind in H. unfold np_dot in H. cbn [shape data] in H.
    change (reverse [A; L]) with [L; A] in H. cbv beta iota zeta in H.
    rewrite Hbeta, Nat.eqb_refl in H. cbn [run] in H.
    rewrite run_mbind in H. cbn [run] in H. rewrite run_mbind in H.
    cbn [run np_random_uniform] in H.
    destruct t as [|[| |[|u [|u' us]]|] t1]; try done.
    cbn [length Nat.eqb forallb] in H.
    destruct (in_range 0 1 u) eqn:Eu; [|done]. by exists u, t1. }
  destruct Htape as (u & t1 & -> & Hu).
  rewrite (scenario_run np_log d X R T A L beta resp scn Y u t1) in H by done.
  fold (noisy_utilities np_log X T A L beta resp scn u) in H.
  assert (t1 = t') as ->.
  { unfold record_choice in H.
    destruct (noisy_utilities np_log X T A L beta resp scn u); by inversion H. }
  by exists u.
Qed.

Lemma length_noisy_utilities (np_log : num -> num) (X : ndarray num)
    (T A L : nat) (b : list num) (resp scn : nat) (u : num) :
  length (noisy_utilities np_log X T A L b resp scn u) = A.
Proof.
  unfold noisy_utilities, utilities. by rewrite !length_fmap, length_seq.
Qed.

Lemma argmax_lt (U : list num) : U <> [] -> argmax U < length U.
Proof.
  destruct U as [|x xs]; [done|]. intros _. cbn [argmax length].
  pose proof (argmax_from_lt xs 0 x 1). lia.
Qed.

(** What [record_choice] returns, when it returns. *)
Lemma record_choice_Ok (R T : nat) (Y : ndarray num) (resp scn : nat)
    (U : list num) (t : tape) (Y' : ndarray num) (t' : tape) :
  record_choice R T Y resp scn U t = Some (Ok Y', t') ->
  U <> []
  /\ Y' = mk_ndarray [R; T]
            (alter (fun y => nadd y (of_int (Z.of_nat (argmax U) + 1)))
               (resp * T + scn) (data Y)).
Proof.
  unfold record_choice. destruct U as [|x xs]; [done|].
  intros H. inversion H. done.
Qed.

Lemma div_mod_cell (T resp scn : nat) :
  scn < T -> (resp * T + scn) / T = resp /\ (resp * T + scn) mod T = scn.
Proof.
  intros H. split.
  - rewrite Nat.add_comm, Nat.div_add by lia. rewrite Nat.div_small by lia. lia.
  - rewrite Nat.add_comm, Nat.Div0.mod_add. by apply Nat.mod_small.
Qed.

Lemma responses_recorded_step (np_log : num -> num) (X : ndarray num)
    (R T A L : nat) (bs : list (list num)) (b : list num) (resp scn : nat)
    (u : num) (Y : ndarray num) :
  resp < R -> scn < T -> bs !! resp = Some b -> in_range 0 1 u = true ->
  responses_recorded np_log X R T A L bs (resp * T + scn) Y ->
  responses_recorded np_log X R T A L bs (resp * T + S scn)
    (mk_ndarray [R; T]
       (alter (fun y => nadd y (of_int (choice_of np_log X T A L b resp scn u)))
          (resp * T + scn) (data Y))).
Proof.
  intros Hresp Hscn Hb Hu (Hsh & Hlen & Hlo & Hhi).
  unfold responses_recorded. cbn [shape data].
  split; [done|]. split; [by rewrite length_alter|]. split.
  - intros i Hi. destruct (decide (i = resp * T + scn)) as [->|Hne].
    + destruct (div_mod_cell T resp scn Hscn) as [-> ->].
      exists b, u. split; [done|]. split; [done|].
      rewrite list_lookup_alter, (Hhi (resp * T + scn)) by nia.
      case_decide; [|done]. cbn [fmap option_fmap option_map].
      by rewrite nadd_0_l.
    + destruct (Hlo i ltac:(lia)) as (b' & u' & H1 & H2 & H3).
      exists b', u'. split; [done|]. split; [done|].
      by rewrite list_lookup_alter_ne.
  - intros i Hi Hlt. rewrite list_lookup_alter_ne by lia. apply Hhi; lia.
Qed.

Lemma responses_recorded_zeros (np_log : num -> num) (X : ndarray num)
    (R T A L : nat) :
  responses_recorded np_log X R T A L [] 0 (np_zeros [R; T]).
Proof.
  unfold responses_recorded, np_zeros, size_of. cbn [shape data foldr].
  rewrite length_replicate, Nat.mul_1_r. repeat split; [lia|].
  intros i _ Hi. by apply lookup_replicate_2.
Qed.

Lemma responses_recorded_app (np_log : num -> num) (X : ndarray num)
    (R T A L : nat) (bs : list (list num)) (b : list num) (Y : ndarray num) :
  responses_recorded np_log X R T A L bs (length bs * T) Y ->
  responses_recorded np_log X R T A L (bs ++ [b]) (length bs * T) Y.
Proof.
  intros (Hsh & Hlen & Hlo & Hhi). repeat (split; [done|]). split; [|done].
  intros i Hi. destruct (Hlo i Hi) as (b' & u & H1 & H2 & H3).
  exists b', u. split; [|done]. by apply lookup_app_l_Some.
Qed.

(** The loop over the scenarios of one respondent. *)
Lemma scenarios_recorded (np_log : num -> num) (d : gmap string pyval)
    (X : ndarray num) (R T A L : nat) (bs : list (list num)) (b : list num)
    (resp : nat) (Y : ndarray num) (t : tape) (Y' : ndarray num) (t' : tape) :
  d !! "X" = Some (VArr X) -> shape X = [R; T; A; L] ->
  d !! "C" = Some (VInt 1) ->
  resp < R -> length b = L -> bs !! resp = Some b ->
  responses_recorded np_log X R T A L bs (resp * T) Y ->
  run (for_range T (scenario np_log d b resp) Y) t = Some (Ok Y', t') ->
  responses_recorded np_log X R T A L bs (S resp * T) Y'.
Proof.
  intros HX Hsh HC Hresp Hlen Hb Hrec H.
  replace (S resp * T) with (resp * T + T) by lia.
  apply (run_for_range
           (fun j Y0 => responses_recorded np_log X R T A L bs (resp * T + j) Y0)
           (scenario np_log d b resp) T Y t Y' t');
    [|by rewrite Nat.add_0_r|exact H].
  intros scn Y0 ta Y1 tb Hscn HI Hrun.
  pose proof HI as (HshY & _).
  eapply scenario_outcome in Hrun as (u & -> & Hu & Hrun); try done.
  apply record_choice_Ok in Hrun as [_ ->].
  by apply responses_recorded_step.
Qed.

(** ** The responses and the stored vectors *)

(** One turn of the loop over the respondents: the vector drawn is written
    to the column of the respondent, and it is the one under which the
    choices of the respondent are recorded. *)
Lemma respondent_turn (np_log : num -> num) (d : gmap string pyval)
    (pathology_type : option string) (Gamma : list num)
    (X : ndarray num) (R T A L : nat) (bs : list (list num))
    (YB : ndarray num * ndarray num) (t : tape)
    (YB' : ndarray num * ndarray num) (t' : tape) :
  d !! "X" = Some (VArr X) -> shape X = [R; T; A; L] ->
  d !! "C" = Some (VInt 1) -> d !! "T" = Some (VInt T) ->
  length bs < R ->
  columns_filled L R bs YB.2 ->
  responses_recorded np_log X R T A L bs (length bs * T) YB.1 ->
  run (respondent np_log d pathology_type Gamma (make_Vbeta L) (length bs) YB) t
    = Some (Ok YB', t') ->
  exists b,
    length b = L /\ respondent_vector pathology_type L b
    /\ columns_filled L R (bs ++ [b]) YB'.2
    /\ responses_recorded np_log X R T A L (bs ++ [b]) (S (length bs) * T) YB'.1.
Proof.
  intros HX Hsh HC HT Hr Hcol Hrec H.
  unfold respondent in H. cbv zeta in H.
  rewrite (get_int_lookup _ _ _ HC), (get_int_lookup _ _ _ HT) in H.
  rewrite run_mbind in H. cbn [run] in H.
  change (1 <? 1) with false in H. cbv iota in H.
  apply run_mbind_Ok in H as (draw & t1 & Hd & H).
  apply run_mbind_Ok in H as (b & t2 & Hp & H).
  assert (Hb : run (beta ← np_random_multivariate_normal Gamma (make_Vbeta L);
                    if truthy pathology_type
                    then pathology beta (default "" pathology_type) default_prob
                    else Ret beta) t = Some (Ok b, t2)).
  { rewrite run_mbind, Hd. exact Hp. }
  apply respondent_draw in Hb as (_ & Hlen & Hvec).
  rewrite run_mbind in H. cbn [run] in H.
  apply run_mbind_Ok in H as (Y' & t4 & HY & H).
  apply run_mbind_Ok in H as (Beta' & t5 & HB & H).
  cbn [run] in H. inversion H; subst YB'; clear H.
  destruct (columns_step L R bs YB.2 b t4 (Ok Beta') t5 Hr Hlen Hcol HB)
    as (Beta0 & E & _ & Hcol').
  inversion E; subst Beta0; clear E.
  exists b. split; [done|]. split; [done|]. split; [done|].
  cbn [fst].
  apply (scenarios_recorded np_log d X R T A L (bs ++ [b]) b (length bs)
           YB.1 t2 Y' t4); try done.
  - rewrite lookup_app_r by lia. by rewrite Nat.sub_diag.
  - by apply responses_recorded_app.
Qed.

Lemma respondents_loop_recorded (np_log : num -> num) (d : gmap string pyval)
    (pathology_type : option string) (Gamma : list num)
    (X : ndarray num) (R T A L : nat)
    (t : tape) (Y Beta : ndarray num) (t' : tape) :
  d !! "X" = Some (VArr X) -> shape X = [R; T; A; L] ->
  d !! "C" = Some (VInt 1) -> d !! "T" = Some (VInt T) ->
  run (respondents_loop np_log d pathology_type Gamma R T L) t
    = Some (Ok (Y, Beta), t') ->
  exists bs,
    length bs = R
    /\ Forall (fun b => length b = L /\ respondent_vector pathology_type L b) bs
    /\ columns_filled L R bs Beta
    /\ responses_recorded np_log X R T A L bs (R * T) Y.
Proof.
  intros HX Hsh HC HT H. unfold respondents_loop in H.
  apply (run_for_range
           (fun r (YB : ndarray num * ndarray num) =>
              exists bs,
                length bs = r
                /\ Forall (fun b => length b = L
                                    /\ respondent_vector pathology_type L b) bs
                /\ columns_filled L R bs YB.2
                /\ responses_recorded np_log X R T A L bs (r * T) YB.1)
           (respondent np_log d pathology_type Gamma (make_Vbeta L)) R
           (np_zeros [R; T], np_zeros [L; R]) t (Y, Beta) t');
    [| |exact H].
  - intros r YB ta YB' tb Hr (bs & Hl & Hall & Hcol & Hrec) Hrun. subst r.
    eapply respondent_turn in Hrun as (b & Hb & Hvec & Hcol' & Hrec'); try done.
    exists (bs ++ [b]). split; [rewrite length_app; simpl; lia|].
    split; [|done]. apply Forall_app. split; [done|]. by repeat constructor.
  - exists []. split; [done|]. split; [constructor|].
    split; [apply columns_zeros|apply responses_recorded_zeros].
Qed.

(** X10. The responses are the choices under the vectors that are stored:
    on a bundle with one covariate and a design of the shape [[R, T, A, L]],
    a run that returns has stored a [Beta] whose column [r] is a vector [b]
    of [L] components, and a [Y] whose entry for the respondent [r] and the
    scenario [s] is the alternative (counted from one) of the greatest of
    the utilities [X[r, s].dot(b)] after the noise term of one uniform value
    of [[0, 1)] was subtracted from each of them. In particular the
    responses are computed from the vector as [pathology] left it. *)
Theorem responses_follow_the_stored_Beta (np_log : num -> num)
    (data_dict : loc) (pathology_type : option string)
    (h : gmap loc (gmap string pyval)) (d : gmap string pyval)
    (X : ndarray num) (R T A L : nat)
    (t : tape) (l' : loc) (h' : gmap loc (gmap string pyval)) (t' : tape) :
  h !! data_dict = Some d ->
  d !! "X" = Some (VArr X) -> shape X = [R; T; A; L] ->
  d !! "C" = Some (VInt 1) -> d !! "L" = Some (VInt L) ->
  d !! "R" = Some (VInt R) -> d !! "T" = Some (VInt T) ->
  run (compute_beta_response np_log data_dict pathology_type h) t
    = Some (Ok (l', h'), t') ->
  exists d' Y Beta,
    h' !! l' = Some d'
    /\ d' !! "Y" = Some (VIntArr Y)
    /\ d' !! "Beta" = Some (VArr Beta)
    /\ forall r s, r < R -> s < T ->
         exists b u,
           length b = L
           /\ (forall l, l < L -> data Beta !! (l * R + r) = b !! l)
           /\ in_range 0 1 u = true
           /\ data Y !! (r * T + s) = Some (choice_of np_log X T A L b r s u).
Proof.
  intros Hd HX Hsh HC HL HR HT H.
  apply compute_beta_response_returns in H
    as (d0 & C0 & L0 & R0 & T0 & Gamma & Y & Beta & t1 & t2 & d' & Hd0 & HC0 & HL0
        & HR0 & HT0 & _ & Hloop & -> & -> & Hd').
  assert (d0 = d) as -> by congruence.
  assert (L0 = L) as -> by congruence.
  assert (R0 = R) as -> by congruence.
  assert (T0 = T) as -> by congruence.
  fold (respondents_loop np_log d pathology_type Gamma R T L) in Hloop.
  eapply respondents_loop_recorded in Hloop
    as (bs & Hlen & Hall & Hcol & (HshY & HlenY & Hlo & _)); try done.
  exists d', (astype_int Y), Beta. split; [by rewrite lookup_insert_eq|].
  split.
  { destruct Hd' as [(_ & w & _ & ->)|(_ & ->)]; unfold with_results;
      rewrite ?lookup_insert_ne by done; by rewrite lookup_insert_eq. }
  split.
  { destruct Hd' as [(_ & w & _ & ->)|(_ & ->)]; unfold with_results;
      rewrite ?lookup_insert_ne by done; by rewrite lookup_insert_eq. }
  intros r s Hr Hs.
  destruct (Hlo (r * T + s) ltac:(nia)) as (b & u & Hb & Hu & HY).
  destruct (div_mod_cell T r s Hs) as [Ediv Emod]. rewrite Ediv, Emod in *.
  rewrite Forall_lookup in Hall. destruct (Hall r b Hb) as [Hlb _].
  exists b, u. split; [done|]. split.
  - intros l Hl. destruct Hcol as (_ & _ & Hcol).
    rewrite (Hcol l r Hl Hr), Hb.
    destruct (b !! l) eqn:E; [done|]. apply lookup_ge_None in E. lia.
  - split; [done|]. unfold astype_int. cbn [data].
    rewrite list_lookup_fmap, HY. cbn [fmap option_fmap option_map]. f_equal.
    unfold of_int, to_int, inject_Z. cbn [Qnum Qden]. apply Z.quot_1_r.
Qed.

Lemma responses_follow_the_stored_Beta_witness :
  exists (d' : gmap string pyval) (Y : ndarray Z) (Beta : ndarray num),
    (<[0 := with_results small_design
              (mk_ndarray [1; 1] [Fin 2])
              (mk_ndarray [1; 1] [Fin (-10000)])
              [Fin 2] (make_Vbeta 1)]> small_heap
       : gmap loc (gmap string pyval)) !! 0 = Some d'
    /\ d' !! "Y" = Some (VIntArr Y)
    /\ d' !! "Beta" = Some (VArr Beta)
    /\ forall r s, r < 1 -> s < 1 ->
         exists b u,
           length b = 1
           /\ (forall l, l < 1 -> data Beta !! (l * 1 + r) = b !! l)
           /\ in_range 0 1 u = true
           /\ data Y !! (r * 1 + s)
              = Some (choice_of (fun x => x) (mk_ndarray [1; 1; 2; 1] [Fin 1; Fin 0])
                        1 2 1 b r s u).
Proof.
  apply (responses_follow_the_stored_Beta (fun x => x) 0 (Some "screening")
           small_heap small_design (mk_ndarray [1; 1; 2; 1] [Fin 1; Fin 0])
           1 1 2 1
           [SNums [Fin 2]; SNums [Fin (3 # 2)]; SNums [Fin (1 # 3)]] 0 _ []);
    reflexivity.
Defined.

(** X11. Unless the kind is ['screening_inf'], every entry of the [Beta]
    that a returning run has stored is finite, whatever the kind (none, an
    unknown one, or one that draws). *)
Theorem Beta_is_finite_unless_screening_inf (np_log : num -> num)
    (data_dict : loc) (pathology_type : option string)
    (h : gmap loc (gmap string pyval)) (d : gmap string pyval) (L R : nat)
    (t : tape) (l' : loc) (h' : gmap loc (gmap string pyval)) (t' : tape) :
  h !! data_dict = Some d ->
  d !! "L" = Some (VInt L) -> d !! "R" = Some (VInt R) ->
  pathology_type <> Some "screening_inf" ->
  run (compute_beta_response np_log data_dict pathology_type h) t
    = Some (Ok (l', h'), t') ->
  exists d' Beta,
    h' !! l' = Some d'
    /\ d' !! "Beta" = Some (VArr Beta)
    /\ length (data Beta) = L * R
    /\ Forall finite (data Beta).
Proof.
  intros Hd HL HR Hk H.
  eapply stored_Beta in H as (d' & Beta & bs & Hd' & HB & Hlen & Hall & Hcol);
    try done.
  exists d', Beta. split; [done|]. split; [done|].
  pose proof Hcol as (_ & HlenB & Hc). split; [done|].
  apply Forall_lookup. intros i x Hi.
  apply lookup_lt_Some in Hi as Hlt. rewrite HlenB in Hlt.
  assert (HR0 : 0 < R) by nia.
  assert (Hi' : i = i / R * R + i mod R)
    by (rewrite (Nat.div_mod_eq i R) at 1; lia).
  assert (Hl : i / R < L) by (apply Nat.Div0.div_lt_upper_bound; lia).
  assert (Hj : i mod R < R) by (apply Nat.mod_upper_bound; lia).
  rewrite Hi', (Hc _ _ Hl Hj) in Hi.
  destruct (bs !! (i mod R)) as [b|] eqn:Eb;
    [|apply lookup_ge_None in Eb; lia].
  rewrite Forall_lookup in Hall. destruct (Hall _ b Eb) as [Hlb Hvec].
  apply respondent_vector_finite in Hvec; [|done].
  destruct (b !! (i / R)) as [y|] eqn:Ey; [|apply lookup_ge_None in Ey; lia].
  cbn [default] in Hi. inversion Hi; subst x.
  rewrite Forall_lookup in Hvec. exact (Hvec _ y Ey).
Qed.

Lemma Beta_is_finite_unless_screening_inf_witness :
  exists (d' : gmap string pyval) (Beta : ndarray num),
    (<[0 := with_results small_design
              (mk_ndarray [1; 1] [Fin 2])
              (mk_ndarray [1; 1] [Fin (-10000)])
              [Fin 2] (make_Vbeta 1)]> small_heap
       : gmap loc (gmap string pyval)) !! 0 = Some d'
    /\ d' !! "Beta" = Some (VArr Beta)
    /\ length (data Beta) = 1 * 1
    /\ Forall finite (data Beta).
Proof.
  apply (Beta_is_finite_unless_screening_inf (fun x => x) 0 (Some "screening")
           small_heap small_design 1 1
           [SNums [Fin 2]; SNums [Fin (3 # 2)]; SNums [Fin (1 # 3)]] 0 _ []);
    [reflexivity|reflexivity|reflexivity|discriminate|reflexivity].
Defined.

(** X12. Under ['screening'] every respondent gets the mark: in the [Beta]
    that a returning run has stored, the last row holds [-10000] in every
    column (negative infinity under ['screening_inf']), and the rows above
    it hold finite values. With a respondent, such a run has at least one
    level. *)
Theorem screening_marks_every_respondent (np_log : num -> num)
    (data_dict : loc) (kind : string) (v : num)
    (h : gmap loc (gmap string pyval)) (d : gmap string pyval) (L R : nat)
    (t : tape) (l' : loc) (h' : gmap loc (gmap string pyval)) (t' : tape) :
  h !! data_dict = Some d ->
  d !! "L" = Some (VInt L) -> d !! "R" = Some (VInt R) ->
  (kind = "screening" /\ v = of_int (-10000))
  \/ (kind = "screening_inf" /\ v = NInf) ->
  run (compute_beta_response np_log data_dict (Some kind) h) t
    = Some (Ok (l', h'), t') ->
  exists d' Beta,
    h' !! l' = Some d'
    /\ d' !! "Beta" = Some (VArr Beta)
    /\ (1 <= R -> 1 <= L)
    /\ forall r, r < R ->
         data Beta !! ((L - 1) * R + r) = Some v
         /\ forall l, l < L - 1 -> exists q, data Beta !! (l * R + r) = Some (Fin q).
Proof.
  intros Hd HL HR Hk H.
  eapply stored_Beta in H as (d' & Beta & bs & Hd' & HB & Hlen & Hall & Hcol);
    try done.
  exists d', Beta. split; [done|]. split; [done|].
  assert (Hvec : forall r, r < R ->
            exists b, bs !! r = Some b /\ length b = L
                      /\ respondent_vector (Some kind) L b).
  { intros r Hr. destruct (bs !! r) as [b|] eqn:Eb;
      [|apply lookup_ge_None in Eb; lia].
    rewrite Forall_lookup in Hall. destruct (Hall r b Eb). by exists b. }
  split.
  - intros HR1. destruct (Hvec 0 ltac:(lia)) as (b & _ & _ & Hb).
    by apply (respondent_vector_screening kind v L b Hk) in Hb as (? & _).
  - intros r Hr. destruct (Hvec r Hr) as (b & Eb & Hlb & Hb).
    apply (respondent_vector_screening kind v L b Hk) in Hb as (HL1 & Hlast & Hrest).
    destruct Hcol as (_ & _ & Hcol). split.
    + rewrite (Hcol (L - 1) r ltac:(lia) Hr), Eb, Hlast. done.
    + intros l Hl. destruct (Hrest l Hl) as (q & Hq). exists q.
      rewrite (Hcol l r ltac:(lia) Hr), Eb, Hq. done.
Qed.

Lemma screening_marks_every_respondent_witness :
  exists (d' : gmap string pyval) (Beta : ndarray num),
    (<[0 := with_results small_design
              (mk_ndarray [1; 1] [Fin 2])
              (mk_ndarray [1; 1] [NInf])
              [Fin 2] (make_Vbeta 1)]> small_heap
       : gmap loc (gmap string pyval)) !! 0 = Some d'
    /\ d' !! "Beta" = Some (VArr Beta)
    /\ (1 <= 1 -> 1 <= 1)
    /\ forall r, r < 1 ->
         data Beta !! ((1 - 1) * 1 + r) = Some NInf
         /\ forall l, l < 1 - 1 -> exists q, data Beta !! (l * 1 + r) = Some (Fin q).
Proof.
  apply (screening_marks_every_respondent (fun x => x) 0 "screening_inf" NInf
           small_heap small_design 1 1
           [SNums [Fin 2]; SNums [Fin (3 # 2)]; SNums [Fin (1 # 3)]] 0 _ []);
    [reflexivity|reflexivity|reflexivity|right; split; reflexivity|reflexivity].
Defined.

(** X13. Under ['ANA_systematic'] the same levels are ignored by every
    respondent: in the [Beta] that a returning run has stored, the rows
    [floor(L/2) .. L-1] are zero in every column. *)
Theorem ANA_systematic_zeroes_the_same_rows (np_log : num -> num)
    (data_dict : loc)
    (h : gmap loc (gmap string pyval)) (d : gmap string pyval) (L R : nat)
    (t : tape) (l' : loc) (h' : gmap loc (gmap string pyval)) (t' : tape) :
  h !! data_dict = Some d ->
  d !! "L" = Some (VInt L) -> d !! "R" = Some (VInt R) ->
  run (compute_beta_response np_log data_dict (Some "ANA_systematic") h) t
    = Some (Ok (l', h'), t') ->
  exists d' Beta,
    h' !! l' = Some d'
    /\ d' !! "Beta" = Some (VArr Beta)
    /\ forall l r, L / 2 <= l -> l < L -> r < R ->
         exists x, data Beta !! (l * R + r) = Some x /\ is_zero x.
Proof.
  intros Hd HL HR H.
  eapply stored_Beta in H as (d' & Beta & bs & Hd' & HB & Hlen & Hall & Hcol);
    try done.
  exists d', Beta. split; [done|]. split; [done|].
  intros l r Hlo Hhi Hr.
  destruct (bs !! r) as [b|] eqn:Eb; [|apply lookup_ge_None in Eb; lia].
  rewrite Forall_lookup in Hall. destruct (Hall r b Eb) as [Hlb Hvec].
  destruct (respondent_vector_ANA_systematic L b Hvec l Hlo Hhi) as (x & Ex & Hx).
  exists x. split; [|done]. destruct Hcol as (_ & _ & Hcol).
  by rewrite (Hcol l r Hhi Hr), Eb, Ex.
Qed.

Lemma ANA_systematic_zeroes_the_same_rows_witness :
  exists (d' : gmap string pyval) (Beta : ndarray num),
    (<[0 := with_results small_design
              (mk_ndarray [1; 1] [Fin 1])
              (mk_ndarray [1; 1] [Fin (0 # 2)])
              [Fin 2] (make_Vbeta 1)]> small_heap
       : gmap loc (gmap string pyval)) !! 0 = Some d'
    /\ d' !! "Beta" = Some (VArr Beta)
    /\ forall l r, 1 / 2 <= l -> l < 1 -> r < 1 ->
         exists x, data Beta !! (l * 1 + r) = Some x /\ is_zero x.
Proof.
  apply (ANA_systematic_zeroes_the_same_rows (fun x => x) 0
           small_heap small_design 1 1
           [SNums [Fin 2]; SNums [Fin (3 # 2)]; SNums [Fin (1 # 3)]] 0 _ []);
    reflexivity.
Defined.

(** ** No failure on a bundle with one covariate *)

Lemma scenario_safe (np_log : num -> num) (d : gmap string pyval)
    (X : ndarray num) (R T A L : nat) (beta : list num) (resp scn : nat)
    (Y : ndarray num) (t : tape) (r : result (ndarray num)) (t' : tape) :
  d !! "X" = Some (VArr X) -> shape X = [R; T; A; L] ->
  d !! "C" = Some (VInt 1) -> 1 <= A ->
  resp < R -> scn < T -> length beta = L -> shape Y = [R; T] ->
  run (scenario np_log d beta resp scn Y) t = Some (r, t') ->
  exists Y', r = Ok Y' /\ shape Y' = [R; T].
Proof.
  intros HX Hsh HC HA Hresp Hscn Hbeta HY H.
  eapply scenario_outcome in H as (u & -> & Hu & H); try done.
  unfold record_choice in H.
  pose proof (length_noisy_utilities np_log X T A L beta resp scn u) as Hlen.
  destruct (noisy_utilities np_log X T A L beta resp scn u) as [|x xs];
    [simpl in Hlen; lia|].
  inversion H. by eexists.
Qed.

Lemma scenarios_safe (np_log : num -> num) (d : gmap string pyval)
    (X : ndarray num) (R T A L : nat) (beta : list num) (resp : nat)
    (Y : ndarray num) (t : tape) (r : result (ndarray num)) (t' : tape) :
  d !! "X" = Some (VArr X) -> shape X = [R; T; A; L] ->
  d !! "C" = Some (VInt 1) -> 1 <= A ->
  resp < R -> length beta = L -> shape Y = [R; T] ->
  run (for_range T (scenario np_log d beta resp) Y) t = Some (r, t') ->
  exists Y', r = Ok Y' /\ shape Y' = [R; T].
Proof.
  intros HX Hsh HC HA Hresp Hbeta HY H.
  apply (run_for_range_safe (fun _ (Y0 : ndarray num) (_ : tape) => shape Y0 = [R; T])
           (scenario np_log d beta resp) T Y t r t'); [|done|done].
  intros scn Y0 t0 r1 t1 Hscn HY0 Hrun.
  by eapply scenario_safe.
Qed.

Lemma valid_p_default : valid_p [1%Z; 0%Z] default_prob = true.
Proof. reflexivity. Qed.

(** With the default weights [pathology] does not fail on a vector that is
    not empty. *)
Lemma pathology_default_safe (beta : list num) (kind : string) (t : tape)
    (r : result (list num)) (t' : tape) :
  beta <> [] ->
  run (pathology beta kind default_prob) t = Some (r, t') ->
  exists out, r = Ok out /\ length out = length beta.
Proof.
  intros Hne H. apply pathology_outcome in H. destruct r as [out|e].
  - by exists out.
  - exfalso. destruct H as [(_ & _ & Hv & _)|[(_ & _ & He)|(_ & _ & He & _)]];
      [by rewrite valid_p_default in Hv|done|done].
Qed.

Lemma respondent_safe (np_log : num -> num) (d : gmap string pyval)
    (pathology_type : option string) (Gamma : list num)
    (X : ndarray num) (R T A L : nat) (resp : nat)
    (YB : ndarray num * ndarray num) (t : tape)
    (r : result (ndarray num * ndarray num)) (t' : tape) :
  d !! "X" = Some (VArr X) -> shape X = [R; T; A; L] ->
  d !! "C" = Some (VInt 1) -> d !! "T" = Some (VInt T) ->
  1 <= A -> 1 <= L -> length Gamma = L ->
  resp < R -> shape YB.1 = [R; T] -> shape YB.2 = [L; R] ->
  run (respondent np_log d pathology_type Gamma (make_Vbeta L) resp YB) t
    = Some (r, t') ->
  exists YB', r = Ok YB' /\ shape YB'.1 = [R; T] /\ shape YB'.2 = [L; R].
Proof.
  intros HX Hsh HC HT HA HL HG Hresp HshY HshB H.
  unfold respondent in H. cbv zeta in H.
  rewrite (get_int_lookup _ _ _ HC), (get_int_lookup _ _ _ HT) in H.
  rewrite run_mbind in H. cbn [run] in H.
  change (1 <? 1) with false in H. cbv iota in H.
  assert (Hv : valid_mvn Gamma (make_Vbeta L) = true).
  { unfold valid_mvn, make_Vbeta. cbn [shape]. by rewrite HG, Nat.eqb_refl. }
  apply run_mbind_inv in H as [(draw & t1 & Hd & H)|(e & Hd & _)];
    apply run_mvnormal_inv in Hd
      as [(Hv' & _)|(_ & xs & t0 & -> & Hlen & Hf & Hd)];
    try congruence; cbn [run] in Hd; [|done].
  inversion Hd; subst xs t0; clear Hd.
  assert (Hb : forall rb tb,
            run (if truthy pathology_type
                 then pathology draw (default "" pathology_type) default_prob
                 else Ret draw) t1 = Some (rb, tb) ->
            exists b, rb = Ok b /\ length b = L).
  { intros rb tb Hrun. destruct (truthy pathology_type).
    - apply pathology_default_safe in Hrun as (out & -> & Hout).
      + exists out. split; [done|]. congruence.
      + destruct draw; [simpl in Hlen; lia|done].
    - cbn [run] in Hrun. inversion Hrun. exists draw. split; [done|]. congruence. }
  apply run_mbind_inv in H as [(b & t2 & Hp & H)|(e & Hp & _)];
    apply Hb in Hp as (b' & E & Hlb); [|done].
  inversion E; subst b'; clear E.
  rewrite run_mbind in H. cbn [run] in H.
  apply run_mbind_inv in H as [(Y' & t3 & HY & H)|(e & HY & _)];
    eapply scenarios_safe in HY as (Y0 & E & HshY'); try done.
  inversion E; subst Y0; clear E.
  apply run_mbind_inv in H as [(Beta' & t4 & HB & H)|(e & HB & _)];
    unfold iadd_column in HB; rewrite HshB in HB;
    apply Nat.ltb_lt in Hresp; rewrite Hresp, Hlb, Nat.eqb_refl in HB;
    cbn [run] in HB; [|done].
  inversion HB; subst Beta' t4; clear HB.
  cbn [run] in H. inversion H. eexists. split; [reflexivity|]. by split.
Qed.

Lemma respondents_loop_safe (np_log : num -> num) (d : gmap string pyval)
    (pathology_type : option string) (Gamma : list num)
    (X : ndarray num) (R T A L : nat) (t : tape)
    (r : result (ndarray num * ndarray num)) (t' : tape) :
  d !! "X" = Some (VArr X) -> shape X = [R; T; A; L] ->
  d !! "C" = Some (VInt 1) -> d !! "T" = Some (VInt T) ->
  1 <= A -> 1 <= L -> length Gamma = L ->
  run (respondents_loop np_log d pathology_type Gamma R T L) t = Some (r, t') ->
  exists YB, r = Ok YB.
Proof.
  intros HX Hsh HC HT HA HL HG H. unfold respondents_loop in H.
  apply (run_for_range_safe
           (fun _ (YB : ndarray num * ndarray num) (_ : tape) =>
              shape YB.1 = [R; T] /\ shape YB.2 = [L; R])
           (respondent np_log d pathology_type Gamma (make_Vbeta L)) R
           (np_zeros [R; T], np_zeros [L; R]) t r t') in H;
    [by destruct H as (YB & -> & _); exists YB| |done].
  intros resp YB t0 r1 t1 Hresp [H1 H2] Hrun.
  by eapply respondent_safe.
Qed.

(** X14. On a bundle with one covariate, a design of the shape
    [[R, T, A, L]] with at least one alternative and at least one level, and
    the dimensions stored as integers, [compute_beta_response] does not
    raise, whatever the kind: every run returns the reference it was
    given. *)
Theorem compute_beta_response_never_raises (np_log : num -> num)
    (data_dict : loc) (pathology_type : option string)
    (h : gmap loc (gmap string pyval)) (d : gmap string pyval)
    (X : ndarray num) (R T A L : nat)
    (t : tape) (r : result (loc * gmap loc (gmap string pyval))) (t' : tape) :
  h !! data_dict = Some d ->
  d !! "X" = Some (VArr X) -> shape X = [R; T; A; L] ->
  d !! "C" = Some (VInt 1) -> d !! "L" = Some (VInt L) ->
  d !! "R" = Some (VInt R) -> d !! "T" = Some (VInt T) ->
  1 <= A -> 1 <= L ->
  run (compute_beta_response np_log data_dict pathology_type h) t = Some (r, t') ->
  exists h', r = Ok (data_dict, h').
Proof.
  intros Hd HX Hsh HC HL HR HT HA HL1 H.
  eapply compute_beta_response_run in H
    as (Gamma & t1 & -> & HG & _ & [(e & Hloop & _)|(Y & Beta & t2 & _ & Hres)]);
    try done.
  - eapply respondents_loop_safe in Hloop as (YB & E); try done. lia.
  - destruct Hres as [(_ & ks & _ & _ & _ & ->)|(_ & _ & ->)]; by eexists.
Qed.

Lemma compute_beta_response_never_raises_witness :
  exists h' : gmap loc (gmap string pyval),
    Ok (0, <[0 := with_results small_design
                    (mk_ndarray [1; 1] [Fin 2])
                    (mk_ndarray [1; 1] [Fin (-10000)])
                    [Fin 2] (make_Vbeta 1)]> small_heap)
    = Ok (0, h').
Proof.
  apply (compute_beta_response_never_raises (fun x => x) 0 (Some "screening")
           small_heap small_design (mk_ndarray [1; 1; 2; 1] [Fin 1; Fin 0])
           1 1 2 1
           [SNums [Fin 2]; SNums [Fin (3 # 2)]; SNums [Fin (1 # 3)]] _ []);
    try reflexivity; lia.
Defined.

(** ** The other fields that are written *)

Lemma bind_singleton_fmap {A B : Type} (f : A -> B) (l : list A) :
  (y ← l; [f y]) = f <$> l.
Proof. induction l as [|x l IH]; [done|]. csimpl. by rewrite IH. Qed.

(** The entry of a table that is built row by row. *)
Lemma lookup_grid {A : Type} (g : nat -> nat -> A) (n a m i j : nat) :
  i < m -> j < n ->
  (x ← seq a m; y ← seq 0 n; [g x y]) !! (i * n + j) = Some (g (a + i) j).
Proof.
  revert a i. induction m as [|m IH]; intros a i Hi Hj; [lia|].
  cbn [seq]. csimpl. rewrite bind_singleton_fmap.
  destruct i as [|i].
  - rewrite lookup_app_l by (rewrite length_fmap, length_seq; lia).
    rewrite list_lookup_fmap, lookup_seq_lt by lia.
    cbn [fmap option_fmap option_map]. by rewrite Nat.add_0_r.
  - rewrite lookup_app_r by (rewrite length_fmap, length_seq; lia).
    rewrite length_fmap, length_seq.
    replace (S i * n + j - n) with (i * n + j) by lia.
    rewrite IH by lia. do 2 f_equal. lia.
Qed.

(** [Vbeta] has [3/2] on the diagonal and [1/2] elsewhere. *)
Lemma make_Vbeta_lookup (n i j : nat) :
  i < n -> j < n ->
  data (make_Vbeta n) !! (i * n + j)
  = Some (Fin (if i =? j then 3 # 2 else 1 # 2)).
Proof.
  intros Hi Hj. unfold make_Vbeta. cbn [data].
  rewrite (lookup_grid
             (fun i j => nadd (if i =? j then Fin 1 else Fin 0)
                           (nmul (Fin (1 # 2)) (Fin 1))) n 0 n i j Hi Hj).
  cbn [Nat.add]. by destruct (i =? j).
Qed.

(** X15. Besides [Y] and [Beta], a run that returns has written [Gamma],
    the [C * L] uniform values of [[-3, 4)] drawn first, and [Vbeta], the
    [L] by [L] table with [3/2] on the diagonal and [1/2] elsewhere (which
    is symmetric); under the kind ['ANA'] it has also written [w], [T]
    entries that are each [0] or [1]. *)
Theorem Gamma_Vbeta_and_w_as_written (np_log : num -> num)
    (data_dict : loc) (pathology_type : option string)
    (h : gmap loc (gmap string pyval)) (d : gmap string pyval) (C L R T : nat)
    (t : tape) (l' : loc) (h' : gmap loc (gmap string pyval)) (t' : tape) :
  h !! data_dict = Some d ->
  d !! "C" = Some (VInt C) -> d !! "L" = Some (VInt L) ->
  d !! "R" = Some (VInt R) -> d !! "T" = Some (VInt T) ->
  run (compute_beta_response np_log data_dict pathology_type h) t
    = Some (Ok (l', h'), t') ->
  exists d' Gamma Vbeta,
    h' !! l' = Some d'
    /\ d' !! "Gamma" = Some (VArr Gamma)
    /\ shape Gamma = [C * L] /\ length (data Gamma) = C * L
    /\ Forall (fun x => in_range (-3) 4 x = true) (data Gamma)
    /\ d' !! "Vbeta" = Some (VArr Vbeta)
    /\ shape Vbeta = [L; L]
    /\ (forall i j, i < L -> j < L ->
          data Vbeta !! (i * L + j) = Some (Fin (if i =? j then 3 # 2 else 1 # 2))
          /\ data Vbeta !! (i * L + j) = data Vbeta !! (j * L + i))
    /\ (pathology_type = Some "ANA" ->
        exists w, d' !! "w" = Some (VIntArr w)
                  /\ shape w = [T] /\ length (data w) = T
                  /\ Forall (fun z => z = 0%Z \/ z = 1%Z) (data w)).
Proof.
  intros Hd HC HL HR HT H.
  eapply compute_beta_response_run in H
    as (Gamma & t1 & -> & HG & HGr & [(e & _ & E)|(Y & Beta & t2 & _ & Hres)]);
    try done.
  assert (HV : forall i j, i < L -> j < L ->
            data (make_Vbeta L) !! (i * L + j)
              = Some (Fin (if i =? j then 3 # 2 else 1 # 2))
            /\ data (make_Vbeta L) !! (i * L + j)
               = data (make_Vbeta L) !! (j * L + i)).
  { intros i j Hi Hj. rewrite !make_Vbeta_lookup by done. split; [done|].
    rewrite (Nat.eqb_sym j i). done. }
  destruct Hres as [(Hana & ks & _ & Hlk & Hks & E)|(Hana & _ & E)];
    inversion E; subst l' h'; clear E.
  - eexists _, (mk_ndarray [length Gamma] Gamma), (make_Vbeta L).
    split; [by rewrite lookup_insert_eq|].
    unfold with_results.
    split; [by rewrite !lookup_insert_ne, lookup_insert_eq by done|].
    cbn [shape data]. split; [by rewrite HG|]. split; [done|]. split; [done|].
    split; [by rewrite lookup_insert_ne, lookup_insert_eq by done|].
    split; [done|]. split; [done|].
    intros _. eexists. split; [by rewrite lookup_insert_eq|].
    cbn [shape data]. split; [by rewrite Hlk|].
    split; [by rewrite length_fmap|].
    apply Forall_fmap. eapply Forall_impl; [exact Hks|].
    intros k Hk. cbv beta in *. destruct k as [|[|k]]; [by left|by right|lia].
  - eexists _, (mk_ndarray [length Gamma] Gamma), (make_Vbeta L).
    split; [by rewrite lookup_insert_eq|].
    unfold with_results.
    split; [by rewrite !lookup_insert_ne, lookup_insert_eq by done|].
    cbn [shape data]. split; [by rewrite HG|]. split; [done|]. split; [done|].
    split; [by rewrite lookup_insert_eq|].
    split; [done|]. split; [done|]. done.
Qed.

Lemma Gamma_Vbeta_and_w_as_written_witness :
  exists (d' : gmap string pyval) (Gamma Vbeta : ndarray num),
    (<[0 := <["w" := VIntArr (mk_ndarray [1] [1%Z])]>
              (with_results small_design
                 (mk_ndarray [1; 1] [Fin 1])
                 (mk_ndarray [1; 1] [Fin (3 # 2)])
                 [Fin 2] (make_Vbeta 1))]> small_heap
       : gmap loc (gmap string pyval)) !! 0 = Some d'
    /\ d' !! "Gamma" = Some (VArr Gamma)
    /\ shape Gamma = [1 * 1] /\ length (data Gamma) = 1 * 1
    /\ Forall (fun x => in_range (-3) 4 x = true) (data Gamma)
    /\ d' !! "Vbeta" = Some (VArr Vbeta)
    /\ shape Vbeta = [1; 1]
    /\ (forall i j, i < 1 -> j < 1 ->
          data Vbeta !! (i * 1 + j) = Some (Fin (if i =? j then 3 # 2 else 1 # 2))
          /\ data Vbeta !! (i * 1 + j) = data Vbeta !! (j * 1 + i))
    /\ (Some "ANA" = Some "ANA" ->
        exists w, d' !! "w" = Some (VIntArr w)
                  /\ shape w = [1] /\ length (data w) = 1
                  /\ Forall (fun z => z = 0%Z \/ z = 1%Z) (data w)).
Proof.
  apply (Gamma_Vbeta_and_w_as_written (fun x => x) 0 (Some "ANA")
           small_heap small_design 1 1 1 1 small_tape 0 _ []);
    reflexivity.
Defined.

(** X16. The four dimensions are read from the bundle and none has a
    default: when [C] is missing the call raises [KeyError] before anything
    is drawn, and when one of [C], [L], [R], [T] is missing no run returns
    a bundle. *)
Theorem missing_dimension_is_an_error (np_log : num -> num)
    (data_dict : loc) (pathology_type : option string)
    (h : gmap loc (gmap string pyval)) (d : gmap string pyval) (k : string) :
  h !! data_dict = Some d ->
  k ∈ ["C"; "L"; "R"; "T"] -> d !! k = None ->
  (k = "C" ->
   forall t, run (compute_beta_response np_log data_dict pathology_type h) t
             = Some (Raised KeyError, t))
  /\ forall t l' h' t',
       run (compute_beta_response np_log data_dict pathology_type h) t
       <> Some (Ok (l', h'), t').
Proof.
  intros Hd Hk Hnone. split.
  - intros -> t. unfold compute_beta_response, get_int. by rewrite Hd, Hnone.
  - intros t l' h' t' H.
    apply compute_beta_response_returns in H
      as (d0 & C & L & R & T & Gamma & Y & Beta & t1 & t2 & d' & Hd0 & HC & HL
          & HR & HT & _).
    assert (d0 = d) as -> by congruence.
    repeat (apply elem_of_cons in Hk as [->|Hk]; [congruence|]).
    by apply elem_of_nil in Hk.
Qed.

Lemma missing_dimension_is_an_error_witness :
  ("C" = "C" ->
   forall t, run (compute_beta_response (fun x => x) 0 None
                    (<[0 := delete "C" small_design]> small_heap)) t
             = Some (Raised KeyError, t))
  /\ forall t l' h' t',
       run (compute_beta_response (fun x => x) 0 None
              (<[0 := delete "C" small_design]> small_heap)) t
       <> Some (Ok (l', h'), t').
Proof.
  apply (missing_dimension_is_an_error (fun x => x) 0 None
           (<[0 := delete "C" small_design]> small_heap)
           (delete "C" small_design) "C").
  - reflexivity.
  - repeat constructor.
  - reflexivity.
Defined.

(** ** Runs that exist *)

(** A loop runs to its end on a tape cut into one chunk per turn, when each
    turn returns on its chunk. *)
Lemma run_for_each_forward {St : Type} (J : nat -> St -> Prop)
    (body : nat -> St -> prog St) (chunks : list tape) (a : nat) (s : St)
    (t : tape) :
  (forall i c s0 t0, chunks !! i = Some c -> J (a + i) s0 ->
     exists s1, run (body (a + i) s0) (c ++ t0) = Some (Ok s1, t0)
                /\ J (S (a + i)) s1) ->
  J a s ->
  exists s', run (for_each (seq a (length chunks)) body s) (concat chunks ++ t)
               = Some (Ok s', t)
             /\ J (a + length chunks) s'.
Proof.
  revert a s. induction chunks as [|c chunks IH]; intros a s Hstep Ha.
  - exists s. cbn. by rewrite Nat.add_0_r.
  - cbn [length seq concat]. rewrite for_each_cons, run_mbind, <- app_assoc.
    destruct (Hstep 0 c s (concat chunks ++ t) eq_refl) as (s1 & E & H1);
      [by rewrite Nat.add_0_r|].
    rewrite Nat.add_0_r in E, H1. rewrite E.
    destruct (IH (S a) s1) as (s' & E' & H'); [|done|].
    + intros i c' s0 t0 Hc HJ.
      replace (S a + i) with (a + S i) in * by lia. by apply Hstep.
    + exists s'. split; [done|]. by replace (a + S (length chunks)) with
        (S a + length chunks) by lia.
Qed.

Lemma run_for_range_forward {St : Type} (J : nat -> St -> Prop)
    (body : nat -> St -> prog St) (chunks : list tape) (s : St) (t : tape) :
  (forall i c s0 t0, chunks !! i = Some c -> J i s0 ->
     exists s1, run (body i s0) (c ++ t0) = Some (Ok s1, t0) /\ J (S i) s1) ->
  J 0 s ->
  exists s', run (for_range (length chunks) body s) (concat chunks ++ t)
               = Some (Ok s', t)
             /\ J (length chunks) s'.
Proof.
  intros Hstep H0. unfold for_range.
  by apply (run_for_each_forward J body chunks 0 s t).
Qed.

Lemma concat_singletons {A B : Type} (f : A -> B) (l : list A) :
  concat ((fun x => [f x]) <$> l) = f <$> l.
Proof. induction l as [|x l IH]; [done|]. csimpl. by rewrite IH. Qed.

(** A list of [n * m] entries cut into [n] rows of [m]. *)
Lemma concat_rows {A : Type} (m n : nat) (l : list A) :
  length l = n * m ->
  concat ((fun i => take m (drop (i * m) l)) <$> seq 0 n) = l.
Proof.
  revert l. induction n as [|n IH]; intros l Hl.
  - destruct l; [done|simpl in Hl; lia].
  - cbn [seq]. rewrite <- fmap_S_seq, fmap_cons, <- list_fmap_compose.
    cbn [concat]. rewrite Nat.mul_0_l, drop_0.
    transitivity (take m l ++ drop m l); [|apply take_drop].
    f_equal.
    rewrite <- (IH (drop m l)) by (rewrite length_drop; lia).
    f_equal. apply list_fmap_ext. intros i j _. cbn [compose].
    rewrite drop_drop. by replace (m + i * m) with (S i * m) by lia.
Qed.

Lemma mapM_pick_block (b : list nat) :
  Forall (fun i => i < 2) b ->
  mapM (pick [0%Z; 1%Z] [(1 # 2)%Q; (1 # 2)%Q]) b = Some (Z.of_nat <$> b).
Proof.
  intros H. apply mapM_Some_2.
  induction H as [|i b Hi _ IH]; csimpl; constructor; [|done].
  by destruct i as [|[|i]]; [| |lia].
Qed.

(** One turn of the inner loop of the generator accepts any block. *)
Lemma design_scenario_accepts (R T A L : nat) (resp scn : nat)
    (X : ndarray num) (b : list nat) (t : tape) :
  resp < R -> scn < T -> shape X = [R; T; A; L] -> design_block (A * L) b ->
  exists X',
    run (X_scn ← np_random_choice_n [0%Z; 1%Z] (A * L) [(1 # 2)%Q; (1 # 2)%Q];
         iadd_index2 X resp scn (of_int <$> X_scn)) ([SIdx b] ++ t)
      = Some (Ok X', t)
    /\ shape X' = [R; T; A; L].
Proof.
  intros Hresp Hscn Hsh [Hlen Hb].
  rewrite run_mbind. cbn [app np_random_choice_n run].
  change (valid_p [0%Z; 1%Z] [(1 # 2)%Q; (1 # 2)%Q]) with true. cbv iota.
  rewrite (mapM_pick_block b Hb), length_fmap, Hlen, Nat.eqb_refl.
  cbn [run]. unfold iadd_index2. rewrite Hsh.
  apply Nat.ltb_lt in Hresp, Hscn. rewrite Hresp, Hscn. cbn [andb].
  cbv zeta. rewrite !length_fmap, Hlen.
  replace (A * L =? size_of [A; L]) with true
    by (symmetry; apply Nat.eqb_eq; unfold size_of; cbn [foldr]; lia).
  cbn [run]. eexists. split; [reflexivity|]. done.
Qed.

(** The generator accepts every sequence of [R * T] blocks, each of [A * L]
    indices into [[0, 1]]. *)
Lemma design_accepts (R T A L C : nat) (h : gmap loc (gmap string pyval))
    (blocks : list (list nat)) (t : tape) :
  C <= 1 -> length blocks = R * T -> Forall (design_block (A * L)) blocks ->
  exists r, run (generate_simulated_design R T A L C h) ((SIdx <$> blocks) ++ t)
            = Some (r, t).
Proof.
  intros HC Hlen Hbl. unfold generate_simulated_design. cbv zeta.
  apply Nat.ltb_ge in HC as HC'. rewrite HC'.
  set (rows := (fun i => take T (drop (i * T) blocks)) <$> seq 0 R).
  set (chunks := (fun g : list (list nat) => SIdx <$> g) <$> rows).
  assert (Hrows : concat chunks = SIdx <$> blocks).
  { transitivity (SIdx <$> concat rows).
    - unfold chunks. clear. induction rows as [|g l IH]; [done|]. csimpl.
      by rewrite fmap_app, IH.
    - unfold rows. by rewrite concat_rows by lia. }
  assert (HlenR : @length tape chunks = R)
    by (unfold chunks, rows; by rewrite !length_fmap, length_seq).
  rewrite run_mbind, <- Hrows.
  destruct (run_for_range_forward
              (fun _ (XZ : ndarray num * ndarray num) =>
                 shape XZ.1 = [R; T; A; L] /\ shape XZ.2 = [C; R])
              (fun resp (XZ : ndarray num * ndarray num) =>
                 X ← for_range T (fun scn X =>
                        X_scn ← np_random_choice_n [0%Z; 1%Z] (A * L)
                                  [(1 # 2)%Q; (1 # 2)%Q];
                        iadd_index2 X resp scn (of_int <$> X_scn)) XZ.1;
                 Z ← iadd_column_scalar XZ.2 resp (Fin 1);
                 Ret (X, Z))
              chunks (np_zeros [R; T; A; L], np_zeros [C; R]) t)
    as (XZ & E & _); [|done|].
  - intros resp c [X Z] t0 Hc [HX HZ]. cbn [fst snd] in *.
    unfold chunks in Hc. apply list_lookup_fmap_Some in Hc as (g & -> & Hg).
    unfold rows in Hg. apply list_lookup_fmap_Some in Hg as (i & -> & Hi).
    apply lookup_seq in Hi as [-> Hresp]. cbn [Nat.add] in *.
    set (g := take T (drop (resp * T) blocks)).
    assert (Hg : length g = T)
      by (unfold g; rewrite length_take, length_drop; nia).
    assert (Hgb : Forall (design_block (A * L)) g)
      by (unfold g; by apply Forall_take, Forall_drop).
    rewrite run_mbind, <- (concat_singletons SIdx g).
    destruct (run_for_range_forward
                (fun _ (X0 : ndarray num) => shape X0 = [R; T; A; L])
                (fun scn X0 =>
                   X_scn ← np_random_choice_n [0%Z; 1%Z] (A * L)
                             [(1 # 2)%Q; (1 # 2)%Q];
                   iadd_index2 X0 resp scn (of_int <$> X_scn))
                ((fun b => [SIdx b]) <$> g) X t0)
      as (X' & E & HX'); [|done|].
    + intros scn c X0 t1 Hc HX0.
      apply list_lookup_fmap_Some in Hc as (b & -> & Hb).
      apply lookup_lt_Some in Hb as Hscn. rewrite Hg in Hscn.
      rewrite Forall_lookup in Hgb.
      apply (design_scenario_accepts R T A L resp scn X0 b t1);
        [done|done|done|by apply (Hgb scn b)].
    + rewrite length_fmap, Hg in E. rewrite E. rewrite run_mbind.
      unfold iadd_column_scalar. rewrite HZ.
      apply Nat.ltb_lt in Hresp. rewrite Hresp. cbn [run].
      eexists. split; [reflexivity|]. cbn [fst snd]. by split.
  - rewrite HlenR in E. rewrite E. cbn [run]. by eexists.
Qed.

(** X17. Every sequence of samples can be the run of the generator: for
    at most one covariate and any [nresp * nscns] blocks of [nalts * nlvls]
    values of [{0, 1}], the run that draws these blocks returns, consumes
    exactly them, and stores them as [X], in row-major order. *)
Theorem design_accepts_every_sample (R T A L C : nat)
    (h : gmap loc (gmap string pyval)) (blocks : list (list nat)) (t : tape) :
  C <= 1 -> length blocks = R * T -> Forall (design_block (A * L)) blocks ->
  exists l d,
    run (generate_simulated_design R T A L C h) ((SIdx <$> blocks) ++ t)
      = Some (Ok (l, <[l := d]> h), t)
    /\ d !! "X" = Some (VArr (mk_ndarray [R; T; A; L] (bit_of <$> concat blocks))).
Proof.
  intros HC Hlen Hbl.
  destruct (design_accepts R T A L C h blocks t HC Hlen Hbl) as (r & Hrun).
  pose proof Hrun as H.
  apply design_run in H
    as (X & Z & -> & (Hsh & blocks' & Ht & Hlen' & Hbl' & Hdata) & _); [|done].
  apply app_inv_tail in Ht.
  assert (HI : Inj eq eq SIdx) by (intros x y E; by inversion E).
  apply (inj (fmap SIdx)) in Ht. subst blocks'.
  eexists _, _. split; [exact Hrun|].
  unfold design_bundle. rewrite lookup_insert_eq. do 2 f_equal.
  destruct X as [sh dt]. cbn [shape data] in *. subst sh.
  rewrite Hdata, Nat.sub_diag. cbn [Nat.mul replicate]. by rewrite app_nil_r.
Qed.

Lemma design_accepts_every_sample_witness :
  exists (l : loc) (d : gmap string pyval),
    run (generate_simulated_design 1 1 2 1 1 ∅) ((SIdx <$> [[1; 0]]) ++ [])
      = Some (Ok (l, <[l := d]> ∅), [])
    /\ d !! "X" = Some (VArr (mk_ndarray [1; 1; 2; 1] (bit_of <$> concat [[1; 0]]))).
Proof.
  apply (design_accepts_every_sample 1 1 2 1 1 ∅ [[1; 0]] []);
    [lia | reflexivity | ].
  repeat constructor.
Defined.

(** ** Runs of the simulator that exist *)

Lemma forallb_true_Forall {A : Type} (f : A -> bool) (l : list A) :
  Forall (fun x => f x = true) l -> forallb f l = true.
Proof.
  induction 1 as [|x l Hx _ IH]; [done|]. simpl. by rewrite Hx, IH.
Qed.

Lemma forallb_is_finite (l : list num) :
  Forall finite l -> forallb is_finite l = true.
Proof.
  intros H. apply forallb_true_Forall. eapply Forall_impl; [exact H|].
  intros x Hx. by destruct x.
Qed.

(** A kind that does not draw leaves the tape alone, and returns on a
    vector that is not empty. *)
Lemma pathology_fixed_accepts (beta : list num) (kind : string)
    (prob : list Q) :
  kind ∉ random_kinds -> beta <> [] ->
  exists out, forall t, run (pathology beta kind prob) t = Some (Ok out, t).
Proof.
  intros Hk Hne.
  destruct (pathology_cases beta kind prob)
    as [[_ E]|[[-> _]|[[_ E]|[[_ E]|[[-> _]|[[_ E]|[[-> _]|[_ E]]]]]]]];
    try (exfalso; apply Hk; unfold random_kinds; by repeat constructor);
    rewrite E; try (by eexists).
  - destruct (set_last_spec (of_int (-10000)) beta Hne) as (out & -> & _).
    by exists out.
  - destruct (set_last_spec NInf beta Hne) as (out & -> & _). by exists out.
Qed.

(** One scenario accepts any uniform value of [[0, 1)]. *)
Lemma scenario_accepts (np_log : num -> num) (d : gmap string pyval)
    (X : ndarray num) (R T A L : nat) (beta : list num) (resp scn : nat)
    (Y : ndarray num) (u : num) (t : tape) :
  d !! "X" = Some (VArr X) -> shape X = [R; T; A; L] ->
  d !! "C" = Some (VInt 1) -> 1 <= A ->
  resp < R -> scn < T -> length beta = L -> shape Y = [R; T] ->
  in_range 0 1 u = true ->
  exists Y',
    run (scenario np_log d beta resp scn Y) ([SNums [u]] ++ t) = Some (Ok Y', t)
    /\ shape Y' = [R; T].
Proof.
  intros HX Hsh HC HA Hresp Hscn Hbeta HY Hu. cbn [app].
  rewrite (scenario_run np_log d X R T A L beta resp scn Y u t) by done.
  fold (noisy_utilities np_log X T A L beta resp scn u).
  pose proof (length_noisy_utilities np_log X T A L beta resp scn u) as Hlen.
  unfold record_choice.
  destruct (noisy_utilities np_log X T A L beta resp scn u) as [|x xs];
    [simpl in Hlen; lia|].
  eexists. split; [reflexivity|]. done.
Qed.

(** One respondent accepts any vector of [L] finite components followed by
    [T] uniform values, when the kind does not draw. *)
Lemma respondent_accepts (np_log : num -> num) (d : gmap string pyval)
    (pathology_type : option string) (Gamma : list num)
    (X : ndarray num) (R T A L : nat) (resp : nat)
    (YB : ndarray num * ndarray num) (r : list num * list num) (t : tape) :
  d !! "X" = Some (VArr X) -> shape X = [R; T; A; L] ->
  d !! "C" = Some (VInt 1) -> d !! "T" = Some (VInt T) ->
  1 <= A -> 1 <= L -> length Gamma = L ->
  truthy pathology_type = false \/ default "" pathology_type ∉ random_kinds ->
  resp < R -> shape YB.1 = [R; T] -> shape YB.2 = [L; R] ->
  respondent_sample_ok L T r ->
  exists YB',
    run (respondent np_log d pathology_type Gamma (make_Vbeta L) resp YB)
      (respondent_sample r ++ t) = Some (Ok YB', t)
    /\ shape YB'.1 = [R; T] /\ shape YB'.2 = [L; R].
Proof.
  intros HX Hsh HC HT HA HL HG Hk Hresp HshY HshB (Hlb & Hfb & Hlu & Hus).
  destruct r as [b us]. cbn [fst snd] in *.
  unfold respondent. cbv zeta.
  rewrite (get_int_lookup _ _ _ HC), (get_int_lookup _ _ _ HT).
  rewrite run_mbind. cbn [run]. change (1 <? 1) with false. cbv iota.
  assert (Hv : valid_mvn Gamma (make_Vbeta L) = true).
  { unfold valid_mvn, make_Vbeta. cbn [shape]. by rewrite HG, Nat.eqb_refl. }
  unfold respondent_sample. cbn [fst snd app].
  rewrite run_mbind. cbn [np_random_multivariate_normal run].
  rewrite Hv, Hlb, HG, Nat.eqb_refl, (forallb_is_finite b Hfb). cbn [andb run].
  assert (Hp : exists b', length b' = L /\ forall t0,
             run (if truthy pathology_type
                  then pathology b (default "" pathology_type) default_prob
                  else Ret b) t0 = Some (Ok b', t0)).
  { destruct (truthy pathology_type) eqn:Etr.
    - destruct Hk as [Hk|Hk]; [done|].
      destruct (pathology_fixed_accepts b (default "" pathology_type)
                  default_prob Hk) as (out & Hout);
        [destruct b; [simpl in Hlb; lia|done]|].
      exists out. split; [|done].
      pose proof (pathology_outcome _ _ _ _ _ _ (Hout [])) as Hl.
      cbv beta iota in Hl. congruence.
    - exists b. split; [done|]. done. }
  destruct Hp as (b' & Hlb' & Hp).
  rewrite run_mbind, Hp. rewrite run_mbind. cbn [run]. rewrite run_mbind.
  rewrite <- (concat_singletons (fun u => SNums [u]) us).
  destruct (run_for_range_forward
              (fun _ (Y0 : ndarray num) => shape Y0 = [R; T])
              (scenario np_log d b' resp)
              ((fun u => [SNums [u]]) <$> us) YB.1 t) as (Y' & E & HY');
    [|done|].
  { intros scn c Y0 t0 Hc HY0.
    apply list_lookup_fmap_Some in Hc as (u & -> & Hu).
    apply lookup_lt_Some in Hu as Hscn. rewrite Hlu in Hscn.
    rewrite Forall_lookup in Hus.
    apply (scenario_accepts np_log d X R T A L b' resp scn Y0 u t0);
      try done. by apply (Hus scn u). }
  rewrite length_fmap, Hlu in E. rewrite E.
  rewrite run_mbind. unfold iadd_column. rewrite HshB.
  apply Nat.ltb_lt in Hresp. rewrite Hresp, Hlb', Nat.eqb_refl. cbn [run].
  eexists. split; [reflexivity|]. by split.
Qed.

Lemma forallb_in_range (lo hi : Q) (l : list num) :
  Forall (fun x => in_range lo hi x = true) l ->
  forallb (in_range lo hi) l = true.
Proof. apply forallb_true_Forall. Qed.

(** The whole call accepts [Gamma] followed by the samples of the
    respondents. *)
Lemma compute_beta_response_accepts (np_log : num -> num) (data_dict : loc)
    (pathology_type : option string) (h : gmap loc (gmap string pyval))
    (d : gmap string pyval) (X : ndarray num) (R T A L : nat)
    (Gamma : list num) (rs : list (list num * list num)) (t : tape) :
  h !! data_dict = Some d ->
  d !! "X" = Some (VArr X) -> shape X = [R; T; A; L] ->
  d !! "C" = Some (VInt 1) -> d !! "L" = Some (VInt L) ->
  d !! "R" = Some (VInt R) -> d !! "T" = Some (VInt T) ->
  1 <= A -> 1 <= L ->
  truthy pathology_type = false \/ default "" pathology_type ∉ random_kinds ->
  length Gamma = L -> Forall (fun x => in_range (-3) 4 x = true) Gamma ->
  length rs = R -> Forall (respondent_sample_ok L T) rs ->
  exists h',
    run (compute_beta_response np_log data_dict pathology_type h)
      (SNums Gamma :: concat (respondent_sample <$> rs) ++ t)
    = Some (Ok (data_dict, h'), t).
Proof.
  intros Hd HX Hsh HC HL HR HT HA HL1 Hk HG HGr Hlen Hrs.
  unfold compute_beta_response. rewrite Hd.
  rewrite (get_int_lookup _ _ _ HC), (get_int_lookup _ _ _ HL),
    (get_int_lookup _ _ _ HR), (get_int_lookup _ _ _ HT).
  rewrite run_mbind; cbn [run]. rewrite run_mbind; cbn [run].
  rewrite run_mbind. cbn [run np_random_uniform].
  rewrite HG, Nat.mul_1_l, Nat.eqb_refl, (forallb_in_range _ _ _ HGr).
  cbn [andb run].
  do 6 (rewrite run_mbind; cbn [run]).
  rewrite run_mbind.
  destruct (run_for_range_forward
              (fun _ (YB : ndarray num * ndarray num) =>
                 shape YB.1 = [R; T] /\ shape YB.2 = [L; R])
              (respondent np_log d pathology_type Gamma (make_Vbeta L))
              (respondent_sample <$> rs)
              (np_zeros [R; T], np_zeros [L; R]) t) as (YB & E & _);
    [|done|].
  { intros resp c YB t0 Hc [H1 H2].
    apply list_lookup_fmap_Some in Hc as (r & -> & Hr).
    apply lookup_lt_Some in Hr as Hresp. rewrite Hlen in Hresp.
    rewrite Forall_lookup in Hrs.
    apply (respondent_accepts np_log d pathology_type Gamma X R T A L resp YB r t0);
      try done. by apply (Hrs resp r). }
  rewrite length_fmap, Hlen in E. rewrite E.
  rewrite run_mbind.
  assert (Hana : pathology_type <> Some "ANA").
  { intros ->. destruct Hk as [Hk|Hk]; [done|].
    apply Hk. unfold random_kinds. cbn [default]. by repeat constructor. }
  rewrite bool_decide_eq_false_2 by done. cbn [run]. by eexists.
Qed.

(** X18. Every sample can be the run of the simulator when the kind does
    not draw: on a bundle with one covariate and a design of the shape
    [[R, T, A, L]] with at least one alternative and one level, for no
    pathology or a kind other than ['ANA'], ['screening_random'] and
    ['ANA_random'], the run that draws any [L] values of [[-3, 4)] for
    [Gamma] and then, for each of the [R] respondents, any vector of [L]
    finite components and any [T] uniform values of [[0, 1)], returns,
    consumes exactly these samples, and stores the [Gamma] drawn. *)
Theorem compute_beta_response_accepts_every_sample (np_log : num -> num)
    (data_dict : loc) (pathology_type : option string)
    (h : gmap loc (gmap string pyval)) (d : gmap string pyval)
    (X : ndarray num) (R T A L : nat)
    (Gamma : list num) (rs : list (list num * list num)) (t : tape) :
  h !! data_dict = Some d ->
  d !! "X" = Some (VArr X) -> shape X = [R; T; A; L] ->
  d !! "C" = Some (VInt 1) -> d !! "L" = Some (VInt L) ->
  d !! "R" = Some (VInt R) -> d !! "T" = Some (VInt T) ->
  1 <= A -> 1 <= L ->
  truthy pathology_type = false \/ default "" pathology_type ∉ random_kinds ->
  length Gamma = L -> Forall (fun x => in_range (-3) 4 x = true) Gamma ->
  length rs = R -> Forall (respondent_sample_ok L T) rs ->
  exists h' d',
    run (compute_beta_response np_log data_dict pathology_type h)
      (SNums Gamma :: concat (respondent_sample <$> rs) ++ t)
    = Some (Ok (data_dict, h'), t)
    /\ h' !! data_dict = Some d'
    /\ d' !! "Gamma" = Some (VArr (mk_ndarray [L] Gamma)).
Proof.
  intros Hd HX Hsh HC HL HR HT HA HL1 Hk HG HGr Hlen Hrs.
  destruct (compute_beta_response_accepts np_log data_dict pathology_type h d X
              R T A L Gamma rs t) as (h' & Hrun); try done.
  pose proof Hrun as H.
  eapply compute_beta_response_run in H
    as (Gamma0 & t1 & E0 & _ & _ & [(e & _ & E)|(Y & Beta & t2 & _ & Hres)]);
    try done.
  inversion E0; subst Gamma0 t1; clear E0.
  exists h'.
  destruct Hres as [(_ & ks & _ & _ & _ & E)|(_ & _ & E)];
    inversion E; subst h'; eexists;
    (split; [exact Hrun|]); (split; [apply lookup_insert_eq|]);
    unfold with_results; rewrite ?(lookup_insert_ne _ "w") by done;
    rewrite (lookup_insert_ne _ "Vbeta") by done;
    by rewrite lookup_insert_eq, HG.
Qed.

Lemma compute_beta_response_accepts_every_sample_witness :
  exists (h' : gmap loc (gmap string pyval)) (d' : gmap string pyval),
    run (compute_beta_response (fun x => x) 0 (Some "screening") small_heap)
      (SNums [Fin 2]
       :: concat (respondent_sample <$> [([Fin (3 # 2)], [Fin (1 # 3)])]) ++ [])
    = Some (Ok (0, h'), [])
    /\ h' !! 0 = Some d'
    /\ d' !! "Gamma" = Some (VArr (mk_ndarray [1] [Fin 2])).
Proof.
  apply (compute_beta_response_accepts_every_sample (fun x => x) 0
           (Some "screening") small_heap small_design
           (mk_ndarray [1; 1; 2; 1] [Fin 1; Fin 0]) 1 1 2 1
           [Fin 2] [([Fin (3 # 2)], [Fin (1 # 3)])] []);
    try reflexivity; try lia.
  - right. unfold random_kinds. cbn [default]. intros H.
    repeat (apply elem_of_cons in H as [H|H]; [discriminate H|]).
    by apply elem_of_nil in H.
  - repeat constructor.
  - repeat constructor.
Defined.

(** ** The design and the responses together *)

Lemma respondents_loop_filled (np_log : num -> num) (d : gmap string pyval)
    (pathology_type : option string) (Gamma : list num)
    (X : ndarray num) (R T A L : nat)
    (t : tape) (Y Beta : ndarray num) (t' : tape) :
  d !! "X" = Some (VArr X) -> shape X = [R; T; A; L] ->
  d !! "T" = Some (VInt T) ->
  run (respondents_loop np_log d pathology_type Gamma R T L) t
    = Some (Ok (Y, Beta), t') ->
  filled R T A (R * T) Y.
Proof.
  intros HX Hsh HT H. unfold respondents_loop in H.
  apply (run_for_range (fun r (YB : ndarray num * ndarray num) =>
                          filled R T A (r * T) YB.1)
           (respondent np_log d pathology_type Gamma (make_Vbeta L)) R
           (np_zeros [R; T], np_zeros [L; R]) t (Y, Beta) t');
    [|apply filled_zeros|exact H].
  intros r YB ta YB' tb Hr HI Hrun.
  eapply respondent_step; eauto.
Qed.

(** A design of at least one alternative and one level, then the responses:
    no run raises, and the bundle returned is the new dict of the design
    with the fields of the responses added. *)
Lemma design_then_responses (np_log : num -> num)
    (pathology_type : option string) (R T A L : nat)
    (h : gmap loc (gmap string pyval)) (t : tape)
    (res : result (loc * gmap loc (gmap string pyval))) (t' : tape) :
  1 <= A -> 1 <= L ->
  run (r ← generate_simulated_design R T A L 1 h;
       compute_beta_response np_log r.1 pathology_type r.2) t = Some (res, t') ->
  exists X Z Y Beta Gamma d',
    res = Ok (fresh (dom h), <[fresh (dom h) := d']> h)
    /\ (d' = with_results (design_bundle X Z A R 1 T L) Y Beta Gamma (make_Vbeta L)
        \/ exists w, d' = <["w" := w]>
                            (with_results (design_bundle X Z A R 1 T L) Y Beta
                               Gamma (make_Vbeta L)))
    /\ shape X = [R; T; A; L]
    /\ length (data X) = R * T * (A * L)
    /\ Forall (fun x => x = Fin 0 \/ x = Fin 1) (data X)
    /\ filled R T A (R * T) Y
    /\ shape Beta = [L; R] /\ length (data Beta) = L * R.
Proof.
  intros HA HL H.
  apply run_mbind_inv in H as [([l1 h1] & t1 & Hdes & H)|(e & Hdes & _)];
    apply design_run in Hdes as (X & Z & E & (Hsh & blocks & _ & Hlb & Hbl & Hdata) & _);
    try lia; [|done].
  inversion E; subst l1 h1; clear E. cbn [fst snd] in H.
  set (l := fresh (dom h)) in *.
  set (d := design_bundle X (transpose Z) A R 1 T L) in *.
  assert (Hd : (<[l := d]> h) !! l = Some d) by apply lookup_insert_eq.
  assert (HX : d !! "X" = Some (VArr X)) by reflexivity.
  assert (HC : d !! "C" = Some (VInt 1)) by reflexivity.
  assert (HLk : d !! "L" = Some (VInt L)) by reflexivity.
  assert (HR : d !! "R" = Some (VInt R)) by reflexivity.
  assert (HT : d !! "T" = Some (VInt T)) by reflexivity.
  destruct (compute_beta_response_run np_log l pathology_type (<[l := d]> h) d
              1 L R T t1 res t' Hd HC HLk HR HT H)
    as (Gamma & t2 & -> & HG & _ & [(e & Hloop & _)|(Y & Beta & t3 & Hloop & Hres)]).
  { eapply respondents_loop_safe in Hloop as (YB & E); try done. lia. }
  pose proof (respondents_loop_filled np_log d pathology_type Gamma X R T A L
                t2 Y Beta t3 HX Hsh HT Hloop) as Hfill.
  apply respondents_loop_columns in Hloop as (bs & _ & _ & HshB & HlenB & _).
  assert (HXlen : length (data X) = R * T * (A * L)).
  { rewrite Hdata, length_app, length_fmap, length_replicate,
      (length_concat_blocks (A * L)), Hlb by done. nia. }
  assert (HXbits : Forall (fun x => x = Fin 0 \/ x = Fin 1) (data X)).
  { rewrite Hdata. apply Forall_app. split; [by apply (bits_of_blocks (A * L))|].
    apply Forall_replicate. by left. }
  exists X, (transpose Z), Y, Beta, Gamma.
  destruct Hres as [(_ & ks & _ & _ & _ & ->)|(_ & _ & ->)];
    eexists; (split; [by rewrite insert_insert_eq|]);
    (split; [|done]); [right; by eexists|by left].
Qed.

(** The design and the responses accept any samples of the right sizes,
    when the kind does not draw. *)
Lemma design_then_responses_accepts (np_log : num -> num)
    (pathology_type : option string) (R T A L : nat)
    (h : gmap loc (gmap string pyval)) (blocks : list (list nat))
    (Gamma : list num) (rs : list (list num * list num)) (t : tape) :
  1 <= A -> 1 <= L ->
  truthy pathology_type = false \/ default "" pathology_type ∉ random_kinds ->
  length blocks = R * T -> Forall (design_block (A * L)) blocks ->
  length Gamma = L -> Forall (fun x => in_range (-3) 4 x = true) Gamma ->
  length rs = R -> Forall (respondent_sample_ok L T) rs ->
  exists res,
    run (r ← generate_simulated_design R T A L 1 h;
         compute_beta_response np_log r.1 pathology_type r.2)
      ((SIdx <$> blocks)
       ++ SNums Gamma :: concat (respondent_sample <$> rs) ++ t)
    = Some (res, t).
Proof.
  intros HA HL Hk Hlb Hbl HG HGr Hlr Hrs. rewrite run_mbind.
  destruct (design_accepts R T A L 1 h blocks
              (SNums Gamma :: concat (respondent_sample <$> rs) ++ t))
    as (r1 & Hdes); [lia|done|done|].
  rewrite Hdes.
  apply design_run in Hdes as (X & Z & -> & (Hsh & _) & _); [|lia].
  cbn [fst snd].
  destruct (compute_beta_response_accepts np_log (fresh (dom h)) pathology_type
              (<[fresh (dom h) := design_bundle X (transpose Z) A R 1 T L]> h)
              (design_bundle X (transpose Z) A R 1 T L) X R T A L Gamma rs t)
    as (h' & E); try done; try reflexivity.
  - apply lookup_insert_eq.
  - rewrite E. by eexists.
Qed.

(** X19. [generate_simulated_data] never raises, whatever the kind: every
    run returns a new dict, every other object left as it was, with
    [R = 100], [T = 10], [A = 4], [L = 12], [C = 1], a design [X] of the shape
    [[100, 10, 4, 12]] whose entries are each 0 or 1, responses [Y] of the
    shape [[100, 10]] that are each one of 1, 2, 3, 4, and a [Beta] of the
    shape [[12, 100]]. *)
Theorem generate_simulated_data_returns_a_full_bundle (np_log : num -> num)
    (pathology_type : option string) (h : gmap loc (gmap string pyval))
    (t : tape) (r : result (loc * gmap loc (gmap string pyval))) (t' : tape) :
  run (generate_simulated_data np_log pathology_type h) t = Some (r, t') ->
  exists l d' X Y Beta,
    r = Ok (l, <[l := d']> h) /\ h !! l = None
    /\ d' !! "R" = Some (VInt 100) /\ d' !! "T" = Some (VInt 10)
    /\ d' !! "A" = Some (VInt 4) /\ d' !! "L" = Some (VInt 12)
    /\ d' !! "C" = Some (VInt 1)
    /\ d' !! "X" = Some (VArr X) /\ shape X = [100; 10; 4; 12]
    /\ length (data X) = 100 * 10 * (4 * 12)
    /\ Forall (fun x => x = Fin 0 \/ x = Fin 1) (data X)
    /\ d' !! "Y" = Some (VIntArr Y) /\ shape Y = [100; 10]
    /\ length (data Y) = 100 * 10
    /\ Forall (fun y => (1 <= y <= 4)%Z) (data Y)
    /\ d' !! "Beta" = Some (VArr Beta) /\ shape Beta = [12; 100]
    /\ length (data Beta) = 12 * 100.
Proof.
  intros H. unfold generate_simulated_data in H.
  apply design_then_responses in H
    as (X & Z & Y & Beta & Gamma & d' & -> & Hd' & Hsh & HlenX & HX
        & (HshY & HlenY & Hlo & _) & HshB & HlenB); [|lia|lia].
  exists (fresh (dom h)), d', X, (astype_int Y), Beta.
  split; [done|]. split; [apply not_elem_of_dom, is_fresh|].
  assert (HY : Forall (fun y => (1 <= y <= 4)%Z) (data (astype_int Y))).
  { unfold astype_int. cbn [data]. apply Forall_fmap, Forall_lookup.
    intros i y Hy. cbv beta. apply lookup_lt_Some in Hy as Hi.
    apply (Hlo i y); [lia|done]. }
  assert (HlY : length (data (astype_int Y)) = 100 * 10)
    by (unfold astype_int; cbn [data]; by rewrite length_fmap).
  destruct Hd' as [->|(w & ->)]; unfold with_results, design_bundle;
    rewrite ?(lookup_insert_ne _ "w") by done;
    repeat (split; [first [done | reflexivity]|]); done.
Qed.

Lemma generate_simulated_data_returns_a_full_bundle_witness :
  exists (r : result (loc * gmap loc (gmap string pyval))),
  exists (l : loc) (d' : gmap string pyval) (X : ndarray num) (Y : ndarray Z)
         (Beta : ndarray num),
    r = Ok (l, <[l := d']> ∅)
    /\ (∅ : gmap loc (gmap string pyval)) !! l = None
    /\ d' !! "R" = Some (VInt 100) /\ d' !! "T" = Some (VInt 10)
    /\ d' !! "A" = Some (VInt 4) /\ d' !! "L" = Some (VInt 12)
    /\ d' !! "C" = Some (VInt 1)
    /\ d' !! "X" = Some (VArr X) /\ shape X = [100; 10; 4; 12]
    /\ length (data X) = 100 * 10 * (4 * 12)
    /\ Forall (fun x => x = Fin 0 \/ x = Fin 1) (data X)
    /\ d' !! "Y" = Some (VIntArr Y) /\ shape Y = [100; 10]
    /\ length (data Y) = 100 * 10
    /\ Forall (fun y => (1 <= y <= 4)%Z) (data Y)
    /\ d' !! "Beta" = Some (VArr Beta) /\ shape Beta = [12; 100]
    /\ length (data Beta) = 12 * 100.
Proof.
  destruct (design_then_responses_accepts (fun x => x) None 100 10 4 12 ∅
              (replicate (100 * 10) (replicate (4 * 12) 0))
              (replicate 12 (Fin 0))
              (replicate 100 (replicate 12 (Fin 0), replicate 10 (Fin (1 # 2))))
              []) as (r & Hrun).
  - lia.
  - lia.
  - by left.
  - apply length_replicate.
  - apply Forall_replicate. split; [apply length_replicate|].
    apply Forall_replicate. lia.
  - apply length_replicate.
  - by apply Forall_replicate.
  - apply length_replicate.
  - apply Forall_replicate. unfold respondent_sample_ok. cbn [fst snd].
    split; [apply length_replicate|]. split; [by apply Forall_replicate|].
    split; [apply length_replicate|]. by apply Forall_replicate.
  - exists r.
    exact (generate_simulated_data_returns_a_full_bundle (fun x => x) None ∅
             default_tape r [] Hrun).
Defined.

(** ** The colour scale *)

Lemma Qle_bool_false (x y : Q) : Qle_bool x y = false -> (y < x)%Q.
Proof.
  intros H. apply Qnot_le_lt. intros Hle. apply Qle_bool_iff in Hle. congruence.
Qed.

Lemma Qeq_bool_false (x y : Q) : Qeq_bool x y = false -> ~ (x == y)%Q.
Proof. intros H E. apply Qeq_bool_iff in E. congruence. Qed.

Lemma nge_Fin (x y : Q) : nge (Fin x) (Fin y) = Qle_bool y x.
Proof.
  unfold nge. cbn [ngt neqb].
  destruct (Qle_bool x y) eqn:E1, (Qeq_bool x y) eqn:E2, (Qle_bool y x) eqn:E3;
    cbn [negb orb]; try reflexivity; exfalso;
    repeat match goal with
    | H : Qle_bool _ _ = true |- _ => apply Qle_bool_iff in H
    | H : Qle_bool _ _ = false |- _ => apply Qle_bool_false in H
    | H : Qeq_bool _ _ = true |- _ => apply Qeq_bool_iff in H
    | H : Qeq_bool _ _ = false |- _ => apply Qeq_bool_false in H
    end; lra.
Qed.

Ltac q_bools :=
  repeat match goal with
  | H : Qle_bool _ _ = true |- _ => apply Qle_bool_iff in H
  | H : Qle_bool _ _ = false |- _ => apply Qle_bool_false in H
  | H : Qeq_bool _ _ = true |- _ => apply Qeq_bool_iff in H
  | H : Qeq_bool _ _ = false |- _ => apply Qeq_bool_false in H
  end.

Ltac q_case b :=
  let E := fresh "E" in
  destruct b eqn:E; q_bools; try (exfalso; lra).

(** The interval of [[a; m; b]] that holds a finite key. *)
Lemma search_three (a m b q : Q) :
  (a < m)%Q -> (m < b)%Q ->
  binary_search_with_guess (Fin q) [Fin a; Fin m; Fin b]
  = if Qle_bool q b
    then if Qle_bool a q
         then if Qle_bool m q then if Qle_bool b q then 2%Z else 1%Z else 0%Z
         else (-1)%Z
    else 3%Z.
Proof.
  intros Ham Hmb. unfold binary_search_with_guess.
  change (default NaN (last [Fin a; Fin m; Fin b])) with (Fin b).
  change (default NaN (head [Fin a; Fin m; Fin b])) with (Fin a).
  cbn [ngt tail linear_scan length]. rewrite !nge_Fin.
  destruct (Qle_bool q b); cbn [negb]; [|done].
  destruct (Qle_bool a q); cbn [negb]; [|done].
  destruct (Qle_bool m q); [|done].
  by destruct (Qle_bool b q).
Qed.

(** A finite value between the anchors is sent to the ramp. *)
Lemma interp_finite (a m b q : Q) :
  (a < m)%Q -> (m < b)%Q ->
  exists r,
    interp_one [Fin a; Fin m; Fin b] [Fin 0; Fin (1 # 2); Fin 1] (Fin q) = Fin r
    /\ (r == ramp a m b q)%Q.
Proof.
  intros Ham Hmb. unfold interp_one. cbv zeta. cbn [is_nan].
  rewrite (search_three a m b q Ham Hmb). unfold ramp.
  q_case (Qle_bool q b).
  - q_case (Qle_bool a q).
    + q_case (Qle_bool m q).
      * q_case (Qle_bool b q).
        -- (* q = b *)
           exists 1%Q. split; [reflexivity|].
           q_case (Qle_bool q a). reflexivity.
        -- (* m <= q < b *)
           q_case (Qle_bool q a).
           change (length [Fin a; Fin m; Fin b]) with 3.
           change ((1 =? -1)%Z) with false. change ((1 =? Z.of_nat 3)%Z) with false.
           change ((1 =? Z.of_nat 3 - 1)%Z) with false. cbv iota.
           change (Z.to_nat 1) with 1.
           change (default NaN ([Fin a; Fin m; Fin b] !! 1)) with (Fin m).
           change (default NaN ([Fin a; Fin m; Fin b] !! 2)) with (Fin b).
           change (default NaN ([Fin 0; Fin (1 # 2); Fin 1] !! 1)) with (Fin (1 # 2)).
           change (default NaN ([Fin 0; Fin (1 # 2); Fin 1] !! 2)) with (Fin 1).
           cbn [neqb].
           destruct (Qeq_bool m q) eqn:Emq; q_bools.
           ++ exists (1 # 2)%Q. split; [reflexivity|].
              q_case (Qle_bool q m). rewrite <- Emq. field. lra.
           ++ cbn [nsub nneg nadd ndiv].
              q_case (Qeq_bool (b + - m) 0).
              cbn [nmul nadd is_nan]. eexists. split; [reflexivity|].
              q_case (Qle_bool q m). field. lra.
      * (* a <= q < m *)
        q_case (Qle_bool b q).
        change (length [Fin a; Fin m; Fin b]) with 3.
        change ((0 =? -1)%Z) with false. change ((0 =? Z.of_nat 3)%Z) with false.
        change ((0 =? Z.of_nat 3 - 1)%Z) with false. cbv iota.
        change (Z.to_nat 0) with 0.
        change (default NaN ([Fin a; Fin m; Fin b] !! 0)) with (Fin a).
        change (default NaN ([Fin a; Fin m; Fin b] !! 1)) with (Fin m).
        change (default NaN ([Fin 0; Fin (1 # 2); Fin 1] !! 0)) with (Fin 0).
        change (default NaN ([Fin 0; Fin (1 # 2); Fin 1] !! 1)) with (Fin (1 # 2)).
        cbn [neqb].
        destruct (Qeq_bool a q) eqn:Eaq; q_bools.
        -- exists 0%Q. split; [reflexivity|].
           q_case (Qle_bool q a). reflexivity.
        -- cbn [nsub nneg nadd ndiv].
           q_case (Qeq_bool (m + - a) 0).
           cbn [nmul nadd is_nan]. eexists. split; [reflexivity|].
           q_case (Qle_bool q a). q_case (Qle_bool q m). field. lra.
    + exists 0%Q. split; [reflexivity|]. q_case (Qle_bool q a). reflexivity.
  - exists 1%Q. split; [reflexivity|].
    q_case (Qle_bool q a). q_case (Qle_bool b q). reflexivity.
Qed.

(** The entries of the masked array, one per input. *)
Lemma MidpointNormalize_call_lookup (self : MidpointNormalize)
    (value : list num) (i : nat) (x : num) :
  value !! i = Some x ->
  MidpointNormalize_call self value !! i
  = Some (interp_one [vmin self; midpoint self; vmax self]
            [Fin 0; Fin (1 # 2); Fin 1] x, is_nan x).
Proof.
  intros Hx. unfold MidpointNormalize_call, np_interp. cbv zeta.
  apply lookup_zip_Some. by rewrite !list_lookup_fmap, Hx.
Qed.

Lemma MidpointNormalize_call_length (self : MidpointNormalize)
    (value : list num) :
  length (MidpointNormalize_call self value) = length value.
Proof.
  unfold MidpointNormalize_call, np_interp. cbv zeta.
  rewrite length_zip_with, !length_fmap. lia.
Qed.

Lemma interp_PInf (a m b : Q) :
  interp_one [Fin a; Fin m; Fin b] [Fin 0; Fin (1 # 2); Fin 1] PInf = Fin 1.
Proof. reflexivity. Qed.

Lemma interp_NInf (a m b : Q) :
  interp_one [Fin a; Fin m; Fin b] [Fin 0; Fin (1 # 2); Fin 1] NInf = Fin 0.
Proof. reflexivity. Qed.

Lemma interp_NaN (xp fp : list num) : interp_one xp fp NaN = NaN.
Proof. reflexivity. Qed.

Lemma ramp_left (a m b q : Q) :
  (a < m)%Q -> (m < b)%Q -> (a <= q)%Q -> (q <= m)%Q ->
  (ramp a m b q == (q - a) / (2 * (m - a)))%Q.
Proof.
  intros Ham Hmb Haq Hqm. unfold ramp.
  q_case (Qle_bool q a).
  - assert (E0 : (q == a)%Q) by lra. rewrite E0. field. lra.
  - q_case (Qle_bool b q). q_case (Qle_bool q m). reflexivity.
Qed.

Lemma ramp_right (a m b q : Q) :
  (a < m)%Q -> (m < b)%Q -> (m <= q)%Q -> (q <= b)%Q ->
  (ramp a m b q == (1 # 2) + (q - m) / (2 * (b - m)))%Q.
Proof.
  intros Ham Hmb Hmq Hqb. unfold ramp.
  q_case (Qle_bool q a). q_case (Qle_bool b q).
  - assert (E1 : (q == b)%Q) by lra. rewrite E1. field. lra.
  - q_case (Qle_bool q m); [|reflexivity].
    assert (E2 : (q == m)%Q) by lra. rewrite E2. field. split; lra.
Qed.

Lemma ramp_below (a m b q : Q) : (q <= a)%Q -> ramp a m b q = 0%Q.
Proof. intros H. unfold ramp. by q_case (Qle_bool q a). Qed.

Lemma ramp_above (a m b q : Q) :
  (a < m)%Q -> (m < b)%Q -> (b <= q)%Q -> ramp a m b q = 1%Q.
Proof.
  intros Ham Hmb H. unfold ramp. q_case (Qle_bool q a).
  by q_case (Qle_bool b q).
Qed.

(** Between the anchors the ramp is strictly increasing. *)
Lemma ramp_lt (a m b q1 q2 : Q) :
  (a < m)%Q -> (m < b)%Q -> (a <= q1)%Q -> (q1 < q2)%Q -> (q2 <= b)%Q ->
  (ramp a m b q1 < ramp a m b q2)%Q.
Proof.
  intros Ham Hmb H1 H12 H2.
  assert (Hl : forall x y, (x < y)%Q -> (x / (2 * (m - a)) < y / (2 * (m - a)))%Q).
  { intros x y Hxy. apply Qmult_lt_compat_r; [|done].
    apply Qinv_lt_0_compat. lra. }
  assert (Hr : forall x y, (x < y)%Q -> (x / (2 * (b - m)) < y / (2 * (b - m)))%Q).
  { intros x y Hxy. apply Qmult_lt_compat_r; [|done].
    apply Qinv_lt_0_compat. lra. }
  assert (Hm1 : ((m - a) / (2 * (m - a)) == 1 # 2)%Q) by (field; lra).
  assert (Hm2 : ((m - m) / (2 * (b - m)) == 0)%Q) by (field; lra).
  destruct (Qlt_le_dec m q1) as [Hq1|Hq1], (Qlt_le_dec m q2) as [Hq2|Hq2];
    try (exfalso; lra).
  - rewrite (ramp_right a m b q1), (ramp_right a m b q2) by lra.
    pose proof (Hr (q1 - m) (q2 - m))%Q. lra.
  - rewrite (ramp_left a m b q1), (ramp_right a m b q2) by lra.
    assert (Hx : (q1 - a <= m - a)%Q) by lra.
    apply Qle_lt_or_eq in Hx as [Hx|Hx].
    + pose proof (Hl _ _ Hx). pose proof (Hr (m - m) (q2 - m))%Q. lra.
    + rewrite Hx. pose proof (Hr (m - m) (q2 - m))%Q. lra.
  - rewrite (ramp_left a m b q1), (ramp_left a m b q2) by lra.
    pose proof (Hl (q1 - a) (q2 - a))%Q. lra.
Qed.

Lemma ramp_range (a m b q : Q) :
  (a < m)%Q -> (m < b)%Q -> (0 <= ramp a m b q <= 1)%Q.
Proof.
  intros Ham Hmb.
  assert (Ha : ramp a m b a = 0%Q) by (apply ramp_below; lra).
  assert (Hb : ramp a m b b = 1%Q) by (apply ramp_above; lra).
  destruct (Qlt_le_dec a q) as [H1|H1].
  - destruct (Qlt_le_dec q b) as [H2|H2].
    + pose proof (ramp_lt a m b a q Ham Hmb). pose proof (ramp_lt a m b q b Ham Hmb).
      rewrite Ha in *. rewrite Hb in *. lra.
    + rewrite ramp_above by lra. lra.
  - rewrite ramp_below by lra. lra.
Qed.




(** The scale whose three anchors coincide. *)
Lemma interp_degenerate (a m b q : Q) :
  (a == m)%Q -> (m == b)%Q ->
  interp_one [Fin a; Fin m; Fin b] [Fin 0; Fin (1 # 2); Fin 1] (Fin q)
  = if Qle_bool a q then Fin 1 else Fin 0.
Proof.
  intros Ham Hmb. unfold interp_one, binary_search_with_guess. cbv zeta.
  cbn [is_nan].
  change (default NaN (last [Fin a; Fin m; Fin b])) with (Fin b).
  change (default NaN (head [Fin a; Fin m; Fin b])) with (Fin a).
  cbn [ngt tail linear_scan length]. rewrite !nge_Fin.
  q_case (Qle_bool q b); cbn [negb].
  - q_case (Qle_bool a q); cbn [negb]; [|reflexivity].
    q_case (Qle_bool m q). q_case (Qle_bool b q). reflexivity.
  - q_case (Qle_bool a q). reflexivity.
Qed.

(** X20. On a scale with [vmin < midpoint < vmax] the masked array has one
    entry per input; a NaN stays a NaN and is the only masked entry; every
    other input, infinite ones included, is sent into [[0, 1]], [-inf] to 0
    and [+inf] to 1. *)
Theorem MidpointNormalize_unit_interval (a m b : Q) (value : list num)
    (i : nat) (x : num) :
  (a < m)%Q -> (m < b)%Q -> value !! i = Some x ->
  length (MidpointNormalize_call
            {| vmin := Fin a; vmax := Fin b; midpoint := Fin m |} value)
  = length value
  /\ exists y,
       MidpointNormalize_call
         {| vmin := Fin a; vmax := Fin b; midpoint := Fin m |} value !! i
       = Some (y, is_nan x)
       /\ (is_nan x = true -> y = NaN)
       /\ (is_nan x = false -> exists r, y = Fin r /\ (0 <= r <= 1)%Q)
       /\ (x = NInf -> y = Fin 0)
       /\ (x = PInf -> y = Fin 1).
Proof.
  intros Ham Hmb Hx. split; [apply MidpointNormalize_call_length|].
  eexists. split; [by apply MidpointNormalize_call_lookup|].
  cbn [vmin vmax midpoint].
  destruct x as [q| | |]; cbn [is_nan].
  - destruct (interp_finite a m b q Ham Hmb) as (r & -> & Hr).
    split; [done|]. split; [|done]. intros _. exists r. split; [done|].
    rewrite Hr. by apply ramp_range.
  - rewrite interp_PInf. split; [done|]. split; [|done].
    intros _. exists 1%Q. split; [done|]. lra.
  - rewrite interp_NInf. split; [done|]. split; [|done].
    intros _. exists 0%Q. split; [done|]. lra.
  - rewrite interp_NaN. by repeat split.
Qed.

Lemma MidpointNormalize_unit_interval_witness :
  length (MidpointNormalize_call
            {| vmin := Fin (-1); vmax := Fin 1; midpoint := Fin 0 |}
            [NaN; Fin (1 # 2)])
  = length [NaN; Fin (1 # 2)]
  /\ exists y,
       MidpointNormalize_call
         {| vmin := Fin (-1); vmax := Fin 1; midpoint := Fin 0 |}
         [NaN; Fin (1 # 2)] !! 1
       = Some (y, is_nan (Fin (1 # 2)))
       /\ (is_nan (Fin (1 # 2)) = true -> y = NaN)
       /\ (is_nan (Fin (1 # 2)) = false -> exists r, y = Fin r /\ (0 <= r <= 1)%Q)
       /\ (Fin (1 # 2) = NInf -> y = Fin 0)
       /\ (Fin (1 # 2) = PInf -> y = Fin 1).
Proof.
  apply (MidpointNormalize_unit_interval (-1) 0 1 [NaN; Fin (1 # 2)] 1
           (Fin (1 # 2))); reflexivity.
Defined.







(** X24. A scale whose three anchors coincide, as [plot_betas] builds when
    [max_beta] is 0, has no middle colour: a finite value below the anchor
    is sent to 0 and every other one to 1, the anchor itself included. *)
Theorem MidpointNormalize_degenerate_scale (a m b : Q) (value : list num)
    (i : nat) (q : Q) :
  (a == m)%Q -> (m == b)%Q -> value !! i = Some (Fin q) ->
  ((q < a)%Q ->
   MidpointNormalize_call
     {| vmin := Fin a; vmax := Fin b; midpoint := Fin m |} value !! i
   = Some (Fin 0, false))
  /\ ((a <= q)%Q ->
      MidpointNormalize_call
        {| vmin := Fin a; vmax := Fin b; midpoint := Fin m |} value !! i
      = Some (Fin 1, false)).
Proof.
  intros Ham Hmb Hx.
  rewrite (MidpointNormalize_call_lookup _ _ _ _ Hx). cbn [vmin vmax midpoint].
  rewrite (interp_degenerate a m b q Ham Hmb). cbn [is_nan].
  split; intros H; by q_case (Qle_bool a q).
Qed.

Lemma MidpointNormalize_degenerate_scale_witness :
  ((0 < - 0)%Q ->
   MidpointNormalize_call
     {| vmin := Fin (- 0); vmax := Fin 0; midpoint := Fin 0 |} [Fin 0] !! 0
   = Some (Fin 0, false))
  /\ ((- 0 <= 0)%Q ->
      MidpointNormalize_call
        {| vmin := Fin (- 0); vmax := Fin 0; midpoint := Fin 0 |} [Fin 0] !! 0
      = Some (Fin 1, false)).
Proof.
  apply (MidpointNormalize_degenerate_scale (- 0) 0 0 [Fin 0] 0 0); reflexivity.
Defined.

(** ** What the simulator reads *)

Lemma same_run_bind {A B1 B2 : Type} (P : B1 -> B2 -> Prop) (m : prog A)
    (f1 : A -> prog B1) (f2 : A -> prog B2) (t : tape) :
  (forall a t', same_run P (run (f1 a) t') (run (f2 a) t')) ->
  same_run P (run (m ≫= f1) t) (run (m ≫= f2) t).
Proof.
  intros H. rewrite !run_mbind.
  destruct (run m t) as [[[a|e] t']|]; [apply H|done|done].
Qed.

Lemma get_int_agree (d1 d2 : gmap string pyval) (k : string) :
  d1 !! k = d2 !! k -> get_int d1 k = get_int d2 k.
Proof. unfold get_int. by intros ->. Qed.

Lemma get_arr_agree (d1 d2 : gmap string pyval) (k : string) :
  d1 !! k = d2 !! k -> get_arr d1 k = get_arr d2 k.
Proof. unfold get_arr. by intros ->. Qed.

Lemma scenario_agree (np_log : num -> num) (d1 d2 : gmap string pyval) :
  d1 !! "C" = d2 !! "C" -> d1 !! "X" = d2 !! "X" ->
  scenario np_log d1 = scenario np_log d2.
Proof.
  intros HC HX. unfold scenario.
  by rewrite (get_int_agree d1 d2 "C" HC), (get_arr_agree d1 d2 "X" HX).
Qed.

Lemma respondent_agree (np_log : num -> num) (d1 d2 : gmap string pyval)
    (pathology_type : option string) :
  d1 !! "C" = d2 !! "C" -> d1 !! "T" = d2 !! "T" -> d1 !! "X" = d2 !! "X" ->
  respondent np_log d1 pathology_type = respondent np_log d2 pathology_type.
Proof.
  intros HC HT HX. unfold respondent.
  by rewrite (get_int_agree d1 d2 "C" HC), (get_int_agree d1 d2 "T" HT),
    (scenario_agree np_log d1 d2 HC HX).
Qed.

(** X25. [compute_beta_response] reads the fields [C], [L], [R], [T] and [X]
    of the bundle and no other: on two bundles that agree on these five, and
    differ as they like in [Z], [A] or anything else, the same samples give
    the same outcome, a refusal, the same exception at the same point, or a
    return with the same [Beta], [Y], [Gamma] and [Vbeta] (and the same [w]
    under ['ANA']). *)
Theorem compute_beta_response_reads_only_the_design (np_log : num -> num)
    (data_dict : loc) (pathology_type : option string)
    (h1 h2 : gmap loc (gmap string pyval)) (d1 d2 : gmap string pyval)
    (t : tape) :
  h1 !! data_dict = Some d1 -> h2 !! data_dict = Some d2 ->
  d1 !! "C" = d2 !! "C" -> d1 !! "L" = d2 !! "L" -> d1 !! "R" = d2 !! "R" ->
  d1 !! "T" = d2 !! "T" -> d1 !! "X" = d2 !! "X" ->
  same_run
    (fun r1 r2 =>
       r1.1 = data_dict /\ r2.1 = data_dict
       /\ exists d1' d2',
            r1.2 = <[data_dict := d1']> h1 /\ r2.2 = <[data_dict := d2']> h2
            /\ Forall (fun k => d1' !! k = d2' !! k)
                 ["Beta"; "Y"; "Gamma"; "Vbeta"]
            /\ (pathology_type = Some "ANA" -> d1' !! "w" = d2' !! "w"))
    (run (compute_beta_response np_log data_dict pathology_type h1) t)
    (run (compute_beta_response np_log data_dict pathology_type h2) t).
Proof.
  intros Hd1 Hd2 HC HL HR HT HX. unfold compute_beta_response.
  rewrite Hd1, Hd2.
  rewrite (get_int_agree d1 d2 "C" HC), (get_int_agree d1 d2 "L" HL),
    (get_int_agree d1 d2 "R" HR), (get_int_agree d1 d2 "T" HT),
    (respondent_agree np_log d1 d2 pathology_type HC HT HX).
  cbv zeta.
  do 9 (apply same_run_bind; intros ? ?).
  apply same_run_bind. intros YB tY.
  destruct (bool_decide (pathology_type = Some "ANA")) eqn:EA.
  - unfold get_int. rewrite !lookup_insert_ne by done. rewrite HT.
    destruct (d2 !! "T") as [[n|?|?]|]; rewrite !run_mbind; cbn [run];
      try done.
    rewrite !run_mbind.
    destruct (run (np_random_binomial 1 (1 # 2) n) tY) as [[[w|e] t'']|];
      cbn [run]; [|done|done].
    eexists. split; [reflexivity|]. cbn [fst snd].
    split; [done|]. split; [done|].
    eexists _, _. split; [reflexivity|]. split; [reflexivity|].
    split; [repeat constructor; by simplify_map_eq|].
    intros _. by simplify_map_eq.
  - rewrite !run_mbind. cbn [run].
    eexists. split; [reflexivity|]. cbn [fst snd].
    split; [done|]. split; [done|].
    eexists _, _. split; [reflexivity|]. split; [reflexivity|].
    split; [repeat constructor; by simplify_map_eq|].
    intros E. apply bool_decide_eq_false in EA. done.
Qed.

Lemma compute_beta_response_reads_only_the_design_witness :
  same_run
    (fun r1 r2 : loc * gmap loc (gmap string pyval) =>
       r1.1 = 0 /\ r2.1 = 0
       /\ exists d1' d2',
            r1.2 = <[0 := d1']> small_heap
            /\ r2.2 = <[0 := d2']> (<[0 := small_design_other]> ∅)
            /\ Forall (fun k => d1' !! k = d2' !! k)
                 ["Beta"; "Y"; "Gamma"; "Vbeta"]
            /\ (Some "ANA" = Some "ANA" -> d1' !! "w" = d2' !! "w"))
    (run (compute_beta_response (fun x => x) 0 (Some "ANA") small_heap)
       small_tape)
    (run (compute_beta_response (fun x => x) 0 (Some "ANA")
            (<[0 := small_design_other]> ∅)) small_tape).
Proof.
  apply (compute_beta_response_reads_only_the_design (fun x => x) 0
           (Some "ANA") small_heap (<[0 := small_design_other]> ∅)
           small_design small_design_other small_tape);
    reflexivity.
Defined.

(** ** The bands of the posterior predictive check *)

(** A comprehension with two entries per turn. *)
Lemma lookup_bind_pair {A B : Type} (f g : A -> B) (l : list A) (k : nat) :
  (l ≫= fun x => [f x; g x]) !! (2 * k) = f <$> l !! k
  /\ (l ≫= fun x => [f x; g x]) !! (2 * k + 1) = g <$> l !! k.
Proof.
  revert k. induction l as [|x l IH]; intros k; [done|].
  rewrite bind_cons. destruct k as [|k]; [done|].
  replace (2 * S k) with (S (S (2 * k))) by lia.
  replace (S (S (2 * k)) + 1) with (S (S (2 * k + 1))) by lia.
  cbn [app lookup list_lookup]. apply IH.
Qed.

Lemma ppc_idxs_pairs (B : nat) :
  ppc_idxs B = seq 0 B ≫= fun idx => [idx; idx].
Proof. reflexivity. Qed.

Lemma ppc_xs_pairs (B : nat) :
  ppc_xs B
  = seq 0 B ≫= fun idx => [nadd (of_int (Z.of_nat idx)) (Fin (- (1 # 2)));
                           nadd (of_int (Z.of_nat idx)) (Fin (1 # 2))].
Proof. reflexivity. Qed.

Lemma mapM_lookup_Some {A : Type} (creds : list A) (idxs : list nat) :
  Forall (fun i => i < length creds) idxs ->
  exists pad, mapM (fun idx => creds !! idx) idxs = Some pad
              /\ length pad = length idxs
              /\ forall j i, idxs !! j = Some i -> pad !! j = creds !! i.
Proof.
  induction 1 as [|i idxs Hi _ (pad & E & Hlen & Hpad)].
  - exists []. by repeat split.
  - destruct (lookup_lt_is_Some_2 creds i Hi) as [c Hc].
    exists (c :: pad).
    split; [apply mapM_Some; constructor; [done|by apply mapM_Some]|].
    split; [cbn [length]; by rewrite Hlen|].
    intros [|j] i'; cbn; [by intros [= <-]|apply Hpad].
Qed.

(** X26. The outline that [plot_ppc] fills follows the bins of its
    histogram: with [B = A + 2] bins, [xs] and [pad_creds] have two entries
    per bin, the left and the right edge of the bin, both with the
    percentiles of that bin, and building [pad_creds] raises no
    IndexError. *)
Theorem plot_ppc_bands_follow_the_bins {V : Type} (A : nat) (creds : list V)
    (k : nat) :
  length creds = A + 2 -> k < A + 2 ->
  length (ppc_bins (A + 2)) = A + 3
  /\ length (ppc_xs (A + 2)) = 2 * (A + 2)
  /\ ppc_xs (A + 2) !! (2 * k) = ppc_bins (A + 2) !! k
  /\ (exists q q',
        ppc_xs (A + 2) !! (2 * k + 1) = Some (Fin q)
        /\ ppc_bins (A + 2) !! (k + 1) = Some (Fin q')
        /\ (q == q')%Q /\ (q == inject_Z (Z.of_nat k) + (1 # 2))%Q)
  /\ exists pad,
       ppc_pad_creds creds (ppc_idxs (A + 2)) = Some pad
       /\ length pad = 2 * (A + 2)
       /\ pad !! (2 * k) = creds !! k
       /\ pad !! (2 * k + 1) = creds !! k.
Proof.
  intros Hlen Hk. set (B := A + 2) in *.
  assert (Hseq : seq 0 B !! k = Some k) by (by apply lookup_seq).
  assert (Hseq' : seq 0 (B + 1) !! k = Some k) by (apply lookup_seq; lia).
  assert (Hseq1 : seq 0 (B + 1) !! (k + 1) = Some (k + 1))
    by (apply lookup_seq; lia).
  split; [unfold ppc_bins; rewrite length_fmap, length_seq; lia|].
  split.
  { rewrite ppc_xs_pairs, (length_bind_const _ 2) by done.
    rewrite length_seq. lia. }
  rewrite ppc_xs_pairs.
  destruct (lookup_bind_pair
              (fun idx => nadd (of_int (Z.of_nat idx)) (Fin (- (1 # 2))))
              (fun idx => nadd (of_int (Z.of_nat idx)) (Fin (1 # 2)))
              (seq 0 B) k) as [-> ->].
  unfold ppc_bins. rewrite !list_lookup_fmap, Hseq, Hseq', Hseq1. cbn [fmap option_fmap option_map].
  split; [done|]. split.
  { eexists _, _. split; [reflexivity|]. split; [reflexivity|].
    split; [|reflexivity].
    rewrite Nat2Z.inj_add, inject_Z_plus. change (inject_Z (Z.of_nat 1)) with 1%Q.
    lra. }
  unfold ppc_pad_creds.
  destruct (mapM_lookup_Some creds (ppc_idxs B)) as (pad & E & Hp & Hpad).
  { rewrite ppc_idxs_pairs. apply Forall_forall. intros i Hi.
    apply list_elem_of_bind in Hi as (idx & Hi & Hidx).
    apply elem_of_seq in Hidx.
    assert (i = idx).
    { apply list_elem_of_In in Hi. cbn [In] in Hi. by destruct Hi as [?|[?|[]]]. }
    lia. }
  exists pad. split; [done|]. split.
  { rewrite Hp, ppc_idxs_pairs, (length_bind_const _ 2) by done.
    rewrite length_seq. lia. }
  destruct (lookup_bind_pair (fun idx : nat => idx) (fun idx => idx)
              (seq 0 B) k) as [H0 H1].
  rewrite Hseq in H0, H1.
  split; apply Hpad; by rewrite ppc_idxs_pairs.
Qed.

Lemma plot_ppc_bands_follow_the_bins_witness :
  length (ppc_bins (4 + 2)) = 4 + 3
  /\ length (ppc_xs (4 + 2)) = 2 * (4 + 2)
  /\ ppc_xs (4 + 2) !! (2 * 1) = ppc_bins (4 + 2) !! 1
  /\ (exists q q',
        ppc_xs (4 + 2) !! (2 * 1 + 1) = Some (Fin q)
        /\ ppc_bins (4 + 2) !! (1 + 1) = Some (Fin q')
        /\ (q == q')%Q /\ (q == inject_Z (Z.of_nat 1) + (1 # 2))%Q)
  /\ exists pad,
       ppc_pad_creds [10; 11; 12; 13; 14; 15] (ppc_idxs (4 + 2)) = Some pad
       /\ length pad = 2 * (4 + 2)
       /\ pad !! (2 * 1) = [10; 11; 12; 13; 14; 15] !! 1
       /\ pad !! (2 * 1 + 1) = [10; 11; 12; 13; 14; 15] !! 1.
Proof.
  apply (plot_ppc_bands_follow_the_bins 4 [10; 11; 12; 13; 14; 15] 1);
    [reflexivity | lia].
Defined.
